(** * WebRTC log server: session aggregation and finalization

    A shallow embedding of the log server of CommercialRTCAnalyzer:
    the enhanced HTTPS server (sessions, inactivity timers, analyzer
    child processes), in [Module Basic] the first server.js and, in
    [Module Client], the queue of the userscript that feeds them.

    The server is a Node.js event loop.  One turn of the loop runs one
    callback to completion: a POST /log handler, a timer callback or the
    [close] callback of an analyzer child.  A turn is modelled as a
    function from [World] to [World]; the turns a run is made of are the
    [Event]s.  GET /health only reads the tables: it is a function of
    the world ([health]) and no event.

    What is taken as given (environment, not code of the server):
    - [fs.mkdirSync], [fs.writeFileSync] and [spawn] succeed; the writes
      are recorded by what they write, not by path;
    - the clock does not advance inside one turn;
    - [JSON.parse] and the formatting of the current date are a
      parameter of the model ([Env]); the output of a child arrives
      whole with its [close] event. *)

From Stdlib Require Import ZArith String Ascii List Bool Lia.
From stdpp Require Import base option list gmap strings pretty.
Import ListNotations.
Local Open Scope string_scope.
Local Open Scope Z_scope.
Set Warnings "-register-all".

(** ** JavaScript values parsed from JSON *)

(** A value as [express.json()] hands it to the handler.  A number is
    kept as its canonical [Number::toString] text (so [0] and [-0] are
    both ["0"]); an object is the list of its own properties in [for-in]
    order, keys distinct. *)
Inductive JSON : Type :=
| JNull
| JBool (b : bool)
| JNum (repr : string)
| JStr (s : string)
| JArr (xs : list JSON)
| JObj (props : list (string * JSON)).

(** ToBoolean. *)
Definition truthy (v : JSON) : bool :=
  match v with
  | JNull => false
  | JBool b => b
  | JNum r => negb (String.eqb r "0")
  | JStr s => negb (String.eqb s EmptyString)
  | JArr _ | JObj _ => true
  end.

(** ToBoolean of a value that may be [undefined] ([None]). *)
Definition truthyU (o : option JSON) : bool :=
  match o with Some v => truthy v | None => false end.

Fixpoint assoc (k : string) (ps : list (string * JSON)) : option JSON :=
  match ps with
  | [] => None
  | (k', v) :: ps' => if String.eqb k k' then Some v else assoc k ps'
  end.

(** [v.k] for a [v] other than [null], at the property names the server
    reads ([sessionId], [type], [rawStats], [startTime],
    [iceConnectionState]): none of them is inherited from a prototype,
    so only an object's own property answers; [None] is [undefined]. *)
Definition get (k : string) (v : JSON) : option JSON :=
  match v with
  | JObj ps => assoc k ps
  | _ => None
  end.

(** [x === s] for a string literal [s]. *)
Definition isStr (s : string) (o : option JSON) : bool :=
  match o with
  | Some (JStr s') => String.eqb s' s
  | _ => false
  end.

Definition hasOwn (k : string) (ps : list (string * JSON)) : bool :=
  match assoc k ps with Some _ => true | None => false end.

Fixpoint joinComma (parts : list string) : string :=
  match parts with
  | [] => EmptyString
  | [p] => p
  | p :: rest => p ++ "," ++ joinComma rest
  end.

(** ToString, as applied when a value is used as a property key.
    [None] is a thrown TypeError: an object whose own [toString] shadows
    [Object.prototype.toString] cannot be converted. *)
Fixpoint toString (v : JSON) : option string :=
  match v with
  | JNull => Some "null"
  | JBool true => Some "true"
  | JBool false => Some "false"
  | JNum r => Some r
  | JStr s => Some s
  | JArr xs =>
      let fix parts (ys : list JSON) : option (list string) :=
        match ys with
        | [] => Some []
        | y :: ys' =>
            match (match y with JNull => Some EmptyString | _ => toString y end) with
            | None => None
            | Some p =>
                match parts ys' with
                | None => None
                | Some ps => Some (p :: ps)
                end
            end
        end in
      match parts xs with
      | None => None
      | Some ps => Some (joinComma ps)
      end
  | JObj ps => if hasOwn "toString" ps then None else Some "[object Object]"
  end.

(** The values a [for (const statId in rawStats)] loop binds [statObj]
    to, in order. *)
Definition forInValues (v : JSON) : list JSON :=
  match v with
  | JObj ps => map snd ps
  | JArr xs => xs
  | JStr s => map (fun c => JStr (String c EmptyString)) (list_ascii_of_string s)
  | _ => []
  end.

(** The names every object inherits from [Object.prototype]:
    [sessions[name]] is truthy for them although no session was stored. *)
Definition objectPrototypeNames : list string :=
  [ "constructor"; "__defineGetter__"; "__defineSetter__"; "hasOwnProperty";
    "__lookupGetter__"; "__lookupSetter__"; "isPrototypeOf";
    "propertyIsEnumerable"; "toString"; "valueOf"; "__proto__";
    "toLocaleString" ].

Definition inherited (k : string) : bool :=
  existsb (String.eqb k) objectPrototypeNames.

(** ** Sessions *)

Record Session : Type := mkSession {
  logs : list JSON;
  isClosed : bool;
  timedOut : bool;
  firstStatsTimestamp : JSON;
  earliestStatsStartTime : JSON;
  analyzed : bool;
  lastActivityTime : Z
}.

Definition newSession (now : Z) : Session :=
  {| logs := []; isClosed := false; timedOut := false;
     firstStatsTimestamp := JNull; earliestStatsStartTime := JNull;
     analyzed := false; lastActivityTime := now |}.

Definition pushLog (e : JSON) (s : Session) : Session :=
  {| logs := logs s ++ [e]; isClosed := isClosed s; timedOut := timedOut s;
     firstStatsTimestamp := firstStatsTimestamp s;
     earliestStatsStartTime := earliestStatsStartTime s;
     analyzed := analyzed s; lastActivityTime := lastActivityTime s |}.

Definition setEarliest (v : JSON) (s : Session) : Session :=
  {| logs := logs s; isClosed := isClosed s; timedOut := timedOut s;
     firstStatsTimestamp := firstStatsTimestamp s;
     earliestStatsStartTime := v;
     analyzed := analyzed s; lastActivityTime := lastActivityTime s |}.

Definition setClosed (s : Session) : Session :=
  {| logs := logs s; isClosed := true; timedOut := timedOut s;
     firstStatsTimestamp := firstStatsTimestamp s;
     earliestStatsStartTime := earliestStatsStartTime s;
     analyzed := analyzed s; lastActivityTime := lastActivityTime s |}.

Definition setTimedOut (s : Session) : Session :=
  {| logs := logs s; isClosed := isClosed s; timedOut := true;
     firstStatsTimestamp := firstStatsTimestamp s;
     earliestStatsStartTime := earliestStatsStartTime s;
     analyzed := analyzed s; lastActivityTime := lastActivityTime s |}.

Definition setAnalyzed (s : Session) : Session :=
  {| logs := logs s; isClosed := isClosed s; timedOut := timedOut s;
     firstStatsTimestamp := firstStatsTimestamp s;
     earliestStatsStartTime := earliestStatsStartTime s;
     analyzed := true; lastActivityTime := lastActivityTime s |}.

Definition setLastActivity (t : Z) (s : Session) : Session :=
  {| logs := logs s; isClosed := isClosed s; timedOut := timedOut s;
     firstStatsTimestamp := firstStatsTimestamp s;
     earliestStatsStartTime := earliestStatsStartTime s;
     analyzed := analyzed s; lastActivityTime := t |}.

(** ** The ingestion loop of POST /log *)

(** A loop body either completes or throws a TypeError; the session
    object keeps what was written to it before the throw. *)
Inductive Outcome : Type :=
| Done (s : Session)
| Threw (s : Session).

Definition stateOf (o : Outcome) : Session :=
  match o with Done s | Threw s => s end.

Definition threw (o : Outcome) : bool :=
  match o with Done _ => false | Threw _ => true end.

Definition andThen (o : Outcome) (k : Session -> Outcome) : Outcome :=
  match o with
  | Done s => k s
  | Threw s => Threw s
  end.

(** Body of the inner loop: [statObj.startTime] throws on [null]. *)
Definition scanStat (statObj : JSON) (s : Session) : Outcome :=
  match statObj with
  | JNull => Threw s
  | _ =>
      match get "startTime" statObj with
      | Some t =>
          if truthy t && negb (truthy (earliestStatsStartTime s))
          then Done (setEarliest t s)
          else Done s
      | None => Done s
      end
  end.

Fixpoint scanStats (objs : list JSON) (s : Session) : Outcome :=
  match objs with
  | [] => Done s
  | o :: rest => andThen (scanStat o s) (scanStats rest)
  end.

Definition closingStates : list string := ["closed"; "failed"; "disconnected"].

(** [['closed','failed','disconnected'].includes(x)] *)
Definition isClosingState (o : option JSON) : bool :=
  match o with
  | Some (JStr st) => existsb (String.eqb st) closingStates
  | _ => false
  end.

(** Body of [for (const entry of logs)]: the entry is pushed first; the
    reads of [entry.type] then throw when the entry is [null]. *)
Definition ingestEntry (entry : JSON) (s : Session) : Outcome :=
  let s1 := pushLog entry s in
  match entry with
  | JNull => Threw s1
  | _ =>
      andThen
        (if isStr "stats" (get "type" entry) && truthyU (get "rawStats" entry)
         then scanStats (match get "rawStats" entry with
                         | Some r => forInValues r
                         | None => []
                         end) s1
         else Done s1)
        (fun s2 =>
           if isStr "state_change" (get "type" entry)
              && isClosingState (get "iceConnectionState" entry)
           then Done (setClosed s2)
           else Done s2)
  end.

Fixpoint ingest (entries : list JSON) (s : Session) : Outcome :=
  match entries with
  | [] => Done s
  | e :: rest => andThen (ingestEntry e s) (ingest rest)
  end.

(** [logs[0] && logs[0].sessionId]; [None] is [undefined]. *)
Definition firstEntrySessionId (first : JSON) : option JSON :=
  if truthy first then get "sessionId" first else Some first.

(** [req.headers['x-webrtc-stats-session'] ||
     (logs[0] && logs[0].sessionId) || 'unknown-session'] *)
Definition requestSessionId (header : option string) (first : JSON) : JSON :=
  if truthyU (JStr <$> header) then JStr (default EmptyString header)
  else if truthyU (firstEntrySessionId first)
       then default JNull (firstEntrySessionId first)
       else JStr "unknown-session".

(** ** JavaScript string primitives used on the analyzer's output

    A string is the list of its characters; positions count them. *)

(** [s.indexOf(c)] for a one-character [c]: first position, or -1. *)
Fixpoint indexOf (c : ascii) (s : string) : Z :=
  match s with
  | EmptyString => -1
  | String a rest =>
      if Ascii.eqb a c then 0
      else let i := indexOf c rest in if i <? 0 then -1 else i + 1
  end.

(** [s.lastIndexOf(c)]: last position, or -1. *)
Fixpoint lastIndexOf (c : ascii) (s : string) : Z :=
  match s with
  | EmptyString => -1
  | String a rest =>
      let i := lastIndexOf c rest in
      if 0 <=? i then i + 1
      else if Ascii.eqb a c then 0 else -1
  end.

Definition strlen (s : string) : Z := Z.of_nat (String.length s).

Definition clampIndex (i : Z) (s : string) : Z := Z.min (Z.max i 0) (strlen s).

(** [s.substring(a, b)]: both ends clamped to [0, length], swapped when
    out of order. *)
Definition jsSubstring (a b : Z) (s : string) : string :=
  let a' := clampIndex a s in
  let b' := clampIndex b s in
  let lo := Z.min a' b' in
  let hi := Z.max a' b' in
  String.substring (Z.to_nat lo) (Z.to_nat (hi - lo)) s.

(** The region the [close] callback hands to [JSON.parse], when its
    three index tests pass. *)
Definition jsonRegion (pyOutput : string) : option string :=
  let jsonStart := indexOf "{" pyOutput in
  let jsonEnd := lastIndexOf "}" pyOutput in
  if (0 <=? jsonStart) && (0 <=? jsonEnd) && (jsonStart <? jsonEnd)
  then Some (jsSubstring jsonStart (jsonEnd + 1) pyOutput)
  else None.

(** ** The state of the server process *)

Definition SESSION_TIMEOUT : Z := 10000.

(** A pending [setTimeout] of the runtime: the session its callback
    closes over and the time before which it cannot fire. *)
Record Timer : Type := mkTimer {
  timerSession : string;
  timerDue : Z
}.

(** A running analyzer child: the [sessionId] and [newLogsOnly] its
    [close] callback closes over.  [newLogsOnly = false] is the call made
    by [finalizeSession]. *)
Record Child : Type := mkChild {
  childSession : string;
  childNewLogsOnly : bool
}.

(** The files the server writes: the combined logs of a session, the
    final results and, in the first server.js only, the raw body of a
    request. *)
Inductive FsWrite : Type :=
| WriteAllLogs (sessionId folderName : string) (content : list JSON)
| WriteFinalResults (sessionId : string) (content : JSON)
| WriteRawLogs (sessionId stamp : string) (content : list JSON).

Inductive Msg : Type :=
| MsgProcessing (sessionId : string) (newLogsOnly : bool)
| MsgRunning (sessionId : string)
| MsgAnalyzerNotFound
| MsgFinished (code : option Z)
| MsgResults (v : JSON)
| MsgSavedFinal (sessionId : string)
| MsgNoValidJSON
| MsgCouldNotParse
| MsgRawOutput (pyOutput : string)
| MsgTimedOut (sessionId : string)
| MsgFinalizing (sessionId : string).

Record World : Type := mkWorld {
  sessions : gmap string Session;
  sessionTimeouts : gmap string nat;
  timers : gmap nat Timer;
  nextTimer : nat;
  children : gmap nat Child;
  nextChild : nat;
  disk : list FsWrite;
  console : list Msg;
  clock : Z;
  pyScriptExists : bool
}.

Definition initWorld (now : Z) (script : bool) : World :=
  {| sessions := ∅; sessionTimeouts := ∅; timers := ∅; nextTimer := 0%nat;
     children := ∅; nextChild := 0%nat; disk := []; console := [];
     clock := now; pyScriptExists := script |}.

Definition withSessions (f : gmap string Session -> gmap string Session)
    (w : World) : World :=
  {| sessions := f (sessions w); sessionTimeouts := sessionTimeouts w;
     timers := timers w; nextTimer := nextTimer w; children := children w;
     nextChild := nextChild w; disk := disk w; console := console w;
     clock := clock w; pyScriptExists := pyScriptExists w |}.

Definition withSessionTimeouts (f : gmap string nat -> gmap string nat)
    (w : World) : World :=
  {| sessions := sessions w; sessionTimeouts := f (sessionTimeouts w);
     timers := timers w; nextTimer := nextTimer w; children := children w;
     nextChild := nextChild w; disk := disk w; console := console w;
     clock := clock w; pyScriptExists := pyScriptExists w |}.

Definition withTimers (f : gmap nat Timer -> gmap nat Timer) (w : World)
    : World :=
  {| sessions := sessions w; sessionTimeouts := sessionTimeouts w;
     timers := f (timers w); nextTimer := nextTimer w; children := children w;
     nextChild := nextChild w; disk := disk w; console := console w;
     clock := clock w; pyScriptExists := pyScriptExists w |}.

Definition withChildren (f : gmap nat Child -> gmap nat Child) (w : World)
    : World :=
  {| sessions := sessions w; sessionTimeouts := sessionTimeouts w;
     timers := timers w; nextTimer := nextTimer w; children := f (children w);
     nextChild := nextChild w; disk := disk w; console := console w;
     clock := clock w; pyScriptExists := pyScriptExists w |}.

(** [sessions[sessionId] = s], also the in-place writes to the fields of
    the one object stored there. *)
Definition putSession (sessionId : string) (s : Session) : World -> World :=
  withSessions (insert sessionId s).

Definition writeFile (f : FsWrite) (w : World) : World :=
  {| sessions := sessions w; sessionTimeouts := sessionTimeouts w;
     timers := timers w; nextTimer := nextTimer w; children := children w;
     nextChild := nextChild w; disk := disk w ++ [f]; console := console w;
     clock := clock w; pyScriptExists := pyScriptExists w |}.

Definition say (m : Msg) (w : World) : World :=
  {| sessions := sessions w; sessionTimeouts := sessionTimeouts w;
     timers := timers w; nextTimer := nextTimer w; children := children w;
     nextChild := nextChild w; disk := disk w; console := console w ++ [m];
     clock := clock w; pyScriptExists := pyScriptExists w |}.

(** [spawn('python3', ...)]: one more child, under a fresh pid. *)
Definition spawn (c : Child) (w : World) : World :=
  {| sessions := sessions w; sessionTimeouts := sessionTimeouts w;
     timers := timers w; nextTimer := nextTimer w;
     children := <[nextChild w := c]> (children w);
     nextChild := S (nextChild w); disk := disk w; console := console w;
     clock := clock w; pyScriptExists := pyScriptExists w |}.

(** [setTimeout(callback, SESSION_TIMEOUT)]: a fresh handle. *)
Definition setTimeout (sessionId : string) (w : World) : nat * World :=
  (nextTimer w,
   {| sessions := sessions w; sessionTimeouts := sessionTimeouts w;
      timers := <[nextTimer w := mkTimer sessionId (clock w + SESSION_TIMEOUT)]>
                  (timers w);
      nextTimer := S (nextTimer w); children := children w;
      nextChild := nextChild w; disk := disk w; console := console w;
      clock := clock w; pyScriptExists := pyScriptExists w |}).

Definition clearTimeout (h : nat) : World -> World := withTimers (delete h).

Definition advance (d : N) (w : World) : World :=
  {| sessions := sessions w; sessionTimeouts := sessionTimeouts w;
     timers := timers w; nextTimer := nextTimer w; children := children w;
     nextChild := nextChild w; disk := disk w; console := console w;
     clock := clock w + Z.of_N d; pyScriptExists := pyScriptExists w |}.

(** ** Answers and events *)

Inductive Response : Type :=
| Status (code : Z) (text : string)
| Uncaught.
(** [Uncaught]: the handler threw a TypeError; Express answers 500 and
    the process lives on with whatever the handler had already written. *)

Inductive Event : Type :=
| PostLog (header : option string) (body : JSON)
| TimerFires (handle : nat)
| ChildCloses (pid : nat) (pyOutput : string) (code : option Z)
| Elapse (ms : N).

(** ** The callbacks of the server *)

(** What the server calls and the model does not define. *)
Class Env : Type := {
  (** [JSON.parse]; [None] when it throws a SyntaxError. *)
  JSON_parse : string -> option JSON;
  (** [new Date().toISOString().replace(/[:.]/g, '-')] at a given time. *)
  isoStamp : Z -> string
}.

(** [s.split(sep)] for a one-character separator. *)
Fixpoint splitOn (sep : ascii) (s : string) : list string :=
  match s with
  | EmptyString => [EmptyString]
  | String a rest =>
      if Ascii.eqb a sep then EmptyString :: splitOn sep rest
      else match splitOn sep rest with
           | [] => [String a EmptyString]
           | p :: ps => String a p :: ps
           end
  end.

(** [extractTimeFromISO]: every TypeError in its [try] (a value that is
    no string, no ["T"], fewer than three fields) ends in the [catch]
    branch, which formats the current date. *)
Definition extractTimeFromISO {env : Env} (isoString : JSON) (now : Z)
    : string :=
  match isoString with
  | JStr iso =>
      match splitOn "T" iso with
      | _ :: afterT :: _ =>
          let timePart := hd EmptyString (splitOn "Z" afterT) in
          match splitOn ":" timePart with
          | hh :: mm :: ssMillis :: _ =>
              let ss := hd EmptyString (splitOn "." ssMillis) in
              (hh ++ "_" ++ mm ++ "_" ++ ss)%string
          | _ => isoStamp now
          end
      | _ => isoStamp now
      end
  | _ => isoStamp now
  end.

(** The [close] callback of an analyzer child.  [sessionInfo] is the
    session object the callback closes over; sessions are never deleted
    or replaced, so it is the object stored under [sessionId]. *)
Definition onClose {env : Env} (c : Child) (pyOutput : string)
    (code : option Z) (w : World) : World :=
  let w1 := say (MsgFinished code) w in
  match jsonRegion pyOutput with
  | Some jsonString =>
      match JSON_parse jsonString with
      | Some finalResults =>
          let w2 := say (MsgResults finalResults) w1 in
          match sessions w2 !! childSession c with
          | Some sessionInfo =>
              if isClosed sessionInfo || timedOut sessionInfo
              then say (MsgSavedFinal (childSession c))
                     (writeFile (WriteFinalResults (childSession c) finalResults) w2)
              else w2
          | None => w2
          end
      | None => say (MsgRawOutput pyOutput) (say MsgCouldNotParse w1)
      end
  | None => say MsgNoValidJSON w1
  end.

Definition processLogsAndAnalyze {env : Env} (sessionId : string)
    (newLogsOnly : bool) (w : World) : World :=
  match sessions w !! sessionId with
  | None => w
  | Some sessionInfo =>
      let folderName :=
        if truthy (earliestStatsStartTime sessionInfo)
        then extractTimeFromISO (earliestStatsStartTime sessionInfo) (clock w)
        else isoStamp (clock w) in
      let w1 := writeFile (WriteAllLogs sessionId folderName (logs sessionInfo)) w in
      let w2 := say (MsgProcessing sessionId newLogsOnly) w1 in
      if pyScriptExists w2
      then spawn (mkChild sessionId newLogsOnly) (say (MsgRunning sessionId) w2)
      else say MsgAnalyzerNotFound w2
  end.

Definition finalizeSession {env : Env} (sessionId : string) (w : World)
    : World :=
  match sessions w !! sessionId with
  | None => w
  | Some sessionInfo =>
      if analyzed sessionInfo then w
      else
        let w1 := putSession sessionId (setAnalyzed sessionInfo) w in
        let w2 := say (MsgFinalizing sessionId) w1 in
        processLogsAndAnalyze sessionId false w2
  end.

(** The callback [setupSessionTimeout] hands to [setTimeout]. *)
Definition onTimeout {env : Env} (sessionId : string) (w : World) : World :=
  let w1 := say (MsgTimedOut sessionId) w in
  let w2 :=
    match sessions w1 !! sessionId with
    | Some s =>
        finalizeSession sessionId
          (putSession sessionId (setClosed (setTimedOut s)) w1)
    | None => w1
    end in
  withSessionTimeouts (delete sessionId) w2.

Definition setupSessionTimeout (sessionId : string) (w : World) : World :=
  let w1 :=
    match sessionTimeouts w !! sessionId with
    | Some h => clearTimeout h w
    | None => w
    end in
  let '(h, w2) := setTimeout sessionId w1 in
  withSessionTimeouts (insert sessionId h) w2.

(** [app.post('/log', ...)].  For a name of [Object.prototype],
    [sessions[sessionId]] is truthy, no session is stored, and
    [sessions[sessionId].logs.push] throws at the first entry. *)
Definition postLog {env : Env} (header : option string) (body : JSON)
    (w : World) : Response * World :=
  match body with
  | JArr (first :: rest) =>
      match toString (requestSessionId header first) with
      | None => (Uncaught, w)
      | Some sessionId =>
          if inherited sessionId then (Uncaught, w)
          else
            let s0 :=
              match sessions w !! sessionId with
              | Some s => s
              | None => newSession (clock w)
              end in
            match ingest (first :: rest) s0 with
            | Threw s1 => (Uncaught, putSession sessionId s1 w)
            | Done s1 =>
                let w1 := putSession sessionId
                            (setLastActivity (clock w) s1) w in
                let w2 := processLogsAndAnalyze sessionId true w1 in
                let w3 := setupSessionTimeout sessionId w2 in
                (Status 200 "Logs received",
                 match sessions w3 !! sessionId with
                 | Some s => if isClosed s then finalizeSession sessionId w3
                             else w3
                 | None => w3
                 end)
            end
      end
  | _ => (Status 400 "No logs received", w)
  end.

(** One turn of the event loop.  A timer fires only while it is pending
    and due; a child closes only while it runs. *)
Definition step {env : Env} (w : World) (ev : Event) : World :=
  match ev with
  | PostLog header body => snd (postLog header body w)
  | TimerFires h =>
      match timers w !! h with
      | Some t =>
          if timerDue t <=? clock w
          then onTimeout (timerSession t) (withTimers (delete h) w)
          else w
      | None => w
      end
  | ChildCloses pid pyOutput code =>
      match children w !! pid with
      | Some c => onClose c pyOutput code (withChildren (delete pid) w)
      | None => w
      end
  | Elapse ms => advance ms w
  end.

Definition run {env : Env} (w : World) (evs : list Event) : World :=
  fold_left step evs w.

(** The worlds the server can be in: every run starts with empty
    tables. *)
Definition reachable {env : Env} (w : World) : Prop :=
  exists now script evs, w = run (initWorld now script) evs.

(** ** The first server.js

    The first version of the server has the same request handler up to
    the end of the ingestion loop.  It has no timers, no
    [lastActivityTime] and no non-final analysis: the handler writes the
    raw body to disk, and [finalizeSession] itself snapshots the logs and
    launches the analyzer, whose whole output goes to [JSON.parse].  Its
    session objects have no [timedOut] and no [lastActivityTime] field
    (they keep their initial value here), and [analyzed] is [undefined],
    which the guard reads as false, until it is set. *)
Module Basic.

Definition onClose {env : Env} (pyOutput : string) (code : option Z)
    (w : World) : World :=
  let w1 := say (MsgFinished code) w in
  match JSON_parse pyOutput with
  | Some finalResults => say (MsgResults finalResults) w1
  | None => say MsgCouldNotParse w1
  end.

Definition finalizeSession {env : Env} (sessionId : string) (w : World)
    : World :=
  match sessions w !! sessionId with
  | None => w
  | Some sessionInfo =>
      if analyzed sessionInfo then w
      else
        let w1 := putSession sessionId (setAnalyzed sessionInfo) w in
        let folderName :=
          if truthy (earliestStatsStartTime sessionInfo)
          then extractTimeFromISO (earliestStatsStartTime sessionInfo) (clock w)
          else isoStamp (clock w) in
        let w2 := writeFile (WriteAllLogs sessionId folderName (logs sessionInfo)) w1 in
        let w3 := say (MsgFinalizing sessionId) w2 in
        spawn (mkChild sessionId false) w3
  end.

Definition postLog {env : Env} (header : option string) (body : JSON)
    (w : World) : Response * World :=
  match body with
  | JArr (first :: rest) =>
      match toString (requestSessionId header first) with
      | None => (Uncaught, w)
      | Some sessionId =>
          if inherited sessionId then (Uncaught, w)
          else
            let s0 :=
              match sessions w !! sessionId with
              | Some s => s
              | None => newSession 0
              end in
            match ingest (first :: rest) s0 with
            | Threw s1 => (Uncaught, putSession sessionId s1 w)
            | Done s1 =>
                let w1 := putSession sessionId s1 w in
                let w2 := writeFile
                            (WriteRawLogs sessionId (isoStamp (clock w))
                               (first :: rest)) w1 in
                (Status 200 "Logs received",
                 match sessions w2 !! sessionId with
                 | Some s => if isClosed s then finalizeSession sessionId w2
                             else w2
                 | None => w2
                 end)
            end
      end
  | _ => (Status 400 "No logs received", w)
  end.

(** One turn of the loop; this server sets no timer, so none fires. *)
Definition step {env : Env} (w : World) (ev : Event) : World :=
  match ev with
  | PostLog header body => snd (postLog header body w)
  | TimerFires _ => w
  | ChildCloses pid pyOutput code =>
      match children w !! pid with
      | Some _ => onClose pyOutput code (withChildren (delete pid) w)
      | None => w
      end
  | Elapse ms => advance ms w
  end.

Definition run {env : Env} (w : World) (evs : list Event) : World :=
  fold_left step evs w.

Definition reachable {env : Env} (w : World) : Prop :=
  exists now script evs, w = run (initWorld now script) evs.

Definition sessionBeforePost (sid : string) (w : World) : Session :=
  match sessions w !! sid with
  | Some s => s
  | None => newSession 0
  end.

Definition sessionAfterPost (o : Outcome) : Session :=
  match o with
  | Threw s1 => s1
  | Done s1 => if isClosed s1 && negb (analyzed s1) then setAnalyzed s1 else s1
  end.

End Basic.

(** ** Readings of a request and of the tables *)

(** The session a request is filed under: [None] when the body is not a
    non-empty array, or when the handler throws before it reaches the
    session (the key cannot be formed, or names a member of
    [Object.prototype]). *)
Definition sessionKey (header : option string) (body : JSON) : option string :=
  match body with
  | JArr (first :: _) =>
      match toString (requestSessionId header first) with
      | Some k => if inherited k then None else Some k
      | None => None
      end
  | _ => None
  end.

Definition entriesOf (body : JSON) : list JSON :=
  match body with JArr xs => xs | _ => [] end.

(** Whether the loop body throws on an entry; it does not depend on the
    session. *)
Definition entryThrows (e : JSON) : bool :=
  threw (ingestEntry e (newSession 0)).

(** The entries of a batch that reach [logs]: all of them, or those up to
    and including the one the loop throws on. *)
Fixpoint pushed (es : list JSON) : list JSON :=
  match es with
  | [] => []
  | e :: rest => e :: (if entryThrows e then [] else pushed rest)
  end.

(** A batch is accepted when the handler answers 200. *)
Definition accepted (header : option string) (body : JSON) : bool :=
  match sessionKey header body with
  | Some _ => negb (existsb entryThrows (entriesOf body))
  | None => false
  end.

(** The answer of the handler, read off the request alone. *)
Definition response (header : option string) (body : JSON) : Response :=
  match body with
  | JArr (_ :: _) =>
      if accepted header body then Status 200 "Logs received" else Uncaught
  | _ => Status 400 "No logs received"
  end.

(** What a request adds to the [logs] of [sessionId]. *)
Definition pushedUnder (sessionId : string) (ev : Event) : list JSON :=
  match ev with
  | PostLog header body =>
      if decide (sessionKey header body = Some sessionId)
      then pushed (entriesOf body) else []
  | _ => []
  end.

(** The batch an event submits under [sessionId]. *)
Definition batchUnder (sessionId : string) (ev : Event) : list JSON :=
  match ev with
  | PostLog header body =>
      if decide (sessionKey header body = Some sessionId)
      then entriesOf body else []
  | _ => []
  end.

(** Every request filed under [sessionId] in the run is accepted. *)
Definition allAccepted (sessionId : string) (evs : list Event) : Prop :=
  forall header body,
    In (PostLog header body) evs ->
    sessionKey header body = Some sessionId ->
    accepted header body = true.

Definition sessionLogs (sessionId : string) (w : World) : list JSON :=
  match sessions w !! sessionId with
  | Some s => logs s
  | None => []
  end.

(** The [startTime] values the inner loop reads from one entry, in the
    order it reads them. *)
Definition startTimesOfEntry (e : JSON) : list JSON :=
  if isStr "stats" (get "type" e) && truthyU (get "rawStats" e)
  then omap (get "startTime")
         (match get "rawStats" e with Some r => forInValues r | None => [] end)
  else [].

Definition startTimes (es : list JSON) : list JSON :=
  concat (map startTimesOfEntry es).

Fixpoint firstTruthy (vs : list JSON) : JSON :=
  match vs with
  | [] => JNull
  | v :: rest => if truthy v then v else firstTruthy rest
  end.

(** [a || b] on values. *)
Definition pick (a b : JSON) : JSON := if truthy a then a else b.

(** A value [earliestStatsStartTime] can hold: the initial [null] or a
    truthy [startTime]. *)
Definition unsetOrTruthy (v : JSON) : Prop := v = JNull \/ truthy v = true.

(** The stat objects the inner loop gets through: all of them, or those
    before the [null] it throws on. *)
Fixpoint scanned (objs : list JSON) : list JSON :=
  match objs with
  | [] => []
  | JNull :: _ => []
  | o :: rest => o :: scanned rest
  end.

(** The [startTime]s the loop body reads from an entry before it is done
    with it (or throws). *)
Definition startTimesRead (e : JSON) : list JSON :=
  if isStr "stats" (get "type" e) && truthyU (get "rawStats" e)
  then omap (get "startTime")
         (scanned (match get "rawStats" e with
                   | Some r => forInValues r
                   | None => []
                   end))
  else [].

(** [earliestStatsStartTime] is what the [logs] say it is. *)
Definition earliestMatchesLogs (s : Session) : Prop :=
  earliestStatsStartTime s = firstTruthy (startTimes (logs s)).

Definition isFinalizing (sessionId : string) (m : Msg) : bool :=
  match m with
  | MsgFinalizing s => String.eqb s sessionId
  | _ => false
  end.

(** How many times finalization went past its guard for a session. *)
Definition finalizations (sessionId : string) (w : World) : nat :=
  length (List.filter (isFinalizing sessionId) (console w)).

Definition analyzedIn (sid : string) (w : World) : bool :=
  match sessions w !! sid with
  | Some s => analyzed s
  | None => false
  end.

(** Analyzer children of a session that are running. *)
Definition inFlight (sessionId : string) (w : World) : nat :=
  size (filter (fun pc : nat * Child => childSession (snd pc) = sessionId)
          (children w)).

Definition childrenFresh (w : World) : Prop :=
  forall pid c, children w !! pid = Some c -> (pid < nextChild w)%nat.

(** The child launched by [finalizeSession] belongs to a session that is
    closed: finalization is only called for closed sessions. *)
Definition finalChildrenClosed (w : World) : Prop :=
  forall pid c,
    children w !! pid = Some c -> childNewLogsOnly c = false ->
    exists s, sessions w !! childSession c = Some s /\ isClosed s = true.

Definition sessionBeforePost (sid : string) (w : World) : Session :=
  match sessions w !! sid with
  | Some s => s
  | None => newSession (clock w)
  end.

(** The session object as the handler leaves it: the loop's writes, then
    [lastActivityTime] and, for a closed session not yet analyzed, the
    [analyzed] mark of [finalizeSession]; after a throw, the loop's writes
    only. *)
Definition sessionAfterPost (now : Z) (o : Outcome) : Session :=
  match o with
  | Threw s1 => s1
  | Done s1 =>
      if isClosed s1 && negb (analyzed s1)
      then setAnalyzed (setLastActivity now s1)
      else setLastActivity now s1
  end.

(** What one turn does to the entry of a session in the table. *)
Definition sessionAfter (sid : string) (w : World) (ev : Event)
    : option Session :=
  match ev with
  | PostLog header body =>
      if decide (sessionKey header body = Some sid)
      then Some (sessionAfterPost (clock w)
                   (ingest (entriesOf body) (sessionBeforePost sid w)))
      else sessions w !! sid
  | TimerFires h =>
      match timers w !! h with
      | Some t =>
          if (timerDue t <=? clock w) && bool_decide (timerSession t = sid)
          then (fun s => setAnalyzed (setClosed (setTimedOut s)))
                 <$> sessions w !! sid
          else sessions w !! sid
      | None => sessions w !! sid
      end
  | ChildCloses _ _ _ | Elapse _ => sessions w !! sid
  end.

(** What the loop may do to a session object: append to [logs], raise
    [isClosed], fill an unset [earliestStatsStartTime] with a truthy
    value.  Nothing else is touched. *)
Record grows (s s' : Session) : Prop := mkGrows {
  grows_logs : exists l, logs s' = (logs s ++ l)%list;
  grows_closed : isClosed s = true -> isClosed s' = true;
  grows_timedOut : timedOut s = true -> timedOut s' = true;
  grows_analyzed : analyzed s = true -> analyzed s' = true;
  grows_earliest :
    truthy (earliestStatsStartTime s) = true ->
    earliestStatsStartTime s' = earliestStatsStartTime s
}.

(** The inner loop writes [earliestStatsStartTime] and nothing else. *)
Record sameButEarliest (s s' : Session) : Prop := mkSameBut {
  sbe_logs : logs s' = logs s;
  sbe_closed : isClosed s' = isClosed s;
  sbe_timedOut : timedOut s' = timedOut s;
  sbe_analyzed : analyzed s' = analyzed s;
  sbe_activity : lastActivityTime s' = lastActivityTime s
}.

(** The timer tables of a reachable world: a pending timer is the one
    whose handle is stored for its session, handles are fresh, and a
    pending timer is due [SESSION_TIMEOUT] after the last accepted batch
    of its session. *)
Record timersOK (w : World) : Prop := mkTimersOK {
  tok_current : forall h t,
    timers w !! h = Some t -> sessionTimeouts w !! timerSession t = Some h;
  tok_fresh : forall h t, timers w !! h = Some t -> (h < nextTimer w)%nat;
  tok_stored : forall sid h,
    sessionTimeouts w !! sid = Some h ->
    exists t, timers w !! h = Some t /\ timerSession t = sid;
  tok_due : forall h t,
    timers w !! h = Some t ->
    exists s, sessions w !! timerSession t = Some s
              /\ timerDue t = lastActivityTime s + SESSION_TIMEOUT
}.

Definition occursIn (c : ascii) (s : string) : Prop :=
  In c (list_ascii_of_string s).

(** ** Readings of a timestamp *)

(** The characters [extractTimeFromISO] splits on. *)
Definition separators : list ascii := ["T"; "Z"; ":"; "."]%char.

(** A field of a timestamp holds no separator. *)
Definition timeField (s : string) : Prop :=
  forall c, In c separators -> ~ occursIn c s.

(** What follows the seconds: nothing, or text that starts with a
    separator. *)
Definition timeTail (s : string) : Prop :=
  match s with
  | EmptyString => True
  | String c _ => In c separators
  end.

(** ** GET /health *)

(** [Math.round(ms / 1000)] for a whole number of milliseconds: the
    nearest second, a half rounded up.  (The quotient is exact in
    floating point for every time a clock in milliseconds shows.) *)
Definition roundSeconds (ms : Z) : Z := (ms + 500) / 1000.

(** An entry of [sessionSummary]. *)
Record SessionSummary : Type := mkSessionSummary {
  logCount : nat;
  lastActivity : string;
  willTimeoutIn : string;
  summaryIsClosed : bool
}.

(** The entry built for [id]; [sessionTimeouts[id]] is truthy for a
    stored handle and for the names of [Object.prototype]. *)
Definition summarize (w : World) (id : string) (session : Session)
    : SessionSummary :=
  let elapsedSinceLastActivity :=
    clock w - (if lastActivityTime session =? 0 then 0
               else lastActivityTime session) in
  {| logCount := length (logs session);
     lastActivity := pretty (roundSeconds elapsedSinceLastActivity) +:+ "s ago";
     willTimeoutIn :=
       if inherited id || bool_decide (is_Some (sessionTimeouts w !! id))
       then pretty (roundSeconds (SESSION_TIMEOUT - elapsedSinceLastActivity))
            +:+ "s"
       else "No timeout";
     summaryIsClosed := isClosed session |}.

(** The loop over [Object.entries(sessions)]; an assignment to
    [sessionSummary['__proto__']] adds no entry. *)
Definition sessionSummary (w : World) : gmap string SessionSummary :=
  map_imap
    (fun id session =>
       if analyzed session || String.eqb id "__proto__" then None
       else Some (summarize w id session))
    (sessions w).

(** The body of the answer of [app.get('/health', ...)]; [timestamp] is
    [new Date().toISOString()]. *)
Record Health : Type := mkHealth {
  healthStatus : string;
  healthTimestamp : string;
  activeSessions : nat;
  healthSessions : gmap string SessionSummary
}.

Definition health (timestamp : string) (w : World) : Z * Health :=
  (200,
   {| healthStatus := "ok";
      healthTimestamp := timestamp;
      activeSessions := size (sessionSummary w);
      healthSessions := sessionSummary w |}).

(** ** Further readings of a batch and of the disk *)

(** The test of the loop that raises [isClosed]. *)
Definition closesSession (entry : JSON) : bool :=
  isStr "state_change" (get "type" entry)
  && isClosingState (get "iceConnectionState" entry).




(** The combined-log files written for a session. *)
Definition snapshotOf (sessionId : string) (f : FsWrite)
    : option (list JSON) :=
  match f with
  | WriteAllLogs sid _ content =>
      if String.eqb sid sessionId then Some content else None
  | _ => None
  end.

Definition snapshots (sessionId : string) (d : list FsWrite)
    : list (list JSON) :=
  omap (snapshotOf sessionId) d.

(** ** Further readings of the tables *)

(** A session is open, closing or analyzed: [analyzed] implies
    [isClosed], and [timedOut] implies both. *)
Definition flagsConsistent (s : Session) : Prop :=
  (analyzed s = true -> isClosed s = true)
  /\ (timedOut s = true -> isClosed s = true /\ analyzed s = true).

(** The session a turn of the loop works on, if any. *)
Definition eventSession (w : World) (ev : Event) : option string :=
  match ev with
  | PostLog header body => sessionKey header body
  | TimerFires h => timerSession <$> timers w !! h
  | ChildCloses _ _ _ | Elapse _ => None
  end.

(** The combined-log files among the writes. *)
Definition isSnapshot (f : FsWrite) : Prop :=
  match f with
  | WriteAllLogs _ _ _ => True
  | _ => False
  end.

(** The folder a snapshot of a session goes to. *)
Definition folderNameOf {env : Env} (s : Session) (now : Z) : string :=
  if truthy (earliestStatsStartTime s)
  then extractTimeFromISO (earliestStatsStartTime s) now
  else isoStamp now.

(** The combined-log files of the first server: one for an analyzed
    session, none otherwise, each a prefix of the logs in memory, and no
    more analyzers running than files written. *)
Record basicSnapshotsOK (sid : string) (w : World) : Prop := mkBasicSnapshotsOK {
  bso_fresh : childrenFresh w;
  bso_count :
    length (snapshots sid (disk w)) = if analyzedIn sid w then 1%nat else 0%nat;
  bso_prefix : forall l,
    In l (snapshots sid (disk w)) ->
    exists rest, sessionLogs sid w = (l ++ rest)%list;
  bso_inFlight : (inFlight sid w <= length (snapshots sid (disk w)))%nat
}.

(** * The logging userscript

    The queue of the userscript that feeds the server: [logData] and
    [sendLogs], which both versions of the script share, and the two
    versions of [generateSessionId].  A log entry is modelled by the
    JSON value it is serialised to; the console output is left out. *)

Module Client.

(** [obj[k] = v] on the own properties of an object: an existing
    property keeps its place, a new one goes last. *)
Fixpoint setProp (k : string) (v : JSON) (props : list (string * JSON))
    : list (string * JSON) :=
  match props with
  | [] => [(k, v)]
  | (k', v') :: rest =>
      if String.eqb k k' then (k', v) :: rest
      else (k', v') :: setProp k v rest
  end.

(** [arr.slice(start)] *)
Definition jsSlice {A : Type} (start : Z) (arr : list A) : list A :=
  let len := Z.of_nat (length arr) in
  let k := if start <? 0 then Z.max (len + start) 0 else Z.min start len in
  drop (Z.to_nat k) arr.

(** The fields of [CONFIG] the queue reads; [maxLogsBeforeSend] is a
    whole number. *)
Record Config : Type := mkConfig {
  maxLogsBeforeSend : Z;
  userId : JSON
}.

(** What the page tells [logData]: [navigator.userAgent],
    [window.devicePixelRatio], [window.screen.width] and
    [window.screen.height]. *)
Record Browser : Type := mkBrowser {
  userAgent : JSON;
  devicePixelRatio : JSON;
  screenWidth : JSON;
  screenHeight : JSON
}.

(** A request handed to [fetch]: the [X-WebRTC-Stats-Session] header and
    the entries of the body. *)
Record Request : Type := mkRequest {
  requestSession : string;
  requestLogs : list JSON
}.

(** The script between two turns of the page's event loop: the queue,
    the [logsToSend] of every [sendLogs] that awaits its [fetch], and
    the requests issued so far. *)
Record State : Type := mkState {
  sessionId : string;
  CONFIG : Config;
  browser : Browser;
  pendingLogs : list JSON;
  awaiting : gmap nat (list JSON);
  nextFetch : nat;
  posted : list Request
}.

Definition initialState (sessionId : string) (CONFIG : Config)
    (browser : Browser) : State :=
  {| sessionId := sessionId; CONFIG := CONFIG; browser := browser;
     pendingLogs := []; awaiting := ∅; nextFetch := 0; posted := [] |}.

Definition withPending (f : list JSON -> list JSON) (st : State) : State :=
  {| sessionId := sessionId st; CONFIG := CONFIG st; browser := browser st;
     pendingLogs := f (pendingLogs st); awaiting := awaiting st;
     nextFetch := nextFetch st; posted := posted st |}.

(** [sendLogs] up to its [await]: the queue is emptied and its content
    posted under the session of the script. *)
Definition sendLogs (st : State) : State :=
  match pendingLogs st with
  | [] => st
  | _ :: _ =>
      let logsToSend := pendingLogs st in
      {| sessionId := sessionId st; CONFIG := CONFIG st; browser := browser st;
         pendingLogs := [];
         awaiting := <[nextFetch st := logsToSend]> (awaiting st);
         nextFetch := S (nextFetch st);
         posted := (posted st ++ [mkRequest (sessionId st) logsToSend])%list |}
  end.

(** The metadata [logData] writes into an entry. *)
Definition withMetadata (st : State) (data : list (string * JSON))
    : list (string * JSON) :=
  let data1 := setProp "userAgent" (userAgent (browser st)) data in
  let data2 := setProp "devicePixelRatio" (devicePixelRatio (browser st)) data1 in
  let data3 := setProp "screenWidth" (screenWidth (browser st)) data2 in
  let data4 := setProp "screenHeight" (screenHeight (browser st)) data3 in
  if truthy (userId (CONFIG st))
  then setProp "userId" (userId (CONFIG st)) data4
  else data4.

(** [logData(data)] for the object [data] a hook has built. *)
Definition logData (data : list (string * JSON)) (st : State) : State :=
  let st1 := withPending (fun q => (q ++ [JObj (withMetadata st data)])%list) st in
  if maxLogsBeforeSend (CONFIG st1) <=? Z.of_nat (length (pendingLogs st1))
  then sendLogs st1
  else st1.

(** [sendLogs] after its [await]: [ok] is [response.ok], and is false
    as well when [fetch] rejects; both ways lead to the [catch] block,
    which puts the entries back in front of the queue and trims it. *)
Definition settle (req : nat) (ok : bool) (st : State) : State :=
  match awaiting st !! req with
  | None => st
  | Some logsToSend =>
      let st1 :=
        {| sessionId := sessionId st; CONFIG := CONFIG st;
           browser := browser st; pendingLogs := pendingLogs st;
           awaiting := delete req (awaiting st);
           nextFetch := nextFetch st; posted := posted st |} in
      if ok then st1
      else
        withPending
          (fun q =>
             let requeued := (logsToSend ++ q)%list in
             if maxLogsBeforeSend (CONFIG st) * 2
                <? Z.of_nat (length requeued)
             then jsSlice (- maxLogsBeforeSend (CONFIG st)) requeued
             else requeued)
          st1
  end.

(** The turns of the script: a hook logs an entry, the interval timer
    (or the page) calls [sendLogs], an awaited [fetch] settles. *)
Inductive Event : Type :=
| LogData (data : list (string * JSON))
| SendLogs
| FetchSettles (req : nat) (ok : bool).

Definition step (st : State) (ev : Event) : State :=
  match ev with
  | LogData data => logData data st
  | SendLogs => sendLogs st
  | FetchSettles req ok => settle req ok st
  end.

Definition run (st : State) (evs : list Event) : State :=
  fold_left step evs st.

(** The entries the hooks logged, as they enter the queue. *)
Fixpoint logged (st : State) (evs : list Event) : list JSON :=
  match evs with
  | [] => []
  | ev :: rest =>
      (match ev with
       | LogData data => [JObj (withMetadata st data)]
       | _ => []
       end ++ logged (step st ev) rest)%list
  end.

Definition isFailure (ev : Event) : bool :=
  match ev with
  | FetchSettles _ false => true
  | _ => false
  end.

(** Version 0.1: ['webrtc_' + r1 + r2], the two random suffixes
    [Math.random().toString(36).substring(2, 15)]. *)
Module V1.

Definition generateSessionId (r1 r2 : string) : string :=
  "webrtc_" ++ r1 ++ r2.

End V1.

(** Version 0.3: [hostname_yyyymmdd-hhmmss] from the host name of the
    page and the local time. *)
Module V3.

(** [s.replace(/\./g, '_')] *)
Fixpoint replaceDots (s : string) : string :=
  match s with
  | EmptyString => EmptyString
  | String c rest =>
      String (if Ascii.eqb c "." then "_"%char else c) (replaceDots rest)
  end.

(** [s.padStart(2, '0')] *)
Definition padStart2 (s : string) : string :=
  match s with
  | EmptyString => "00"
  | String c EmptyString => String "0" s
  | _ => s
  end.

(** [getMonth()] counts from zero. *)
Definition generateSessionId (hostname : string)
    (fullYear month date hours minutes seconds : Z) : string :=
  let year := pretty fullYear in
  let month := padStart2 (pretty (month + 1)) in
  let day := padStart2 (pretty date) in
  let hours := padStart2 (pretty hours) in
  let minutes := padStart2 (pretty minutes) in
  let seconds := padStart2 (pretty seconds) in
  let hostname := replaceDots hostname in
  hostname ++ "_" ++ year ++ month ++ day ++ "-" ++ hours ++ minutes ++ seconds.

End V3.

End Client.

(** The request of the server that a request of the script arrives as. *)
Definition toPost (r : Client.Request) : Event :=
  PostLog (Some (Client.requestSession r)) (JArr (Client.requestLogs r)).

(** * Properties *)

Local Ltac fin := unfold finalizations; cbn; lia.

(** ** The ingestion loop *)

Lemma grows_refl s : grows s s.
Proof. split; auto. exists []. by rewrite app_nil_r. Qed.

Lemma grows_trans s1 s2 s3 : grows s1 s2 -> grows s2 s3 -> grows s1 s3.
Proof.
  intros [[l1 H1] C1 T1 A1 E1] [[l2 H2] C2 T2 A2 E2]. split; auto.
  - exists (l1 ++ l2)%list. by rewrite H2, H1, app_assoc.
  - intros H. rewrite E2; [auto | rewrite E1; auto].
Qed.

Lemma scanStat_same o s : sameButEarliest s (stateOf (scanStat o s)).
Proof.
  unfold scanStat.
  destruct o; simpl; try (split; reflexivity);
    destruct (assoc _ _); simpl; try (split; reflexivity);
    destruct (truthy j && _); split; reflexivity.
Qed.

Lemma stateOf_andThen o k :
  stateOf (andThen o k) = if threw o then stateOf o else stateOf (k (stateOf o)).
Proof. by destruct o. Qed.

Lemma threw_andThen o k :
  threw (andThen o k) = threw o || threw (k (stateOf o)).
Proof. by destruct o. Qed.

Lemma scanStats_same objs : forall s, sameButEarliest s (stateOf (scanStats objs s)).
Proof.
  induction objs as [|o objs IH]; intros s; simpl; [by split|].
  rewrite stateOf_andThen. pose proof (scanStat_same o s) as H1.
  destruct (threw _); [done|].
  pose proof (IH (stateOf (scanStat o s))) as H2.
  destruct H1, H2. split; congruence.
Qed.

(** Whether the inner loop throws depends on the stat objects only. *)
Lemma scanStat_threw o s s' : threw (scanStat o s) = threw (scanStat o s').
Proof.
  unfold scanStat. destruct o; simpl; try reflexivity;
    destruct (assoc _ _); simpl; try reflexivity;
    do 2 destruct (truthy j && _); reflexivity.
Qed.

Lemma scanStats_threw objs : forall s s',
  threw (scanStats objs s) = threw (scanStats objs s').
Proof.
  induction objs as [|o objs IH]; intros s s'; simpl; [done|].
  rewrite !threw_andThen. rewrite (scanStat_threw o s s').
  f_equal. apply IH.
Qed.

Lemma ingestEntry_threw e s : threw (ingestEntry e s) = entryThrows e.
Proof.
  unfold entryThrows, ingestEntry.
  destruct e; try reflexivity;
    rewrite !threw_andThen;
    (destruct (isStr "stats" _ && _);
     [ match goal with
       | |- context [scanStats ?o (pushLog ?e s)] =>
           rewrite (scanStats_threw o (pushLog e s) (pushLog e (newSession 0)))
       end;
       destruct (threw (scanStats _ _)); [reflexivity|]
     | ]);
    cbn [threw orb stateOf];
    by destruct (isStr "state_change" _ && _).
Qed.

Lemma ingest_threw es : forall s, threw (ingest es s) = existsb entryThrows es.
Proof.
  induction es as [|e es IH]; intros s; simpl; [done|].
  by rewrite threw_andThen, ingestEntry_threw, IH.
Qed.

Lemma pick_assoc a b c : pick (pick a b) c = pick a (pick b c).
Proof. unfold pick. destruct (truthy a) eqn:Ha; [by rewrite Ha | done]. Qed.

Lemma firstTruthy_app l1 l2 :
  firstTruthy (l1 ++ l2) = pick (firstTruthy l1) (firstTruthy l2).
Proof.
  induction l1 as [|v l1 IH]; simpl; [done|].
  unfold pick in *. destruct (truthy v) eqn:Hv; [by rewrite Hv | done].
Qed.

Lemma firstTruthy_valid l : unsetOrTruthy (firstTruthy l).
Proof.
  induction l as [|v l IH]; simpl; [by left|].
  destruct (truthy v) eqn:Hv; [by right | done].
Qed.

Lemma pick_null_r a : unsetOrTruthy a -> pick a JNull = a.
Proof. intros [->|H]; unfold pick; [done | by rewrite H]. Qed.

Lemma pick_valid a b : unsetOrTruthy b -> unsetOrTruthy (pick a b).
Proof. unfold pick. destruct (truthy a) eqn:Ha; [by right | done]. Qed.

Lemma scanStat_earliest o s :
  unsetOrTruthy (earliestStatsStartTime s) ->
  earliestStatsStartTime (stateOf (scanStat o s))
  = pick (earliestStatsStartTime s)
      (firstTruthy (omap (get "startTime") (if threw (scanStat o s) then [] else [o]))).
Proof.
  intros Hv. unfold scanStat.
  destruct o; cbn; try (by rewrite pick_null_r).
  destruct (assoc "startTime" props) as [t|] eqn:Ht; cbn;
    [|by rewrite Ht; cbn; rewrite pick_null_r].
  unfold pick. destruct (truthy (earliestStatsStartTime s)) eqn:He.
  - by rewrite andb_false_r.
  - rewrite andb_true_r.
    destruct (truthy t) eqn:Htt; cbn; rewrite Ht; cbn; rewrite Htt; [done|].
    destruct Hv as [->|Hv]; [done | congruence].
Qed.

Lemma scanStat_valid o s :
  unsetOrTruthy (earliestStatsStartTime s) ->
  unsetOrTruthy (earliestStatsStartTime (stateOf (scanStat o s))).
Proof.
  intros Hv. rewrite scanStat_earliest by done.
  apply pick_valid, firstTruthy_valid.
Qed.

Lemma scanStat_threw_null o s :
  threw (scanStat o s) = match o with JNull => true | _ => false end.
Proof.
  unfold scanStat. destruct o; try reflexivity.
  cbn [get]. destruct (assoc "startTime" props); [|reflexivity].
  by destruct (truthy j && _).
Qed.

Lemma omap_startTime_cons o l :
  omap (get "startTime") (o :: l)
  = (omap (get "startTime") [o] ++ omap (get "startTime") l)%list.
Proof. cbn. by destruct (get "startTime" o). Qed.

Lemma scanStats_earliest objs : forall s,
  unsetOrTruthy (earliestStatsStartTime s) ->
  earliestStatsStartTime (stateOf (scanStats objs s))
  = pick (earliestStatsStartTime s)
      (firstTruthy (omap (get "startTime") (scanned objs))).
Proof.
  induction objs as [|o objs IH]; intros s Hv; cbn [scanStats scanned].
  - cbn. by rewrite pick_null_r.
  - rewrite stateOf_andThen.
    pose proof (scanStat_earliest o s Hv) as H1.
    pose proof (scanStat_valid o s Hv) as H2.
    rewrite scanStat_threw_null in *.
    destruct o; try (by rewrite H1);
      rewrite (IH _ H2), H1, pick_assoc; f_equal;
      by rewrite (omap_startTime_cons _ (scanned objs)), firstTruthy_app.
Qed.

Lemma scanStats_threw_scanned objs s :
  threw (scanStats objs s) = false -> scanned objs = objs.
Proof.
  revert s. induction objs as [|o objs IH]; intros s; cbn [scanStats scanned]; [done|].
  rewrite threw_andThen, scanStat_threw_null.
  destruct o; cbn [orb]; try discriminate; intros H; f_equal; eauto.
Qed.

(** One entry: what the loop body does to each field. *)
Lemma ingestEntry_fields e s :
  let s' := stateOf (ingestEntry e s) in
  logs s' = (logs s ++ [e])%list
  /\ timedOut s' = timedOut s
  /\ analyzed s' = analyzed s
  /\ lastActivityTime s' = lastActivityTime s
  /\ (isClosed s = true -> isClosed s' = true).
Proof.
  unfold ingestEntry.
  destruct e; try (cbn; tauto);
    rewrite stateOf_andThen;
    (destruct (isStr "stats" _ && _);
     [ match goal with
       | |- context [scanStats ?o ?x] =>
           destruct (scanStats_same o x) as [? ? ? ? ?];
           destruct (threw (scanStats o x))
       end
     | cbn [threw stateOf] ]);
    try destruct (isStr "state_change" _ && _);
    cbn [stateOf setClosed pushLog logs timedOut analyzed lastActivityTime
         isClosed] in *;
    repeat split; intros; congruence.
Qed.

Lemma ingest_fields es : forall s,
  let s' := stateOf (ingest es s) in
  logs s' = (logs s ++ pushed es)%list
  /\ timedOut s' = timedOut s
  /\ analyzed s' = analyzed s
  /\ lastActivityTime s' = lastActivityTime s
  /\ (isClosed s = true -> isClosed s' = true).
Proof.
  induction es as [|e es IH]; intros s; cbn [ingest pushed stateOf].
  - rewrite app_nil_r. tauto.
  - rewrite stateOf_andThen, ingestEntry_threw.
    destruct (ingestEntry_fields e s) as (L & T & A & Act & C).
    destruct (entryThrows e); [tauto|].
    destruct (IH (stateOf (ingestEntry e s))) as (L' & T' & A' & Act' & C').
    rewrite L', L, T', T, A', A, Act', Act, <- app_assoc. auto 10.
Qed.

Lemma existsb_throws_pushed es :
  existsb entryThrows es = false -> pushed es = es.
Proof.
  induction es as [|e es IH]; cbn [existsb pushed]; [done|].
  destruct (entryThrows e); cbn [orb]; [discriminate|].
  intros H. f_equal. auto.
Qed.

Lemma ingestEntry_earliest e s :
  unsetOrTruthy (earliestStatsStartTime s) ->
  earliestStatsStartTime (stateOf (ingestEntry e s))
  = pick (earliestStatsStartTime s) (firstTruthy (startTimesRead e)).
Proof.
  intros Hv. unfold ingestEntry, startTimesRead.
  destruct e; try (cbn; by rewrite pick_null_r);
    rewrite stateOf_andThen;
    (destruct (isStr "stats" _ && _);
     [ match goal with
       | |- context [scanStats ?o ?x] =>
           pose proof (scanStats_earliest o x Hv) as HE;
           destruct (threw (scanStats o x))
       end
     | cbn [threw stateOf firstTruthy]; rewrite (pick_null_r _ Hv) ]);
    try destruct (isStr "state_change" _ && _);
    cbn [stateOf setClosed pushLog earliestStatsStartTime] in *;
    congruence.
Qed.

Lemma ingestEntry_not_thrown_read e :
  entryThrows e = false -> startTimesRead e = startTimesOfEntry e.
Proof.
  unfold entryThrows, ingestEntry, startTimesRead, startTimesOfEntry.
  destruct e; try reflexivity;
    rewrite threw_andThen;
    (destruct (isStr "stats" _ && _); [|reflexivity]);
    intros H; apply orb_false_elim in H as [H _];
    by rewrite (scanStats_threw_scanned _ _ H).
Qed.

Lemma ingest_earliest es : forall s,
  unsetOrTruthy (earliestStatsStartTime s) ->
  existsb entryThrows es = false ->
  earliestStatsStartTime (stateOf (ingest es s))
  = pick (earliestStatsStartTime s) (firstTruthy (startTimes es)).
Proof.
  induction es as [|e es IH]; intros s Hv; cbn [ingest existsb stateOf].
  - intros _. cbn. by rewrite pick_null_r.
  - intros H. apply orb_false_elim in H as [He Hes].
    rewrite stateOf_andThen, ingestEntry_threw, He.
    assert (Hv' : unsetOrTruthy (earliestStatsStartTime (stateOf (ingestEntry e s)))).
    { rewrite ingestEntry_earliest by done. apply pick_valid, firstTruthy_valid. }
    rewrite (IH _ Hv' Hes), ingestEntry_earliest, pick_assoc by done.
    rewrite (ingestEntry_not_thrown_read _ He).
    unfold startTimes. cbn [map concat]. by rewrite firstTruthy_app.
Qed.

Lemma ingest_valid es : forall s,
  unsetOrTruthy (earliestStatsStartTime s) ->
  unsetOrTruthy (earliestStatsStartTime (stateOf (ingest es s))).
Proof.
  induction es as [|e es IH]; intros s Hv; cbn [ingest stateOf]; [done|].
  assert (Hv' : unsetOrTruthy (earliestStatsStartTime (stateOf (ingestEntry e s)))).
  { rewrite ingestEntry_earliest by done. apply pick_valid, firstTruthy_valid. }
  rewrite stateOf_andThen. destruct (threw _); auto.
Qed.

(** First write wins: a set [earliestStatsStartTime] survives the loop,
    whatever the batch holds and even when the loop throws. *)
Lemma ingest_keeps_earliest es : forall s,
  truthy (earliestStatsStartTime s) = true ->
  earliestStatsStartTime (stateOf (ingest es s)) = earliestStatsStartTime s.
Proof.
  induction es as [|e es IH]; intros s Ht; cbn [ingest stateOf]; [done|].
  assert (He : earliestStatsStartTime (stateOf (ingestEntry e s))
               = earliestStatsStartTime s).
  { rewrite ingestEntry_earliest by (by right). unfold pick. by rewrite Ht. }
  rewrite stateOf_andThen. destruct (threw _); [done|].
  rewrite IH; [done | by rewrite He].
Qed.

Lemma ingest_grows es s : grows s (stateOf (ingest es s)).
Proof.
  destruct (ingest_fields es s) as (L & T & A & _ & C).
  split; try congruence; eauto using ingest_keeps_earliest.
Qed.

(** Stat objects whose [startTime]s are all falsy leave the session as
    it is. *)
Lemma scanStats_falsy objs : forall s,
  Forall (fun v => truthy v = false) (omap (get "startTime") (scanned objs)) ->
  stateOf (scanStats objs s) = s.
Proof.
  induction objs as [|o objs IH]; intros s Hall; cbn [scanStats]; [done|].
  rewrite stateOf_andThen, scanStat_threw_null.
  destruct o; try (cbn [scanned] in Hall; rewrite omap_startTime_cons in Hall;
                   cbn in Hall; by apply IH).
  - done.
  - cbn [scanned] in Hall. rewrite omap_startTime_cons in Hall.
    apply Forall_app in Hall as [Hhere Hall].
    unfold scanStat. cbn in Hhere. cbn [get].
    destruct (assoc "startTime" props) as [t|] eqn:Ht.
    + apply Forall_cons in Hhere as [Hf _]. rewrite Hf. cbn. by apply IH.
    + cbn. by apply IH.
Qed.

Lemma ingestEntry_falsy e s :
  Forall (fun v => truthy v = false) (startTimesRead e) ->
  earliestStatsStartTime (stateOf (ingestEntry e s)) = earliestStatsStartTime s.
Proof.
  unfold ingestEntry, startTimesRead.
  destruct e; try reflexivity;
    rewrite stateOf_andThen;
    (destruct (isStr "stats" _ && _);
     [ intros Hall;
       match goal with
       | |- context [scanStats ?o ?x] =>
           rewrite (scanStats_falsy o x Hall);
           destruct (threw (scanStats o x))
       end
     | intros _; cbn [threw stateOf] ]);
    try destruct (isStr "state_change" _ && _); reflexivity.
Qed.

(** ** What a request does to its session *)

Lemma sessionAfterPost_grows now es s :
  grows s (sessionAfterPost now (ingest es s)).
Proof.
  pose proof (ingest_grows es s) as G.
  destruct (ingest es s) as [s1|s1]; cbn [stateOf sessionAfterPost] in *; [|done].
  eapply grows_trans; [exact G|].
  destruct (isClosed s1 && negb (analyzed s1)); split; cbn; auto;
    exists []; by rewrite app_nil_r.
Qed.

Lemma sessionAfterPost_activity now es s :
  lastActivityTime (sessionAfterPost now (ingest es s))
  = if threw (ingest es s) then lastActivityTime s else now.
Proof.
  destruct (ingest_fields es s) as (_ & _ & _ & A & _).
  destruct (ingest es s) as [s1|s1]; cbn [stateOf sessionAfterPost threw] in *;
    [|done].
  by destruct (isClosed s1 && negb (analyzed s1)).
Qed.

Lemma sessionAfterPost_logs now o : logs (sessionAfterPost now o) = logs (stateOf o).
Proof.
  destruct o as [s1|s1]; cbn; [|done].
  by destruct (isClosed s1 && negb (analyzed s1)).
Qed.


Lemma startTimes_app l1 l2 :
  startTimes (l1 ++ l2) = (startTimes l1 ++ startTimes l2)%list.
Proof. unfold startTimes. by rewrite map_app, concat_app. Qed.

Lemma ingest_matches es s :
  existsb entryThrows es = false ->
  earliestMatchesLogs s -> earliestMatchesLogs (stateOf (ingest es s)).
Proof.
  unfold earliestMatchesLogs. intros Hok Hm.
  assert (Hv : unsetOrTruthy (earliestStatsStartTime s)).
  { rewrite Hm. apply firstTruthy_valid. }
  rewrite ingest_earliest by done.
  destruct (ingest_fields es s) as (-> & _).
  rewrite (existsb_throws_pushed _ Hok), startTimes_app, firstTruthy_app.
  by rewrite Hm.
Qed.

Lemma allAccepted_cons sid ev evs :
  allAccepted sid (ev :: evs) -> allAccepted sid evs.
Proof. intros H header body Hin. apply H. by right. Qed.

Lemma allAccepted_pushed sid evs :
  allAccepted sid evs ->
  map (pushedUnder sid) evs = map (batchUnder sid) evs.
Proof.
  induction evs as [|ev evs IH]; intros H; [done|].
  cbn [map]. rewrite IH by (by eapply allAccepted_cons). f_equal.
  destruct ev as [header body| | |]; try done.
  cbn [pushedUnder batchUnder]. case_decide as Hk; [|done].
  pose proof (H header body (or_introl eq_refl) Hk) as Ha.
  unfold accepted in Ha. rewrite Hk in Ha.
  apply negb_true_iff in Ha. by apply existsb_throws_pushed.
Qed.

(** ** Console, timers and children *)

Lemma filter_snoc {A} (f : A -> bool) l x :
  List.filter f (l ++ [x]) = (List.filter f l ++ if f x then [x] else [])%list.
Proof. rewrite List.filter_app. reflexivity. Qed.

Lemma say_finalizations sid m w :
  finalizations sid (say m w)
  = (finalizations sid w + if isFinalizing sid m then 1 else 0)%nat.
Proof.
  unfold finalizations. cbn. rewrite filter_snoc, length_app.
  by destruct (isFinalizing sid m).
Qed.

Lemma eqb_refl_string (a : string) : String.eqb a a = true.
Proof. apply String.eqb_refl. Qed.

Lemma setup_frame sid w :
  sessions (setupSessionTimeout sid w) = sessions w
  /\ children (setupSessionTimeout sid w) = children w
  /\ nextChild (setupSessionTimeout sid w) = nextChild w
  /\ disk (setupSessionTimeout sid w) = disk w
  /\ console (setupSessionTimeout sid w) = console w
  /\ clock (setupSessionTimeout sid w) = clock w
  /\ pyScriptExists (setupSessionTimeout sid w) = pyScriptExists w.
Proof.
  unfold setupSessionTimeout. destruct (sessionTimeouts w !! sid); done.
Qed.

(** Arming: the handle stored for the session is cancelled, a fresh one
    is scheduled and stored in its place. *)
Lemma setup_timers sid w :
  timers (setupSessionTimeout sid w)
  = <[nextTimer w := mkTimer sid (clock w + SESSION_TIMEOUT)]>
      (match sessionTimeouts w !! sid with
       | Some h => delete h (timers w)
       | None => timers w
       end)
  /\ sessionTimeouts (setupSessionTimeout sid w)
     = <[sid := nextTimer w]> (sessionTimeouts w)
  /\ nextTimer (setupSessionTimeout sid w) = S (nextTimer w).
Proof.
  unfold setupSessionTimeout. destruct (sessionTimeouts w !! sid); done.
Qed.

Lemma setup_finalizations sid' sid w :
  finalizations sid' (setupSessionTimeout sid w) = finalizations sid' w.
Proof.
  unfold finalizations.
  by destruct (setup_frame sid w) as (_ & _ & _ & _ & -> & _).
Qed.

Lemma inFlight_spawn sid c w :
  childrenFresh w ->
  inFlight sid (spawn c w)
  = if decide (childSession c = sid) then S (inFlight sid w) else inFlight sid w.
Proof.
  intros Hf. unfold inFlight. cbn [children spawn].
  assert (Hnone : children w !! nextChild w = None).
  { destruct (children w !! nextChild w) as [c0|] eqn:E; [|done].
    apply Hf in E. lia. }
  case_decide as Hd.
  - rewrite map_filter_insert_True by done.
    rewrite map_size_insert_None; [done|].
    apply map_lookup_filter_None. by left.
  - rewrite map_filter_insert_False by done. by rewrite delete_id.
Qed.

(** ** The region handed to JSON.parse *)


Lemma lastIndexOf_range c s : -1 <= lastIndexOf c s.
Proof.
  induction s as [|a s IH]; cbn [lastIndexOf]; [lia|].
  destruct (0 <=? lastIndexOf c s) eqn:E; [lia|].
  destruct (Ascii.eqb a c); lia.
Qed.


Lemma lastIndexOf_absent c s : lastIndexOf c s = -1 <-> ~ occursIn c s.
Proof.
  unfold occursIn.
  induction s as [|a s IH]; cbn [lastIndexOf list_ascii_of_string].
  - split; [intros _ [] | done].
  - pose proof (lastIndexOf_range c s).
    destruct (0 <=? lastIndexOf c s) eqn:E.
    + split; [lia|]. intros Hn. exfalso.
      assert (lastIndexOf c s = -1); [|lia].
      apply IH. intros Hin. apply Hn. by right.
    + assert (lastIndexOf c s = -1) as Hi by lia. apply IH in Hi.
      destruct (Ascii.eqb a c) eqn:E2.
      * apply Ascii.eqb_eq in E2 as ->. split; [lia|]. intros Hn. exfalso.
        apply Hn. by left.
      * apply Ascii.eqb_neq in E2. split; [|done].
        intros _ [?|?]; [done | by apply Hi].
Qed.

(** The first occurrence splits the string. *)
Lemma indexOf_split c s :
  0 <= indexOf c s ->
  exists before rest,
    s = (before ++ String c rest)%string
    /\ ~ occursIn c before
    /\ strlen before = indexOf c s.
Proof.
  unfold strlen. induction s as [|a s IH]; cbn [indexOf]; [lia|].
  destruct (Ascii.eqb a c) eqn:E.
  - apply Ascii.eqb_eq in E as ->. intros _.
    exists EmptyString, s. split; [done|]. split; [intros []|done].
  - apply Ascii.eqb_neq in E.
    destruct (indexOf c s <? 0) eqn:E2; [lia|]. intros _.
    destruct IH as (before & rest & -> & Hn & Hl); [lia|].
    exists (String a before), rest. split; [done|]. split.
    + intros [?|?]; [done | by apply Hn].
    + cbn [String.length]. lia.
Qed.

(** The last occurrence splits the string. *)
Lemma lastIndexOf_split c s :
  0 <= lastIndexOf c s ->
  exists before rest,
    s = (before ++ String c rest)%string
    /\ ~ occursIn c rest
    /\ strlen before = lastIndexOf c s.
Proof.
  unfold strlen. induction s as [|a s IH]; cbn [lastIndexOf]; [lia|].
  destruct (0 <=? lastIndexOf c s) eqn:E.
  - intros _. destruct IH as (before & rest & -> & Hn & Hl); [lia|].
    exists (String a before), rest. split; [done|]. split; [done|].
    cbn [String.length]. lia.
  - assert (lastIndexOf c s = -1) as Hi.
    { pose proof (lastIndexOf_range c s). lia. }
    apply lastIndexOf_absent in Hi.
    destruct (Ascii.eqb a c) eqn:E2; [|lia].
    apply Ascii.eqb_eq in E2 as ->. intros _.
    exists EmptyString, s. done.
Qed.

Lemma sapp_nil b : (EmptyString ++ b)%string = b.
Proof. reflexivity. Qed.

Lemma sapp_cons x a b : (String x a ++ b)%string = String x (a ++ b).
Proof. reflexivity. Qed.

Lemma sapp_assoc a b c : ((a ++ b) ++ c)%string = (a ++ b ++ c)%string.
Proof.
  induction a as [|x a IH]; rewrite ?sapp_nil, ?sapp_cons; [done | by rewrite IH].
Qed.

Lemma strlen_cons x a : strlen (String x a) = 1 + strlen a.
Proof. unfold strlen. cbn [String.length]. lia. Qed.

Lemma strlen_app a b : strlen (a ++ b) = strlen a + strlen b.
Proof.
  induction a as [|x a IH]; rewrite ?sapp_nil, ?sapp_cons, ?strlen_cons;
    [done | lia].
Qed.

Lemma strlen_nonneg a : 0 <= strlen a.
Proof. unfold strlen. lia. Qed.

Lemma substring_skip before n rest :
  String.substring (String.length before) n (before ++ rest)
  = String.substring 0 n rest.
Proof.
  induction before as [|x before IH]; rewrite ?sapp_nil, ?sapp_cons;
    [done | exact IH].
Qed.

Lemma substring_take a b :
  String.substring 0 (String.length a) (a ++ b) = a.
Proof.
  induction a as [|x a IH]; rewrite ?sapp_nil, ?sapp_cons; cbn;
    [by destruct b | by rewrite IH].
Qed.

(** When the three index tests pass, the region starts at the first
    opening brace and ends at the last closing brace. *)
Lemma jsonRegion_some pyOutput region :
  jsonRegion pyOutput = Some region ->
  exists before middle after,
    pyOutput = (before ++ region ++ after)%string
    /\ region = ("{" ++ middle ++ "}")%string
    /\ ~ occursIn "{" before
    /\ ~ occursIn "}" after.
Proof.
  unfold jsonRegion.
  destruct (_ && _) eqn:E; [|discriminate]. intros [= <-].
  apply andb_true_iff in E as [E E3]. apply andb_true_iff in E as [E1 E2].
  apply Z.leb_le in E1, E2. apply Z.ltb_lt in E3.
  destruct (indexOf_split "{" pyOutput E1) as (before & rest & Hs & Hnb & Hlb).
  destruct (lastIndexOf_split "}" pyOutput E2) as (pre & after & Hs' & Hna & Hlp).
  (* the last closing brace lies after the first opening brace *)
  assert (Hrest : exists middle, rest = (middle ++ String "}" after)%string).
  { rewrite <- Hlb, <- Hlp in E3. rewrite Hs in Hs'.
    clear - Hs' E3. revert pre Hs' E3.
    induction before as [|x before IH]; intros pre Hs' E3.
    - destruct pre as [|y pre]; [unfold strlen in E3; cbn in E3; lia|].
      rewrite sapp_nil, sapp_cons in Hs'. injection Hs' as _ ->. eauto.
    - destruct pre as [|y pre];
        [pose proof (strlen_nonneg (String x before)); unfold strlen in *;
         cbn in E3; lia|].
      rewrite !sapp_cons in Hs'. injection Hs' as _ Hs'.
      apply (IH pre Hs'). rewrite !strlen_cons in E3. lia. }
  destruct Hrest as (middle & ->).
  exists before, middle, after.
  assert (Hj : lastIndexOf "}" pyOutput = strlen before + 1 + strlen middle).
  { rewrite <- Hlp.
    assert (Hl : strlen pyOutput = strlen pyOutput) by done.
    rewrite Hs in Hl at 1. rewrite Hs' in Hl.
    rewrite !strlen_app, !strlen_cons, strlen_app, strlen_cons in Hl. lia. }
  assert (Hlen : strlen pyOutput
                 = strlen before + 1 + strlen middle + 1 + strlen after).
  { rewrite Hs, strlen_app, strlen_cons, strlen_app, strlen_cons. lia. }
  assert (Hreg : jsSubstring (indexOf "{" pyOutput)
                   (lastIndexOf "}" pyOutput + 1) pyOutput
                 = ("{" ++ middle ++ "}")%string).
  { pose proof (strlen_nonneg before). pose proof (strlen_nonneg middle).
    pose proof (strlen_nonneg after).
    unfold jsSubstring, clampIndex. rewrite Hj, <- Hlb, Hlen.
    rewrite !Z.max_l, !Z.min_l, Z.max_r by lia.
    replace (Z.to_nat (strlen before)) with (String.length before)
      by (unfold strlen; lia).
    replace (Z.to_nat (strlen before + 1 + strlen middle + 1 - strlen before))
      with (String.length ("{" ++ middle ++ "}")%string).
    2:{ assert (H2 : strlen ("{" ++ middle ++ "}") = strlen middle + 2).
        { rewrite sapp_cons, sapp_nil, strlen_cons, strlen_app.
          unfold strlen. cbn [String.length]. lia. }
        unfold strlen in *. lia. }
    rewrite Hs, substring_skip.
    replace (String "{" (middle ++ String "}" after))
      with (("{" ++ middle ++ "}") ++ after)%string.
    - apply substring_take.
    - rewrite !sapp_assoc. reflexivity. }
  rewrite Hreg. split; [|done].
  rewrite Hs, !sapp_assoc. reflexivity.
Qed.


(** ** The callbacks, field by field *)

Section Properties.

Context {env : Env}.

Set Default Proof Using "Type".

Lemma process_frame sid b w :
  sessions (processLogsAndAnalyze sid b w) = sessions w
  /\ sessionTimeouts (processLogsAndAnalyze sid b w) = sessionTimeouts w
  /\ timers (processLogsAndAnalyze sid b w) = timers w
  /\ nextTimer (processLogsAndAnalyze sid b w) = nextTimer w
  /\ clock (processLogsAndAnalyze sid b w) = clock w
  /\ pyScriptExists (processLogsAndAnalyze sid b w) = pyScriptExists w.
Proof.
  unfold processLogsAndAnalyze.
  destruct (sessions w !! sid); [|done].
  cbn. destruct (pyScriptExists w) eqn:E; cbn; done.
Qed.

Lemma process_sessions sid b w :
  sessions (processLogsAndAnalyze sid b w) = sessions w.
Proof. apply process_frame. Qed.

(** A request for analysis launches a child at once when the script is
    there; it never looks at the children already running. *)
Lemma process_children sid b w :
  children (processLogsAndAnalyze sid b w)
  = match sessions w !! sid with
    | Some _ =>
        if pyScriptExists w
        then <[nextChild w := mkChild sid b]> (children w)
        else children w
    | None => children w
    end
  /\ nextChild (processLogsAndAnalyze sid b w)
     = match sessions w !! sid with
       | Some _ => if pyScriptExists w then S (nextChild w) else nextChild w
       | None => nextChild w
       end.
Proof.
  unfold processLogsAndAnalyze.
  destruct (sessions w !! sid); [|done].
  cbn. destruct (pyScriptExists w) eqn:E; cbn; done.
Qed.

Lemma process_finalizations sid' sid b w :
  finalizations sid' (processLogsAndAnalyze sid b w) = finalizations sid' w.
Proof.
  unfold finalizations, processLogsAndAnalyze.
  destruct (sessions w !! sid); [|done].
  cbn. destruct (pyScriptExists w); cbn;
    rewrite !filter_snoc; cbn; by rewrite !app_nil_r.
Qed.

Lemma process_disk sid b w :
  disk (processLogsAndAnalyze sid b w)
  = match sessions w !! sid with
    | Some s =>
        (disk w ++
         [WriteAllLogs sid
            (if truthy (earliestStatsStartTime s)
             then extractTimeFromISO (earliestStatsStartTime s) (clock w)
             else isoStamp (clock w))
            (logs s)])%list
    | None => disk w
    end.
Proof.
  unfold processLogsAndAnalyze.
  destruct (sessions w !! sid); [|done].
  cbn. destruct (pyScriptExists w) eqn:E; cbn; done.
Qed.

Lemma finalize_frame sid w :
  sessionTimeouts (finalizeSession sid w) = sessionTimeouts w
  /\ timers (finalizeSession sid w) = timers w
  /\ nextTimer (finalizeSession sid w) = nextTimer w
  /\ clock (finalizeSession sid w) = clock w
  /\ pyScriptExists (finalizeSession sid w) = pyScriptExists w.
Proof.
  unfold finalizeSession.
  destruct (sessions w !! sid) as [s|]; [|done].
  destruct (analyzed s); [done|].
  match goal with |- context [processLogsAndAnalyze ?a ?b ?x] =>
    destruct (process_frame a b x) as (_ & -> & -> & -> & -> & ->) end.
  done.
Qed.

Lemma finalize_sessions sid w :
  sessions (finalizeSession sid w)
  = match sessions w !! sid with
    | Some s => if analyzed s then sessions w
                else <[sid := setAnalyzed s]> (sessions w)
    | None => sessions w
    end.
Proof.
  unfold finalizeSession.
  destruct (sessions w !! sid) as [s|]; [|done].
  destruct (analyzed s); [done|].
  by rewrite process_sessions.
Qed.

Lemma finalize_finalizations sid' sid w :
  finalizations sid' (finalizeSession sid w)
  = match sessions w !! sid with
    | Some s =>
        if analyzed s then finalizations sid' w
        else (finalizations sid' w + if String.eqb sid sid' then 1 else 0)%nat
    | None => finalizations sid' w
    end.
Proof.
  unfold finalizeSession.
  destruct (sessions w !! sid) as [s|]; [|done].
  destruct (analyzed s); [done|].
  rewrite process_finalizations. unfold finalizations. cbn.
  rewrite filter_snoc, length_app. cbn.
  by destruct (String.eqb sid sid').
Qed.

(** ** POST /log *)

Lemma postLog_no_key header body w :
  sessionKey header body = None -> snd (postLog header body w) = w.
Proof.
  unfold sessionKey, postLog.
  destruct body as [| | | |[|first rest]|]; try done.
  destruct (toString _) as [k|]; [|done].
  destruct (inherited k); [done | discriminate].
Qed.

Lemma postLog_key header body w sid :
  sessionKey header body = Some sid ->
  postLog header body w
  = match ingest (entriesOf body) (sessionBeforePost sid w) with
    | Threw s1 => (Uncaught, putSession sid s1 w)
    | Done s1 =>
        let w3 := setupSessionTimeout sid
                    (processLogsAndAnalyze sid true
                       (putSession sid (setLastActivity (clock w) s1) w)) in
        (Status 200 "Logs received",
         if isClosed s1 then finalizeSession sid w3 else w3)
    end.
Proof.
  unfold sessionKey, postLog, sessionBeforePost.
  destruct body as [| | | |[|first rest]|]; try done.
  destruct (toString _) as [k|]; [|done].
  destruct (inherited k); [done|]. intros [= ->].
  cbn [entriesOf].
  destruct (ingest _ _) as [s1|s1]; [|done].
  cbv zeta.
  destruct (setup_frame sid (processLogsAndAnalyze sid true
              (putSession sid (setLastActivity (clock w) s1) w))) as (-> & _).
  rewrite process_sessions. cbn. by rewrite lookup_insert_eq.
Qed.


Lemma postLog_sessions header body w sid :
  sessionKey header body = Some sid ->
  sessions (snd (postLog header body w))
  = <[sid := sessionAfterPost (clock w)
               (ingest (entriesOf body) (sessionBeforePost sid w))]>
      (sessions w).
Proof.
  intros Hk. rewrite (postLog_key _ _ _ _ Hk).
  destruct (ingest _ _) as [s1|s1]; [|done].
  cbv zeta. cbn [snd sessionAfterPost].
  set (w3 := setupSessionTimeout _ _).
  assert (H3 : sessions w3 = <[sid := setLastActivity (clock w) s1]> (sessions w)).
  { unfold w3. destruct (setup_frame sid (processLogsAndAnalyze sid true
      (putSession sid (setLastActivity (clock w) s1) w))) as (-> & _).
    by rewrite process_sessions. }
  destruct (isClosed s1); cbn [andb]; [|done].
  rewrite finalize_sessions, H3, lookup_insert_eq.
  cbn [analyzed setLastActivity].
  destruct (analyzed s1); cbn [negb]; [done|].
  by rewrite insert_insert_eq.
Qed.

(** ** One turn of the loop, seen from a session *)

Lemma onTimeout_sessions sid w :
  sessions (onTimeout sid w)
  = match sessions w !! sid with
    | Some s => <[sid := setAnalyzed (setClosed (setTimedOut s))]> (sessions w)
    | None => sessions w
    end.
Proof.
  unfold onTimeout. cbn.
  destruct (sessions w !! sid) as [s|] eqn:Hs; [|done].
  rewrite finalize_sessions. cbn. rewrite lookup_insert_eq. cbn.
  destruct (analyzed s) eqn:Ha.
  - f_equal. destruct s; cbn in *. by subst.
  - by rewrite insert_insert_eq.
Qed.

Lemma onClose_frame c out code w :
  sessions (onClose c out code w) = sessions w
  /\ sessionTimeouts (onClose c out code w) = sessionTimeouts w
  /\ timers (onClose c out code w) = timers w
  /\ nextTimer (onClose c out code w) = nextTimer w
  /\ children (onClose c out code w) = children w
  /\ nextChild (onClose c out code w) = nextChild w
  /\ clock (onClose c out code w) = clock w
  /\ pyScriptExists (onClose c out code w) = pyScriptExists w.
Proof.
  unfold onClose.
  destruct (jsonRegion out) as [region|]; [|done].
  destruct (JSON_parse region) as [v|]; [|done]. cbn.
  destruct (sessions w !! childSession c) as [si|]; [|done].
  by destruct (isClosed si || timedOut si).
Qed.

Lemma step_session sid w ev :
  sessions (step w ev) !! sid = sessionAfter sid w ev.
Proof.
  destruct ev as [header body|h|pid out code|ms]; cbn [step sessionAfter].
  - destruct (sessionKey header body) as [k|] eqn:Hk.
    + rewrite (postLog_sessions _ _ _ _ Hk).
      case_decide as Hd.
      * injection Hd as ->. by rewrite lookup_insert_eq.
      * rewrite lookup_insert_ne; [done | congruence].
    + rewrite postLog_no_key by done. by case_decide.
  - destruct (timers w !! h) as [t|]; [|done].
    destruct (timerDue t <=? clock w); [|done].
    rewrite onTimeout_sessions. cbn.
    case_bool_decide as Hd.
    + subst sid. destruct (sessions w !! timerSession t) eqn:E; cbn; [|done].
      by rewrite lookup_insert_eq.
    + destruct (sessions w !! timerSession t) eqn:E; cbn; [|done].
      by rewrite lookup_insert_ne.
  - destruct (children w !! pid) as [c|]; [|done].
    by destruct (onClose_frame c out code (withChildren (delete pid) w)) as (-> & _).
  - done.
Qed.

(** No turn of the loop deletes or replaces a session, and whatever it
    writes to one only [grows] it. *)
Lemma step_grows sid w ev s :
  sessions w !! sid = Some s ->
  exists s', sessions (step w ev) !! sid = Some s' /\ grows s s'.
Proof.
  intros Hs. rewrite step_session.
  destruct ev as [header body|h|pid out code|ms]; cbn [sessionAfter];
    try (exists s; split; [done | apply grows_refl]).
  - case_decide; [|exists s; split; [done | apply grows_refl]].
    eexists; split; [done|].
    unfold sessionBeforePost. rewrite Hs. apply sessionAfterPost_grows.
  - destruct (timers w !! h) as [t|];
      [|exists s; split; [done | apply grows_refl]].
    destruct (_ && _); [|exists s; split; [done | apply grows_refl]].
    rewrite Hs. eexists; split; [done|].
    split; cbn; auto. exists []. by rewrite app_nil_r.
Qed.

Lemma run_snoc w evs ev : run w (evs ++ [ev]) = step (run w evs) ev.
Proof. unfold run. by rewrite fold_left_app. Qed.

Lemma run_cons w ev evs : run w (ev :: evs) = run (step w ev) evs.
Proof. reflexivity. Qed.

Lemma run_grows evs : forall sid w s,
  sessions w !! sid = Some s ->
  exists s', sessions (run w evs) !! sid = Some s' /\ grows s s'.
Proof.
  induction evs as [|ev evs IH]; intros sid w s Hs.
  - exists s. split; [done | apply grows_refl].
  - destruct (step_grows sid w ev s Hs) as (s1 & H1 & G1).
    destruct (IH sid _ s1 H1) as (s2 & H2 & G2).
    exists s2. split; [done | by eapply grows_trans].
Qed.

(** Induction over the worlds the server can be in. *)
Lemma reachable_ind (P : World -> Prop) :
  (forall now script, P (initWorld now script)) ->
  (forall w ev, reachable w -> P w -> P (step w ev)) ->
  forall w, reachable w -> P w.
Proof.
  intros Hinit Hstep w (now & script & evs & ->).
  induction evs as [|ev evs IH] using rev_ind; [apply Hinit|].
  rewrite run_snoc. apply Hstep; [|done]. by exists now, script, evs.
Qed.

Lemma reachable_init now script : reachable (initWorld now script).
Proof. by exists now, script, []. Qed.

Lemma reachable_step w ev : reachable w -> reachable (step w ev).
Proof.
  intros (now & script & evs & ->).
  exists now, script, (evs ++ [ev])%list. by rewrite run_snoc.
Qed.

Lemma reachable_run w evs : reachable w -> reachable (run w evs).
Proof.
  revert w. induction evs as [|ev evs IH]; intros w H; [done|].
  rewrite run_cons. by apply IH, reachable_step.
Qed.

(** ** Invariants of the reachable worlds *)

(** [earliestStatsStartTime] holds [null] or a truthy value. *)
Lemma reachable_earliest w :
  reachable w ->
  forall sid s, sessions w !! sid = Some s ->
                unsetOrTruthy (earliestStatsStartTime s).
Proof.
  intros Hr. pattern w. revert w Hr.
  apply reachable_ind; cbv beta; [intros now script | intros w ev Hr IH].
  - intros sid s. cbn. by rewrite lookup_empty.
  - intros sid s. rewrite step_session.
    destruct ev as [header body|h|pid out code|ms]; cbn [sessionAfter];
      try apply IH.
    + case_decide; [|apply IH]. intros [= <-].
      assert (Hv : unsetOrTruthy (earliestStatsStartTime (sessionBeforePost sid w))).
      { unfold sessionBeforePost.
        destruct (sessions w !! sid) as [s0|] eqn:Hs; [by eapply IH | by left]. }
      pose proof (ingest_valid (entriesOf body) _ Hv) as Hv'.
      destruct (ingest _ _) as [s1|s1]; cbn [stateOf sessionAfterPost] in *;
        [|done].
      by destruct (isClosed s1 && negb (analyzed s1)).
    + destruct (timers w !! h) as [t|]; [|apply IH].
      destruct (_ && _); [|apply IH].
      destruct (sessions w !! sid) as [s0|] eqn:Hs; [|done].
      intros [= <-]. cbn. by eapply IH.
Qed.

(** *** Timers *)

Lemma postLog_timers header body w sid :
  sessionKey header body = Some sid ->
  let w' := snd (postLog header body w) in
  if threw (ingest (entriesOf body) (sessionBeforePost sid w))
  then timers w' = timers w
       /\ sessionTimeouts w' = sessionTimeouts w
       /\ nextTimer w' = nextTimer w
  else timers w'
       = <[nextTimer w := mkTimer sid (clock w + SESSION_TIMEOUT)]>
           (match sessionTimeouts w !! sid with
            | Some h => delete h (timers w)
            | None => timers w
            end)
       /\ sessionTimeouts w' = <[sid := nextTimer w]> (sessionTimeouts w)
       /\ nextTimer w' = S (nextTimer w).
Proof.
  intros Hk. rewrite (postLog_key _ _ _ _ Hk).
  destruct (ingest _ _) as [s1|s1]; cbn [threw]; [|done].
  cbv zeta. cbn [snd].
  set (w2 := processLogsAndAnalyze _ _ _).
  assert (H2 : sessionTimeouts w2 = sessionTimeouts w
               /\ timers w2 = timers w /\ nextTimer w2 = nextTimer w
               /\ clock w2 = clock w).
  { unfold w2.
    destruct (process_frame sid true
                (putSession sid (setLastActivity (clock w) s1) w))
      as (_ & -> & -> & -> & -> & _). done. }
  destruct H2 as (E1 & E2 & E3 & E4).
  destruct (setup_timers sid w2) as (T1 & T2 & T3).
  rewrite E1, E2, E3, E4 in *.
  destruct (isClosed s1); [|done].
  destruct (finalize_frame sid (setupSessionTimeout sid w2))
    as (-> & -> & -> & _).
  done.
Qed.

Lemma onTimeout_timers sid w :
  timers (onTimeout sid w) = timers w
  /\ sessionTimeouts (onTimeout sid w) = delete sid (sessionTimeouts w)
  /\ nextTimer (onTimeout sid w) = nextTimer w
  /\ clock (onTimeout sid w) = clock w.
Proof.
  unfold onTimeout. cbn.
  destruct (sessions w !! sid) as [s|]; [|done].
  match goal with |- context [finalizeSession ?a ?x] =>
    destruct (finalize_frame a x) as (-> & -> & -> & -> & _) end.
  done.
Qed.

Lemma reachable_timersOK w : reachable w -> timersOK w.
Proof.
  intros Hr. pattern w. revert w Hr.
  apply reachable_ind; cbv beta; [intros now script | intros w ev Hr IH].
  - split; cbn; intros *; by rewrite lookup_empty.
  - destruct IH as [Hcur Hfresh Hsto Hdue].
    destruct ev as [header body|h0|pid out code|ms].
    + cbn [step].
      destruct (sessionKey header body) as [sid|] eqn:Hk;
        [|rewrite postLog_no_key by done; by split].
      pose proof (postLog_timers _ _ w _ Hk) as HT.
      pose proof (postLog_sessions _ _ w _ Hk) as HS.
      pose proof (sessionAfterPost_activity (clock w) (entriesOf body)
                    (sessionBeforePost sid w)) as HA.
      cbv zeta in HT.
      set (w' := snd (postLog header body w)) in *.
      destruct (threw _) eqn:Hthrew.
      * destruct HT as (E1 & E2 & E3). split; rewrite ?E1, ?E2, ?E3; auto.
        intros h t Ht. rewrite HS.
        destruct (Hdue h t Ht) as (s & Hs & Hd).
        destruct (decide (timerSession t = sid)) as [Heq|Hne].
        -- rewrite Heq in *. rewrite lookup_insert_eq. eexists; split; [done|].
           rewrite HA. unfold sessionBeforePost. by rewrite Hs.
        -- rewrite lookup_insert_ne by done. eauto.
      * destruct HT as (E1 & E2 & E3).
        assert (Hold : forall h t,
                  match sessionTimeouts w !! sid with
                  | Some h1 => delete h1 (timers w)
                  | None => timers w
                  end !! h = Some t ->
                  timers w !! h = Some t /\ timerSession t <> sid).
        { intros h t Ht.
          destruct (sessionTimeouts w !! sid) as [h1|] eqn:Hst.
          - apply lookup_delete_Some in Ht as [Hne Ht]. split; [done|].
            intros <-. apply Hcur in Ht. congruence.
          - split; [done|]. intros <-. apply Hcur in Ht. congruence. }
        split; rewrite ?E1, ?E2, ?E3.
        -- intros h t Ht. apply lookup_insert_Some in Ht as [[<- <-]|[Hne Ht]].
           ++ cbn. by rewrite lookup_insert_eq.
           ++ apply Hold in Ht as [Ht Hs]. rewrite lookup_insert_ne by done. auto.
        -- intros h t Ht. apply lookup_insert_Some in Ht as [[<- <-]|[Hne Ht]].
           ++ lia.
           ++ apply Hold in Ht as [Ht Hs]. apply Hfresh in Ht. lia.
        -- intros sid' h Hst. apply lookup_insert_Some in Hst as [[<- <-]|[Hne Hst]].
           ++ eexists. by rewrite lookup_insert_eq.
           ++ destruct (Hsto _ _ Hst) as (t & Ht & Hts). exists t. split; [|done].
              rewrite lookup_insert_ne by (apply Hfresh in Ht; lia).
              destruct (sessionTimeouts w !! sid) as [h1|] eqn:Hst1; [|done].
              rewrite lookup_delete_ne; [done|].
              intros <-. destruct (Hsto _ _ Hst1) as (t1 & Ht1 & Hts1).
              congruence.
        -- intros h t Ht. rewrite HS.
           apply lookup_insert_Some in Ht as [[<- <-]|[Hne Ht]].
           ++ cbn. rewrite lookup_insert_eq. eexists; split; [done|].
              by rewrite HA.
           ++ apply Hold in Ht as [Ht Hs]. rewrite lookup_insert_ne by done.
              eauto.
    + cbn [step]. destruct (timers w !! h0) as [t0|] eqn:Ht0; [|by split].
      destruct (timerDue t0 <=? clock w); [|by split].
      destruct (onTimeout_timers (timerSession t0) (withTimers (delete h0) w))
        as (E1 & E2 & E3 & _).
      pose proof (onTimeout_sessions (timerSession t0) (withTimers (delete h0) w))
        as HS.
      remember (onTimeout (timerSession t0) (withTimers (delete h0) w)) as w'
        eqn:Hw'.
      clear Hw'. cbn in E1, E2, E3, HS.
      split; rewrite ?E1, ?E2, ?E3.
      * intros h t Ht. apply lookup_delete_Some in Ht as [Hne Ht].
        rewrite lookup_delete_ne; [auto|].
        intros Heq. apply Hcur in Ht, Ht0. congruence.
      * intros h t Ht. apply lookup_delete_Some in Ht as [Hne Ht]. eauto.
      * intros sid h Hst. apply lookup_delete_Some in Hst as [Hne Hst].
        destruct (Hsto _ _ Hst) as (t & Ht & Hts). exists t. split; [|done].
        rewrite lookup_delete_ne; [done|]. intros <-. congruence.
      * intros h t Ht. apply lookup_delete_Some in Ht as [Hne Ht].
        destruct (Hdue h t Ht) as (s & Hs & Hd). rewrite HS.
        destruct (sessions w !! timerSession t0) as [s0|] eqn:Hs0; [|eauto].
        destruct (decide (timerSession t0 = timerSession t)) as [Heq|Hn].
        -- rewrite Heq, lookup_insert_eq. eexists; split; [done|].
           cbn. rewrite Heq in Hs0. congruence.
        -- rewrite lookup_insert_ne by done. eauto.
    + cbn [step]. destruct (children w !! pid) as [c|]; [|by split].
      destruct (onClose_frame c out code (withChildren (delete pid) w))
        as (E0 & E1 & E2 & E3 & _).
      remember (onClose c out code (withChildren (delete pid) w)) as w'
        eqn:Hw'.
      clear Hw'. cbn in E0, E1, E2, E3.
      split; rewrite ?E0, ?E1, ?E2, ?E3; auto.
    + by split.
Qed.

(** *** Finalizations *)

Lemma postLog_finalizations sid' header body w sid :
  sessionKey header body = Some sid ->
  finalizations sid' (snd (postLog header body w))
  = (finalizations sid' w +
     match ingest (entriesOf body) (sessionBeforePost sid w) with
     | Done s1 =>
         if isClosed s1 && negb (analyzed s1) && String.eqb sid sid'
         then 1 else 0
     | Threw _ => 0
     end)%nat.
Proof.
  intros Hk. rewrite (postLog_key _ _ _ _ Hk).
  destruct (ingest _ _) as [s1|s1]; [|fin].
  cbv zeta. cbn [snd].
  set (w1 := putSession sid (setLastActivity (clock w) s1) w).
  assert (H3 : finalizations sid' (setupSessionTimeout sid
                 (processLogsAndAnalyze sid true w1)) = finalizations sid' w).
  { by rewrite setup_finalizations, process_finalizations. }
  destruct (isClosed s1); cbn [andb]; [|lia].
  rewrite finalize_finalizations, H3.
  destruct (setup_frame sid (processLogsAndAnalyze sid true w1)) as (-> & _).
  rewrite process_sessions. unfold w1. cbn. rewrite lookup_insert_eq. cbn.
  destruct (analyzed s1); cbn; [lia|].
  destruct (String.eqb sid sid'); lia.
Qed.

Lemma onTimeout_finalizations sid' sid w :
  finalizations sid' (onTimeout sid w)
  = (finalizations sid' w +
     match sessions w !! sid with
     | Some s => if negb (analyzed s) && String.eqb sid sid' then 1 else 0
     | None => 0
     end)%nat.
Proof.
  unfold onTimeout.
  change (finalizations sid' (withSessionTimeouts ?f ?x))
    with (finalizations sid' x).
  cbn [sessions say].
  destruct (sessions w !! sid) as [s|] eqn:Hs.
  - rewrite finalize_finalizations. cbn [sessions putSession withSessions say].
    rewrite lookup_insert_eq. cbn [analyzed setClosed setTimedOut].
    change (finalizations sid' (putSession ?a ?b ?x))
      with (finalizations sid' x).
    rewrite say_finalizations. cbn [isFinalizing].
    destruct (analyzed s); cbn [negb andb]; [lia|].
    destruct (String.eqb sid sid'); lia.
  - rewrite say_finalizations. cbn. lia.
Qed.

Lemma onClose_finalizations sid c out code w :
  finalizations sid (onClose c out code w) = finalizations sid w.
Proof.
  unfold onClose.
  destruct (jsonRegion out) as [region|];
    [|rewrite !say_finalizations; fin].
  destruct (JSON_parse region) as [v|];
    [|rewrite !say_finalizations; fin].
  cbn [sessions say].
  destruct (sessions w !! childSession c) as [si|];
    [|rewrite !say_finalizations; fin].
  destruct (isClosed si || timedOut si);
    rewrite !say_finalizations; cbn [isFinalizing];
    change (finalizations sid (writeFile ?f ?x)) with (finalizations sid x);
    rewrite ?say_finalizations; fin.
Qed.

(** A finalization is counted exactly when [analyzed] goes from false to
    true. *)
Lemma step_finalizations sid w ev :
  finalizations sid (step w ev)
  = (finalizations sid w +
     if analyzedIn sid (step w ev) && negb (analyzedIn sid w) then 1 else 0)%nat.
Proof.
  unfold analyzedIn at 1. rewrite step_session. unfold analyzedIn.
  destruct ev as [header body|h|pid out code|ms]; cbn [step sessionAfter].
  - destruct (sessionKey header body) as [k|] eqn:Hk.
    + rewrite (postLog_finalizations _ _ _ _ _ Hk).
      case_decide as Hd.
      * injection Hd as ->. rewrite eqb_refl_string. f_equal.
        unfold sessionBeforePost.
        destruct (sessions w !! sid) as [s|] eqn:Hs.
        -- destruct (ingest_fields (entriesOf body) s) as (_ & _ & A & _).
           destruct (ingest _ s) as [s1|s1]; cbn [stateOf sessionAfterPost] in *.
           ++ rewrite <- A.
              destruct (isClosed s1), (analyzed s1) eqn:E; cbn; rewrite ?E; done.
           ++ rewrite A. by destruct (analyzed s).
        -- destruct (ingest_fields (entriesOf body) (newSession (clock w)))
             as (_ & _ & A & _).
           destruct (ingest _ _) as [s1|s1]; cbn [stateOf sessionAfterPost] in *.
           ++ rewrite A. cbn. destruct (isClosed s1); cbn; rewrite ?A; done.
           ++ rewrite A. done.
      * assert (String.eqb k sid = false) as ->.
        { apply String.eqb_neq. congruence. }
        destruct (ingest _ _) as [s1|s1]; rewrite ?andb_false_r;
          destruct (sessions w !! sid) as [s|]; try destruct (analyzed s); fin.
    + rewrite postLog_no_key by done. case_decide; [congruence|].
      destruct (sessions w !! sid) as [s|]; try destruct (analyzed s); fin.
  - destruct (timers w !! h) as [t|];
      [|destruct (sessions w !! sid) as [s|]; try destruct (analyzed s); fin].
    destruct (timerDue t <=? clock w); cbn [andb];
      [|destruct (sessions w !! sid) as [s|]; try destruct (analyzed s); fin].
    rewrite onTimeout_finalizations.
    change (finalizations sid (withTimers ?f ?x)) with (finalizations sid x).
    cbn [sessions withTimers].
    case_bool_decide as Hd.
    + rewrite Hd, eqb_refl_string.
      destruct (sessions w !! sid) as [s|]; [|fin].
      destruct (analyzed s); fin.
    + assert (String.eqb (timerSession t) sid = false) as ->.
      { by apply String.eqb_neq. }
      destruct (sessions w !! timerSession t) as [st|]; rewrite ?andb_false_r;
        destruct (sessions w !! sid) as [s|]; try destruct (analyzed s); fin.
  - destruct (children w !! pid) as [c|];
      [rewrite onClose_finalizations;
       change (finalizations sid (withChildren ?f ?x)) with (finalizations sid x)|];
      destruct (sessions w !! sid) as [s|]; try destruct (analyzed s); fin.
  - change (finalizations sid (advance ms w)) with (finalizations sid w).
    destruct (sessions w !! sid) as [s|]; try destruct (analyzed s); fin.
Qed.

Lemma reachable_finalizations w sid :
  reachable w ->
  finalizations sid w = if analyzedIn sid w then 1%nat else 0%nat.
Proof.
  intros Hr. pattern w. revert w Hr.
  apply reachable_ind; cbv beta; [intros now script | intros w ev Hr IH].
  - done.
  - rewrite step_finalizations, IH.
    destruct (analyzedIn sid w) eqn:Ha;
      destruct (analyzedIn sid (step w ev)) eqn:Ha'; cbn; try lia.
    exfalso. unfold analyzedIn in *.
    destruct (sessions w !! sid) as [s|] eqn:Hs; [|done].
    destruct (step_grows sid w ev s Hs) as (s' & Hs' & [_ _ _ G _]).
    rewrite Hs' in Ha'. rewrite G in Ha'; done.
Qed.

(** ** Finalization runs at most once *)

Lemma finalize_noop sid w :
  analyzedIn sid w = true -> finalizeSession sid w = w.
Proof.
  unfold analyzedIn, finalizeSession.
  destruct (sessions w !! sid) as [s|]; [|done]. by intros ->.
Qed.

Lemma run_analyzedIn sid w evs :
  analyzedIn sid w = true -> analyzedIn sid (run w evs) = true.
Proof.
  unfold analyzedIn. destruct (sessions w !! sid) as [s|] eqn:Hs; [|done].
  intros Ha. destruct (run_grows evs sid w s Hs) as (s' & -> & [_ _ _ G _]).
  auto.
Qed.

(** C1. For every session, finalization runs at most once.  In a world
    the server can be in: at most one finalization has gone past the
    guard of [finalizeSession]; a call that finds [analyzed] false sets
    it before anything else (the snapshot and the analyzer run see it
    set); and once it is set, [finalizeSession] changes nothing, now and
    after any further turns of the loop (batches, timer fires, child
    exits, in any number and order), and no further finalization is
    counted. *)
Theorem finalization_runs_at_most_once w sid :
  reachable w ->
  (finalizations sid w <= 1)%nat
  /\ (forall s,
        sessions w !! sid = Some s -> analyzed s = false ->
        let marked := putSession sid (setAnalyzed s) w in
        analyzedIn sid marked = true
        /\ finalizeSession sid w
           = processLogsAndAnalyze sid false (say (MsgFinalizing sid) marked)
        /\ analyzedIn sid (finalizeSession sid w) = true)
  /\ (analyzedIn sid w = true ->
        forall evs,
          analyzedIn sid (run w evs) = true
          /\ finalizeSession sid (run w evs) = run w evs
          /\ finalizations sid (run w evs) = finalizations sid w).
Proof.
  intros Hr. split; [|split].
  - rewrite reachable_finalizations by done. destruct (analyzedIn sid w); lia.
  - intros s Hs Ha marked.
    assert (Hm : analyzedIn sid marked = true).
    { unfold analyzedIn, marked. cbn. by rewrite lookup_insert_eq. }
    split; [done|]. split.
    + unfold finalizeSession. by rewrite Hs, Ha.
    + unfold analyzedIn. rewrite finalize_sessions, Hs, Ha.
      by rewrite lookup_insert_eq.
  - intros Ha evs.
    pose proof (run_analyzedIn sid w evs Ha) as Ha'.
    split; [done|]. split; [by apply finalize_noop|].
    rewrite !reachable_finalizations by (try apply reachable_run; done).
    by rewrite Ha, Ha'.
Qed.

(** ** The inactivity timer *)





(** ** The log of a session *)


(** One turn adds to the [logs] of a session what the request pushes
    under its id, at the end, and nothing else. *)
Lemma step_logs sid w ev :
  sessionLogs sid (step w ev) = (sessionLogs sid w ++ pushedUnder sid ev)%list.
Proof.
  unfold sessionLogs at 1. rewrite step_session. unfold sessionLogs.
  destruct ev as [header body|h|pid out code|ms];
    cbn [sessionAfter pushedUnder]; rewrite ?app_nil_r; try done.
  - case_decide; [|by rewrite app_nil_r].
    rewrite sessionAfterPost_logs.
    destruct (ingest_fields (entriesOf body) (sessionBeforePost sid w))
      as (-> & _).
    unfold sessionBeforePost. by destruct (sessions w !! sid).
  - destruct (timers w !! h) as [t|]; [|done].
    destruct (_ && _); [|done].
    by destruct (sessions w !! sid).
Qed.

Lemma run_logs evs : forall sid w,
  sessionLogs sid (run w evs)
  = (sessionLogs sid w ++ concat (map (pushedUnder sid) evs))%list.
Proof.
  induction evs as [|ev evs IH]; intros sid w; cbn [map concat].
  - by rewrite app_nil_r.
  - by rewrite run_cons, IH, step_logs, app_assoc.
Qed.

(** C5. For any sequence of accepted batches submitted under one session
    id, the session's [logs] is the concatenation of those batches in
    arrival order.  The run may hold any other turns (timer fires, child
    exits, requests for other sessions, rejected requests); and without
    any assumption, a turn only ever appends to [logs]: entries already
    there are neither reordered nor removed. *)
Theorem logs_are_batches_in_arrival_order now script sid evs :
  allAccepted sid evs ->
  sessionLogs sid (run (initWorld now script) evs)
  = concat (map (batchUnder sid) evs)
  /\ (forall w ev, exists added,
         sessionLogs sid (step w ev) = (sessionLogs sid w ++ added)%list).
Proof.
  intros Hacc. split.
  - rewrite run_logs. by rewrite (allAccepted_pushed _ _ Hacc).
  - intros w ev. exists (pushedUnder sid ev). apply step_logs.
Qed.

(** ** The earliest start time *)




(** ** Rejected requests *)

(** C7. A request whose body is not an array, or is an empty array, is
    answered 400 and leaves the whole world as it was: the session
    table, every session in it, and every pending timer. *)
Theorem rejected_batch_changes_nothing header body w :
  (forall xs, body = JArr xs -> xs = []) ->
  postLog header body w = (Status 400 "No logs received", w)
  /\ step w (PostLog header body) = w.
Proof.
  intros Hbody.
  assert (H : postLog header body w = (Status 400 "No logs received", w)).
  { unfold postLog. destruct body as [| | | |[|first rest]|]; try done.
    by specialize (Hbody _ eq_refl). }
  split; [done|]. cbn [step]. by rewrite H.
Qed.

(** ** Falsy start times *)

(** C9. A stat object whose [startTime] is present but falsy never sets
    [earliestStatsStartTime], also when it is still unset: the inner loop
    leaves the session as it was, an entry whose stat objects carry only
    falsy [startTime]s leaves [earliestStatsStartTime] as it was, and in
    a world the server can be in [earliestStatsStartTime] is [null] or a
    truthy value. *)
Theorem falsy_startTime_is_never_recorded statObj t s :
  get "startTime" statObj = Some t ->
  truthy t = false ->
  scanStat statObj s = Done s
  /\ (forall entry s0,
        Forall (fun v => truthy v = false) (startTimesRead entry) ->
        earliestStatsStartTime (stateOf (ingestEntry entry s0))
        = earliestStatsStartTime s0)
  /\ (forall w sid s',
        reachable w -> sessions w !! sid = Some s' ->
        earliestStatsStartTime s' = JNull
        \/ truthy (earliestStatsStartTime s') = true).
Proof.
  intros Hget Hf. split; [|split].
  - unfold scanStat. destruct statObj; try discriminate.
    rewrite Hget, Hf. done.
  - intros entry s0. apply ingestEntry_falsy.
  - intros w sid s' Hr Hs. by eapply reachable_earliest.
Qed.

(** ** Batches for a session that is already analyzed *)


(** ** The analyzer's output *)


(** ** Analyzer children *)





Lemma process_children_cases sid b w pid c :
  children (processLogsAndAnalyze sid b w) !! pid = Some c ->
  children w !! pid = Some c \/ c = mkChild sid b.
Proof.
  destruct (process_children sid b w) as (-> & _).
  destruct (sessions w !! sid); [|by left].
  destruct (pyScriptExists w); [|by left].
  intros [[_ <-]|[_ H]]%lookup_insert_Some; [by right | by left].
Qed.

Lemma finalize_children_cases sid w pid c :
  children (finalizeSession sid w) !! pid = Some c ->
  children w !! pid = Some c \/ c = mkChild sid false.
Proof.
  unfold finalizeSession.
  destruct (sessions w !! sid) as [s|]; [|by left].
  destruct (analyzed s); [by left|].
  intros H. apply process_children_cases in H. done.
Qed.

Lemma reachable_finalChildrenClosed w : reachable w -> finalChildrenClosed w.
Proof.
  intros Hr. pattern w. revert w Hr.
  apply reachable_ind; cbv beta; [intros now script | intros w ev Hr IH].
  - intros pid c. cbn. by rewrite lookup_empty.
  - assert (Hold : forall pid c,
              children w !! pid = Some c -> childNewLogsOnly c = false ->
              exists s, sessions (step w ev) !! childSession c = Some s
                        /\ isClosed s = true).
    { intros pid c Hc Hfin. destruct (IH pid c Hc Hfin) as (s & Hs & Hcl).
      destruct (step_grows (childSession c) w ev s Hs) as (s' & Hs' & [_ G _ _ _]).
      eauto. }
    intros pid c Hc Hfin.
    destruct ev as [header body|h|pid0 out code|ms].
    + pose proof (step_session (childSession c) w (PostLog header body)) as HS.
      cbn [step sessionAfter] in *.
      destruct (sessionKey header body) as [sid|] eqn:Hk;
        [|rewrite postLog_no_key in * by done; eauto].
      rewrite (postLog_key _ _ _ _ Hk) in Hc.
      destruct (ingest _ _) as [s1|s1] eqn:Hing; [|by eapply Hold].
      cbv zeta in Hc. cbn [snd] in Hc.
      set (w1 := putSession sid (setLastActivity (clock w) s1) w) in *.
      assert (H3 : forall pid c,
                children (setupSessionTimeout sid
                            (processLogsAndAnalyze sid true w1)) !! pid = Some c ->
                children w !! pid = Some c \/ c = mkChild sid true).
      { intros pid' c'.
        destruct (setup_frame sid (processLogsAndAnalyze sid true w1))
          as (_ & -> & _).
        intros H. by apply process_children_cases in H. }
      destruct (isClosed s1) eqn:Hcl.
      * apply finalize_children_cases in Hc as [Hc| ->].
        -- apply H3 in Hc as [Hc| ->]; [by eapply Hold | discriminate].
        -- cbn [childSession] in *. rewrite decide_True in HS by done.
           rewrite Hing in HS. cbn [sessionAfterPost] in HS.
           eexists. split; [exact HS|].
           by destruct (isClosed s1 && negb (analyzed s1)).
      * apply H3 in Hc as [Hc| ->]; [by eapply Hold | discriminate].
    + pose proof (step_session (childSession c) w (TimerFires h)) as HS.
      cbn [step sessionAfter] in *.
      destruct (timers w !! h) as [t|]; [|by eapply Hold].
      destruct (timerDue t <=? clock w); [|by eapply Hold].
      unfold onTimeout in Hc. cbn [sessions say withTimers] in Hc.
      change (children (withSessionTimeouts ?f ?x)) with (children x) in Hc.
      destruct (sessions w !! timerSession t) as [s|] eqn:Hs; [|by eapply Hold].
      apply finalize_children_cases in Hc as [Hc| ->]; [by eapply Hold|].
      cbn [childSession andb] in *.
      rewrite bool_decide_eq_true_2, Hs in HS by done.
      eexists. split; [exact HS | done].
    + cbn [step] in Hc.
      destruct (children w !! pid0) as [c0|] eqn:Hc0; [|by eapply Hold].
      destruct (onClose_frame c0 out code (withChildren (delete pid0) w))
        as (_ & _ & _ & _ & Hch & _).
      rewrite Hch in Hc. cbn in Hc.
      apply lookup_delete_Some in Hc as [_ Hc]. by eapply Hold.
    + by eapply Hold.
Qed.

(** The half of the final-results rule that holds: when the child that
    [finalizeSession] launched exits with output that parses, its result
    is written to the final-result path. *)
Lemma final_run_is_persisted w pid c pyOutput code region finalResults :
  reachable w ->
  children w !! pid = Some c ->
  childNewLogsOnly c = false ->
  jsonRegion pyOutput = Some region ->
  JSON_parse region = Some finalResults ->
  disk (step w (ChildCloses pid pyOutput code))
  = (disk w ++ [WriteFinalResults (childSession c) finalResults])%list.
Proof.
  intros Hr Hc Hfin Hreg Hp.
  destruct (reachable_finalChildrenClosed w Hr pid c Hc Hfin) as (s & Hs & Hcl).
  cbn [step]. rewrite Hc. unfold onClose. rewrite Hreg, Hp.
  cbn [sessions say withChildren]. rewrite Hs, Hcl. done.
Qed.

(** What decides the write is the state of the session when the child
    exits, not the kind of run: any child, also one launched for a
    non-final pass, writes the final-result file when its session is
    closed or timed out by then. *)
Lemma persisted_iff_session_closed w pid c pyOutput code region finalResults s :
  children w !! pid = Some c ->
  sessions w !! childSession c = Some s ->
  jsonRegion pyOutput = Some region ->
  JSON_parse region = Some finalResults ->
  disk (step w (ChildCloses pid pyOutput code))
  = if isClosed s || timedOut s
    then (disk w ++ [WriteFinalResults (childSession c) finalResults])%list
    else disk w.
Proof.
  intros Hc Hs Hreg Hp.
  cbn [step]. rewrite Hc. unfold onClose. rewrite Hreg, Hp.
  cbn [sessions say withChildren]. rewrite Hs.
  by destruct (isClosed s || timedOut s).
Qed.

End Properties.

(** * The first server.js: the same properties

    The request handler of the first server shares its loop with the
    later one, and its [finalizeSession] has the same guard.  What holds
    of sessions, logs, start times and rejected requests above holds
    here too. *)

Section BasicProperties.

Context {env : Env}.

Set Default Proof Using "Type".

Lemma basic_finalize_sessions sid w :
  sessions (Basic.finalizeSession sid w)
  = match sessions w !! sid with
    | Some s => if analyzed s then sessions w
                else <[sid := setAnalyzed s]> (sessions w)
    | None => sessions w
    end.
Proof.
  unfold Basic.finalizeSession.
  destruct (sessions w !! sid) as [s|]; [|done].
  by destruct (analyzed s).
Qed.

Lemma basic_finalize_finalizations sid' sid w :
  finalizations sid' (Basic.finalizeSession sid w)
  = match sessions w !! sid with
    | Some s =>
        if analyzed s then finalizations sid' w
        else (finalizations sid' w + if String.eqb sid sid' then 1 else 0)%nat
    | None => finalizations sid' w
    end.
Proof.
  unfold Basic.finalizeSession.
  destruct (sessions w !! sid) as [s|]; [|done].
  destruct (analyzed s); [done|].
  unfold finalizations. cbn. rewrite filter_snoc, length_app. cbn.
  by destruct (String.eqb sid sid').
Qed.

Lemma basic_postLog_no_key header body w :
  sessionKey header body = None -> snd (Basic.postLog header body w) = w.
Proof.
  unfold sessionKey, Basic.postLog.
  destruct body as [| | | |[|first rest]|]; try done.
  destruct (toString _) as [k|]; [|done].
  destruct (inherited k); [done | discriminate].
Qed.

Lemma basic_postLog_key header body w sid :
  sessionKey header body = Some sid ->
  Basic.postLog header body w
  = match ingest (entriesOf body) (Basic.sessionBeforePost sid w) with
    | Threw s1 => (Uncaught, putSession sid s1 w)
    | Done s1 =>
        let w2 := writeFile (WriteRawLogs sid (isoStamp (clock w)) (entriesOf body))
                    (putSession sid s1 w) in
        (Status 200 "Logs received",
         if isClosed s1 then Basic.finalizeSession sid w2 else w2)
    end.
Proof.
  unfold sessionKey, Basic.postLog, Basic.sessionBeforePost.
  destruct body as [| | | |[|first rest]|]; try done.
  destruct (toString _) as [k|]; [|done].
  destruct (inherited k); [done|]. intros [= ->].
  cbn [entriesOf].
  destruct (ingest _ _) as [s1|s1]; [|done].
  cbv zeta. cbn [sessions writeFile putSession withSessions].
  by rewrite lookup_insert_eq.
Qed.

Lemma basic_postLog_response header body w :
  fst (Basic.postLog header body w) = response header body.
Proof.
  unfold response, accepted.
  destruct (sessionKey header body) as [sid|] eqn:Hk.
  - rewrite (basic_postLog_key _ _ _ _ Hk).
    rewrite <- (ingest_threw _ (Basic.sessionBeforePost sid w)).
    unfold sessionKey in Hk.
    destruct body as [| | | |[|first rest]|]; try done.
    by destruct (ingest _ _).
  - unfold sessionKey, Basic.postLog in *.
    destruct body as [| | | |[|first rest]|]; try done.
    destruct (toString _) as [k|]; [|done].
    destruct (inherited k); [done | discriminate].
Qed.

Lemma basic_postLog_sessions header body w sid :
  sessionKey header body = Some sid ->
  sessions (snd (Basic.postLog header body w))
  = <[sid := Basic.sessionAfterPost
               (ingest (entriesOf body) (Basic.sessionBeforePost sid w))]>
      (sessions w).
Proof.
  intros Hk. rewrite (basic_postLog_key _ _ _ _ Hk).
  destruct (ingest _ _) as [s1|s1]; [|done].
  cbv zeta. cbn [snd Basic.sessionAfterPost].
  destruct (isClosed s1); cbn [andb]; [|done].
  rewrite basic_finalize_sessions. cbn [sessions writeFile putSession withSessions].
  rewrite lookup_insert_eq.
  destruct (analyzed s1); cbn [negb]; [done|].
  by rewrite insert_insert_eq.
Qed.

Lemma basic_postLog_finalizations sid' header body w sid :
  sessionKey header body = Some sid ->
  finalizations sid' (snd (Basic.postLog header body w))
  = (finalizations sid' w +
     match ingest (entriesOf body) (Basic.sessionBeforePost sid w) with
     | Done s1 =>
         if isClosed s1 && negb (analyzed s1) && String.eqb sid sid'
         then 1 else 0
     | Threw _ => 0
     end)%nat.
Proof.
  intros Hk. rewrite (basic_postLog_key _ _ _ _ Hk).
  destruct (ingest _ _) as [s1|s1]; [|fin].
  cbv zeta. cbn [snd].
  destruct (isClosed s1); cbn [andb]; [|fin].
  rewrite basic_finalize_finalizations.
  change (finalizations sid' (writeFile ?f (putSession ?a ?b ?x)))
    with (finalizations sid' x).
  cbn [sessions writeFile putSession withSessions]. rewrite lookup_insert_eq.
  destruct (analyzed s1); cbn [negb andb]; [lia|].
  destruct (String.eqb sid sid'); lia.
Qed.

Definition basicSessionAfter (sid : string) (w : World) (ev : Event)
    : option Session :=
  match ev with
  | PostLog header body =>
      if decide (sessionKey header body = Some sid)
      then Some (Basic.sessionAfterPost
                   (ingest (entriesOf body) (Basic.sessionBeforePost sid w)))
      else sessions w !! sid
  | _ => sessions w !! sid
  end.

Lemma basic_step_session sid w ev :
  sessions (Basic.step w ev) !! sid = basicSessionAfter sid w ev.
Proof.
  destruct ev as [header body|h|pid out code|ms];
    cbn [Basic.step basicSessionAfter]; try done.
  - destruct (sessionKey header body) as [k|] eqn:Hk.
    + rewrite (basic_postLog_sessions _ _ _ _ Hk).
      case_decide as Hd.
      * injection Hd as ->. by rewrite lookup_insert_eq.
      * rewrite lookup_insert_ne; [done | congruence].
    + rewrite basic_postLog_no_key by done. by case_decide.
  - destruct (children w !! pid) as [c|]; [|done].
    unfold Basic.onClose. by destruct (JSON_parse out).
Qed.

Lemma basic_sessionAfterPost_fields es s :
  let s' := Basic.sessionAfterPost (ingest es s) in
  grows s s'
  /\ logs s' = logs (stateOf (ingest es s))
  /\ earliestStatsStartTime s' = earliestStatsStartTime (stateOf (ingest es s))
  /\ analyzed s'
     = analyzed s || (negb (threw (ingest es s)) && isClosed (stateOf (ingest es s))).
Proof.
  cbv zeta.
  pose proof (ingest_grows es s) as G.
  destruct (ingest_fields es s) as (_ & _ & A & _).
  destruct (ingest es s) as [s1|s1];
    cbn [stateOf threw negb andb Basic.sessionAfterPost] in *.
  - rewrite <- A.
    destruct (isClosed s1), (analyzed s1) eqn:E; cbn [andb negb orb];
      (split; [|by rewrite ?E]);
      try exact G.
    eapply grows_trans; [exact G|]. split; cbn; auto.
    exists []. by rewrite app_nil_r.
  - rewrite orb_false_r. auto.
Qed.

Lemma basic_step_grows sid w ev s :
  sessions w !! sid = Some s ->
  exists s', sessions (Basic.step w ev) !! sid = Some s' /\ grows s s'.
Proof.
  intros Hs. rewrite basic_step_session.
  destruct ev as [header body|h|pid out code|ms]; cbn [basicSessionAfter];
    try (exists s; split; [done | apply grows_refl]).
  case_decide; [|exists s; split; [done | apply grows_refl]].
  eexists; split; [done|].
  unfold Basic.sessionBeforePost. rewrite Hs.
  apply basic_sessionAfterPost_fields.
Qed.

Lemma basic_run_snoc w evs ev :
  Basic.run w (evs ++ [ev]) = Basic.step (Basic.run w evs) ev.
Proof. unfold Basic.run. by rewrite fold_left_app. Qed.

Lemma basic_run_grows evs : forall sid w s,
  sessions w !! sid = Some s ->
  exists s', sessions (Basic.run w evs) !! sid = Some s' /\ grows s s'.
Proof.
  induction evs as [|ev evs IH]; intros sid w s Hs.
  - exists s. split; [done | apply grows_refl].
  - destruct (basic_step_grows sid w ev s Hs) as (s1 & H1 & G1).
    destruct (IH sid _ s1 H1) as (s2 & H2 & G2).
    exists s2. split; [done | by eapply grows_trans].
Qed.

Lemma basic_reachable_ind (P : World -> Prop) :
  (forall now script, P (initWorld now script)) ->
  (forall w ev, Basic.reachable w -> P w -> P (Basic.step w ev)) ->
  forall w, Basic.reachable w -> P w.
Proof.
  intros Hinit Hstep w (now & script & evs & ->).
  induction evs as [|ev evs IH] using rev_ind; [apply Hinit|].
  rewrite basic_run_snoc. apply Hstep; [|done]. by exists now, script, evs.
Qed.

Lemma basic_step_finalizations sid w ev :
  finalizations sid (Basic.step w ev)
  = (finalizations sid w +
     if analyzedIn sid (Basic.step w ev) && negb (analyzedIn sid w)
     then 1 else 0)%nat.
Proof.
  unfold analyzedIn at 1. rewrite basic_step_session. unfold analyzedIn.
  destruct ev as [header body|h|pid out code|ms];
    cbn [Basic.step basicSessionAfter].
  - destruct (sessionKey header body) as [k|] eqn:Hk.
    + rewrite (basic_postLog_finalizations _ _ _ _ _ Hk).
      case_decide as Hd.
      * injection Hd as ->. rewrite eqb_refl_string. f_equal.
        destruct (basic_sessionAfterPost_fields (entriesOf body)
                    (Basic.sessionBeforePost sid w)) as (_ & _ & _ & ->).
        destruct (ingest_fields (entriesOf body) (Basic.sessionBeforePost sid w))
          as (_ & _ & A & _).
        unfold Basic.sessionBeforePost in *.
        destruct (sessions w !! sid) as [s|] eqn:Hs;
          destruct (ingest _ _) as [s1|s1];
          cbn [stateOf threw negb andb analyzed newSession] in *;
          rewrite ?A; cbn [analyzed newSession];
          try destruct (analyzed s); try destruct (isClosed s1); done.
      * assert (String.eqb k sid = false) as ->.
        { apply String.eqb_neq. congruence. }
        destruct (ingest _ _) as [s1|s1]; rewrite ?andb_false_r;
          destruct (sessions w !! sid) as [s|]; try destruct (analyzed s); fin.
    + rewrite basic_postLog_no_key by done. case_decide; [congruence|].
      destruct (sessions w !! sid) as [s|]; try destruct (analyzed s); fin.
  - destruct (sessions w !! sid) as [s|]; try destruct (analyzed s); fin.
  - destruct (children w !! pid) as [c|].
    + unfold Basic.onClose. destruct (JSON_parse out);
        rewrite !say_finalizations;
        change (finalizations sid (withChildren ?f ?x)) with (finalizations sid x);
        destruct (sessions w !! sid) as [s|]; try destruct (analyzed s); fin.
    + destruct (sessions w !! sid) as [s|]; try destruct (analyzed s); fin.
  - change (finalizations sid (advance ms w)) with (finalizations sid w).
    destruct (sessions w !! sid) as [s|]; try destruct (analyzed s); fin.
Qed.

(** server.js: finalization runs at most once for a session, and once
    [analyzed] is set [finalizeSession] changes nothing (C1). *)
Lemma basic_finalization_runs_at_most_once w sid :
  Basic.reachable w ->
  (finalizations sid w <= 1)%nat
  /\ (analyzedIn sid w = true ->
      forall evs,
        analyzedIn sid (Basic.run w evs) = true
        /\ Basic.finalizeSession sid (Basic.run w evs) = Basic.run w evs).
Proof.
  intros Hr. split.
  - assert (H : finalizations sid w = if analyzedIn sid w then 1%nat else 0%nat).
    { pattern w. revert w Hr.
      apply basic_reachable_ind; cbv beta; [done | intros w ev Hr IH].
      rewrite basic_step_finalizations, IH.
      destruct (analyzedIn sid w) eqn:Ha;
        destruct (analyzedIn sid (Basic.step w ev)) eqn:Ha'; cbn; try lia.
      exfalso. unfold analyzedIn in *.
      destruct (sessions w !! sid) as [s|] eqn:Hs; [|done].
      destruct (basic_step_grows sid w ev s Hs) as (s' & Hs' & [_ _ _ G _]).
      rewrite Hs' in Ha'. rewrite G in Ha'; done. }
    rewrite H. destruct (analyzedIn sid w); lia.
  - intros Ha evs. unfold analyzedIn in *.
    destruct (sessions w !! sid) as [s|] eqn:Hs; [|done].
    destruct (basic_run_grows evs sid w s Hs) as (s' & Hs' & [_ _ _ G _]).
    rewrite Hs'. split; [auto|].
    unfold Basic.finalizeSession. rewrite Hs'. by rewrite G.
Qed.

Lemma basic_step_logs sid w ev :
  sessionLogs sid (Basic.step w ev)
  = (sessionLogs sid w ++ pushedUnder sid ev)%list.
Proof.
  unfold sessionLogs at 1. rewrite basic_step_session. unfold sessionLogs.
  destruct ev as [header body|h|pid out code|ms];
    cbn [basicSessionAfter pushedUnder]; rewrite ?app_nil_r; try done.
  case_decide; [|by rewrite app_nil_r].
  destruct (basic_sessionAfterPost_fields (entriesOf body)
              (Basic.sessionBeforePost sid w)) as (_ & -> & _).
  destruct (ingest_fields (entriesOf body) (Basic.sessionBeforePost sid w))
    as (-> & _).
  unfold Basic.sessionBeforePost. by destruct (sessions w !! sid).
Qed.

(** server.js: the [logs] of a session are its accepted batches in
    arrival order (C5). *)
Lemma basic_logs_are_batches_in_arrival_order now script sid evs :
  allAccepted sid evs ->
  sessionLogs sid (Basic.run (initWorld now script) evs)
  = concat (map (batchUnder sid) evs).
Proof.
  intros Hacc. rewrite <- (allAccepted_pushed _ _ Hacc). clear Hacc.
  change (concat (map (pushedUnder sid) evs))
    with (sessionLogs sid (initWorld now script)
          ++ concat (map (pushedUnder sid) evs))%list.
  generalize (initWorld now script) as w.
  induction evs as [|ev evs IH]; intros w; cbn [map concat].
  - by rewrite app_nil_r.
  - change (Basic.run w (ev :: evs)) with (Basic.run (Basic.step w ev) evs).
    by rewrite IH, basic_step_logs, app_assoc.
Qed.

(** server.js: [earliestStatsStartTime] is the first truthy [startTime]
    of the accepted batches (C6, C9). *)
Lemma basic_earliest_start_time_first_truthy_wins now script sid evs s :
  allAccepted sid evs ->
  sessions (Basic.run (initWorld now script) evs) !! sid = Some s ->
  earliestStatsStartTime s
  = firstTruthy (startTimes (concat (map (batchUnder sid) evs))).
Proof.
  intros Hacc Hs.
  pose proof (basic_logs_are_batches_in_arrival_order now script sid evs Hacc) as HL.
  unfold sessionLogs in HL. rewrite Hs in HL. rewrite <- HL. clear HL.
  revert s Hs. induction evs as [|ev evs IH] using rev_ind; intros s.
  - cbn. by rewrite lookup_empty.
  - assert (Hacc' : allAccepted sid evs).
    { intros header body Hin. apply Hacc. apply in_or_app. by left. }
    specialize (IH Hacc'). rewrite basic_run_snoc, basic_step_session.
    set (w := Basic.run (initWorld now script) evs) in *.
    destruct ev as [header body|h|pid out code|ms]; cbn [basicSessionAfter];
      try apply IH.
    case_decide as Hk; [|apply IH]. intros [= <-].
    destruct (basic_sessionAfterPost_fields (entriesOf body)
                (Basic.sessionBeforePost sid w)) as (_ & -> & -> & _).
    apply ingest_matches.
    + assert (Ha : accepted header body = true).
      { apply Hacc; [|done]. apply in_or_app. right. by left. }
      unfold accepted in Ha. rewrite Hk in Ha. by apply negb_true_iff in Ha.
    + unfold Basic.sessionBeforePost.
      destruct (sessions w !! sid) as [s0|] eqn:Hs; [by apply IH | done].
Qed.

(** server.js: a request whose body is not a non-empty array is answered
    400 and changes nothing (C7). *)
Lemma basic_rejected_batch_changes_nothing header body w :
  (forall xs, body = JArr xs -> xs = []) ->
  Basic.postLog header body w = (Status 400 "No logs received", w).
Proof.
  intros Hbody. unfold Basic.postLog.
  destruct body as [| | | |[|first rest]|]; try done.
  by specialize (Hbody _ eq_refl).
Qed.

End BasicProperties.

(** * Further properties of the server *)

Section FurtherProperties.

Context {env : Env}.

Set Default Proof Using "Type".

(** ** Sessions are kept, and their flags only rise *)

(** X1. A session, once stored, is never deleted by any turn of the
    loop, and its [isClosed], [timedOut] and [analyzed] never go back to
    false. *)
Theorem sessions_persist_and_flags_only_rise sid w s evs :
  sessions w !! sid = Some s ->
  exists s',
    sessions (run w evs) !! sid = Some s'
    /\ (isClosed s = true -> isClosed s' = true)
    /\ (timedOut s = true -> timedOut s' = true)
    /\ (analyzed s = true -> analyzed s' = true).
Proof.
  intros Hs. destruct (run_grows evs sid w s Hs) as (s' & Hs' & [_ C T A _]).
  exists s'. auto.
Qed.

(** ** The states a session goes through *)

Lemma sessionAfterPost_consistent now es s :
  flagsConsistent s -> flagsConsistent (sessionAfterPost now (ingest es s)).
Proof using Type.
  clear env. unfold flagsConsistent.
  destruct (ingest_fields es s) as (_ & T & A & _ & C).
  destruct (ingest es s) as [s1|s1]; cbn [stateOf sessionAfterPost] in *.
  - destruct (isClosed s1) eqn:Hc, (analyzed s1) eqn:Ha; cbn [andb negb];
      cbn [setAnalyzed setLastActivity isClosed analyzed timedOut];
      rewrite ?Hc, ?Ha, ?T;
      destruct (isClosed s), (analyzed s), (timedOut s); intuition congruence.
  - rewrite T, A.
    destruct (isClosed s1), (isClosed s), (analyzed s), (timedOut s);
      intuition congruence.
Qed.

Lemma reachable_flagsConsistent w :
  reachable w -> forall sid s, sessions w !! sid = Some s -> flagsConsistent s.
Proof.
  intros Hr. pattern w. revert w Hr.
  apply reachable_ind; cbv beta; [intros now script | intros w ev Hr IH].
  - intros sid s. cbn. by rewrite lookup_empty.
  - intros sid s. rewrite step_session.
    destruct ev as [header body|h|pid out code|ms]; cbn [sessionAfter];
      try apply IH.
    + case_decide; [|apply IH]. intros [= <-].
      apply sessionAfterPost_consistent. unfold sessionBeforePost.
      destruct (sessions w !! sid) as [s0|] eqn:Hs; [by eapply IH|].
      split; cbn; [discriminate | discriminate].
    + destruct (timers w !! h) as [t|]; [|apply IH].
      destruct (_ && _); [|apply IH].
      destruct (sessions w !! sid) as [s0|] eqn:Hs; [|done].
      intros [= <-]. split; cbn; auto.
Qed.

(** X2. In every world the server can be in, a session that is
    [analyzed] is [isClosed], and a session that is [timedOut] is both
    [isClosed] and [analyzed]. *)
Theorem session_flags_are_ordered w sid s :
  reachable w ->
  sessions w !! sid = Some s ->
  (analyzed s = true -> isClosed s = true)
  /\ (timedOut s = true -> isClosed s = true /\ analyzed s = true).
Proof. intros Hr Hs. exact (reachable_flagsConsistent w Hr sid s Hs). Qed.


(** ** One session does not disturb another *)

(** X4. A turn of the loop that works on one session leaves every other
    session as it was: its record (flags, logs, [lastActivityTime]), the
    handle stored for it and its pending timer. *)
Theorem sessions_are_isolated w ev b :
  reachable w ->
  eventSession w ev <> Some b ->
  sessions (step w ev) !! b = sessions w !! b
  /\ sessionTimeouts (step w ev) !! b = sessionTimeouts w !! b
  /\ (forall h t, timerSession t = b ->
        timers (step w ev) !! h = Some t <-> timers w !! h = Some t).
Proof.
  intros Hr Hev.
  pose proof (reachable_timersOK w Hr) as [Hcur Hfresh Hsto Hdue].
  destruct ev as [header body|h0|pid out code|ms]; cbn [eventSession] in Hev.
  - pose proof (step_session b w (PostLog header body)) as HS.
    cbn [sessionAfter] in HS. rewrite decide_False in HS by done.
    split; [exact HS|]. cbn [step].
    destruct (sessionKey header body) as [a|] eqn:Hk;
      [|by rewrite postLog_no_key].
    assert (Hab : a <> b) by congruence.
    pose proof (postLog_timers header body w a Hk) as HT. cbv zeta in HT.
    destruct (threw _).
    + destruct HT as (-> & -> & _). done.
    + destruct HT as (-> & -> & _). split; [by rewrite lookup_insert_ne|].
      intros h t Ht. split.
      * intros [[<- <-]|[Hne H]]%lookup_insert_Some; [done|].
        destruct (sessionTimeouts w !! a) as [h1|]; [|done].
        by apply lookup_delete_Some in H as [_ H].
      * intros H. pose proof (Hfresh _ _ H).
        rewrite lookup_insert_ne by lia.
        destruct (sessionTimeouts w !! a) as [h1|] eqn:Hst; [|done].
        rewrite lookup_delete_ne; [done|]. intros <-.
        destruct (Hsto _ _ Hst) as (t1 & Ht1 & Hs1). congruence.
  - pose proof (step_session b w (TimerFires h0)) as HS.
    cbn [sessionAfter step] in *.
    destruct (timers w !! h0) as [t0|] eqn:Ht0; [|done].
    cbn in Hev. assert (Hab : timerSession t0 <> b) by congruence.
    destruct (timerDue t0 <=? clock w); [|done].
    rewrite bool_decide_eq_false_2 in HS by done. cbn [andb] in HS.
    split; [exact HS|].
    destruct (onTimeout_timers (timerSession t0) (withTimers (delete h0) w))
      as (-> & -> & _).
    cbn. split; [by rewrite lookup_delete_ne|].
    intros h t Ht. rewrite lookup_delete_Some. split; [tauto|].
    intros H. split; [|done]. intros <-. congruence.
  - cbn [step]. destruct (children w !! pid) as [c|]; [|done].
    destruct (onClose_frame c out code (withChildren (delete pid) w))
      as (-> & -> & -> & _). done.
  - done.
Qed.

(** ** Requests that throw *)

Lemma pushed_first_throw es :
  existsb entryThrows es = true ->
  exists before e after,
    es = (before ++ e :: after)%list
    /\ existsb entryThrows before = false
    /\ entryThrows e = true
    /\ pushed es = (before ++ [e])%list.
Proof using Type.
  clear env. induction es as [|x es IH]; cbn [existsb pushed]; [discriminate|].
  destruct (entryThrows x) eqn:Hx; cbn [orb].
  - intros _. exists [], x, es. auto.
  - intros H. destruct (IH H) as (before & e & after & -> & Hb & He & Hp).
    exists (x :: before), e, after. cbn [existsb]. rewrite Hx, Hb, Hp. auto.
Qed.

(** X5. A request that throws in the ingestion loop (a [null] entry, a
    [null] stat object) is answered with an error, and what the loop had
    written stays: the entries up to and including the one it threw on
    are in [logs].  Nothing after the loop has happened:
    [lastActivityTime] and [analyzed] are as before, no snapshot is
    written, no analyzer is launched, no timer is armed. *)
Theorem throwing_request_keeps_partial_writes header body w sid :
  sessionKey header body = Some sid ->
  accepted header body = false ->
  let w' := snd (postLog header body w) in
  fst (postLog header body w) = Uncaught
  /\ (exists before e after,
        entriesOf body = (before ++ e :: after)%list
        /\ existsb entryThrows before = false
        /\ entryThrows e = true
        /\ sessionLogs sid w' = (sessionLogs sid w ++ before ++ [e])%list)
  /\ (forall s, sessions w !! sid = Some s ->
        exists s', sessions w' !! sid = Some s'
                   /\ lastActivityTime s' = lastActivityTime s
                   /\ analyzed s' = analyzed s
                   /\ timedOut s' = timedOut s)
  /\ timers w' = timers w
  /\ sessionTimeouts w' = sessionTimeouts w
  /\ children w' = children w
  /\ disk w' = disk w
  /\ console w' = console w.
Proof.
  intros Hk Hacc w'.
  assert (Hthrow : existsb entryThrows (entriesOf body) = true).
  { unfold accepted in Hacc. rewrite Hk in Hacc. by apply negb_false_iff. }
  assert (Hw' : postLog header body w
                = (Uncaught,
                   putSession sid
                     (stateOf (ingest (entriesOf body) (sessionBeforePost sid w)))
                     w)).
  { rewrite (postLog_key _ _ _ _ Hk).
    pose proof (ingest_threw (entriesOf body) (sessionBeforePost sid w)) as Ht.
    rewrite Hthrow in Ht. by destruct (ingest _ _). }
  unfold w'. rewrite Hw'. cbn [fst snd].
  destruct (ingest_fields (entriesOf body) (sessionBeforePost sid w))
    as (L & T & A & Act & _).
  split; [done|]. split.
  - destruct (pushed_first_throw _ Hthrow)
      as (before & e & after & Hes & Hb & He & Hp).
    exists before, e, after. split; [done|]. split; [done|]. split; [done|].
    unfold sessionLogs at 1. cbn. rewrite lookup_insert_eq, L, Hp.
    unfold sessionLogs, sessionBeforePost. by destruct (sessions w !! sid).
  - split; [|done].
    intros s Hs. eexists. cbn. rewrite lookup_insert_eq. split; [done|].
    unfold sessionBeforePost in *. rewrite Hs in *. auto.
Qed.

(** ** Session ids *)

Lemma sessionKey_not_inherited header body sid :
  sessionKey header body = Some sid -> inherited sid = false.
Proof using Type.
  clear env. unfold sessionKey.
  destruct body as [| | | |[|first rest]|]; try discriminate.
  destruct (toString _) as [k|]; [|discriminate].
  destruct (inherited k) eqn:Hi; [discriminate|]. by intros [= <-].
Qed.

Lemma reachable_session_keys w :
  reachable w ->
  forall sid s, sessions w !! sid = Some s -> inherited sid = false.
Proof.
  intros Hr. pattern w. revert w Hr.
  apply reachable_ind; cbv beta; [intros now script | intros w ev Hr IH].
  - intros sid s. cbn. by rewrite lookup_empty.
  - intros sid s. rewrite step_session.
    destruct ev as [header body|h|pid out code|ms]; cbn [sessionAfter];
      try apply IH.
    + case_decide as Hk; [|apply IH]. intros _.
      by eapply sessionKey_not_inherited.
    + destruct (timers w !! h) as [t|]; [|apply IH].
      destruct (_ && _); [|apply IH].
      destruct (sessions w !! sid) as [s0|] eqn:Hs; [|done].
      intros _. by eapply IH.
Qed.

(** X6. No session and no timer is ever stored under a name that every
    object inherits from [Object.prototype] ([constructor], [toString],
    [__proto__], ...): a request under such a name throws before it
    writes anything, whatever the world. *)
Theorem prototype_names_hold_no_session w name :
  reachable w ->
  In name objectPrototypeNames ->
  sessions w !! name = None
  /\ sessionTimeouts w !! name = None
  /\ (forall first rest,
        postLog (Some name) (JArr (first :: rest)) w = (Uncaught, w)).
Proof.
  intros Hr Hin.
  assert (Hinh : inherited name = true).
  { unfold inherited. apply existsb_exists. exists name. split; [done|].
    apply String.eqb_refl. }
  assert (Hsess : sessions w !! name = None).
  { destruct (sessions w !! name) as [s|] eqn:Hs; [|done].
    pose proof (reachable_session_keys w Hr name s Hs). congruence. }
  split; [done|]. split.
  - destruct (sessionTimeouts w !! name) as [h|] eqn:Hst; [|done].
    destruct (reachable_timersOK w Hr) as [_ _ Hsto Hdue].
    destruct (Hsto _ _ Hst) as (t & Ht & Hts).
    destruct (Hdue _ _ Ht) as (s & Hs & _). congruence.
  - intros first rest. unfold postLog.
    assert (Hreq : requestSessionId (Some name) first = JStr name).
    { unfold objectPrototypeNames in Hin. cbn [In] in Hin.
      repeat (destruct Hin as [<-|Hin]; [reflexivity|]). done. }
    rewrite Hreq. cbn [toString default from_option id]. by rewrite Hinh.
Qed.

(** X7. How a request names its session: a non-empty header wins over
    whatever the entries say; an empty header counts as none; without a
    header the [sessionId] of the first entry is used when it is truthy,
    and ["unknown-session"] otherwise.  A numeric [sessionId] and the
    string of its digits name the same session. *)
Theorem session_id_resolution first rest :
  (forall h, h <> EmptyString -> inherited h = false ->
     sessionKey (Some h) (JArr (first :: rest)) = Some h)
  /\ sessionKey (Some EmptyString) (JArr (first :: rest))
     = sessionKey None (JArr (first :: rest))
  /\ (truthyU (firstEntrySessionId first) = false ->
      sessionKey None (JArr (first :: rest)) = Some "unknown-session")
  /\ (forall sid, get "sessionId" first = Some (JStr sid) ->
        sid <> EmptyString -> inherited sid = false ->
        sessionKey None (JArr (first :: rest)) = Some sid)
  /\ (forall digits, get "sessionId" first = Some (JNum digits) ->
        digits <> "0" -> inherited digits = false ->
        sessionKey None (JArr (first :: rest)) = Some digits).
Proof using Type.
  clear env.
  assert (Hne : forall x, x <> EmptyString -> negb (String.eqb x EmptyString) = true).
  { intros x Hx. by destruct (String.eqb_spec x EmptyString). }
  unfold sessionKey, requestSessionId.
  split; [|split; [|split; [|split]]].
  - intros h Hh Hinh. cbn [fmap option_fmap option_map truthyU truthy default].
    rewrite (Hne h Hh). cbn [toString default from_option id]. by rewrite Hinh.
  - reflexivity.
  - intros Hf. cbn [fmap option_fmap option_map truthyU]. by rewrite Hf.
  - intros sid Hget Hid Hinh.
    assert (Hfirst : firstEntrySessionId first = Some (JStr sid)).
    { unfold firstEntrySessionId. destruct first; try discriminate. done. }
    cbn [fmap option_fmap option_map truthyU]. rewrite Hfirst.
    cbn [truthyU truthy default]. rewrite (Hne sid Hid). cbn [toString default from_option id].
    by rewrite Hinh.
  - intros digits Hget Hd Hinh.
    assert (Hfirst : firstEntrySessionId first = Some (JNum digits)).
    { unfold firstEntrySessionId. destruct first; try discriminate. done. }
    cbn [fmap option_fmap option_map truthyU]. rewrite Hfirst.
    cbn [truthyU truthy default].
    destruct (String.eqb_spec digits "0") as [->|_]; [done|].
    cbn [negb toString default from_option id]. by rewrite Hinh.
Qed.

(** ** What is written to disk *)

Lemma finalize_disk sid w :
  disk (finalizeSession sid w)
  = match sessions w !! sid with
    | Some s =>
        if analyzed s then disk w
        else (disk w ++ [WriteAllLogs sid (folderNameOf s (clock w)) (logs s)])%list
    | None => disk w
    end.
Proof.
  unfold finalizeSession.
  destruct (sessions w !! sid) as [s|] eqn:Hs; [|done].
  destruct (analyzed s); [done|].
  rewrite process_disk. cbn. by rewrite lookup_insert_eq.
Qed.


(** Every turn but the exit of a child only adds snapshots to the disk;
    the exit of a child adds a final-result file, or nothing. *)
Lemma step_disk w ev :
  exists added,
    disk (step w ev) = (disk w ++ added)%list
    /\ forall f,
         In f added ->
         isSnapshot f
         \/ exists pid c pyOutput code s v,
              f = WriteFinalResults (childSession c) v
              /\ ev = ChildCloses pid pyOutput code
              /\ children w !! pid = Some c
              /\ sessions w !! childSession c = Some s
              /\ isClosed s || timedOut s = true.
Proof.
  assert (Hnil : exists added,
            disk w = (disk w ++ added)%list
            /\ forall f,
                 In f added ->
                 isSnapshot f
                 \/ exists pid c pyOutput code s v,
                      f = WriteFinalResults (childSession c) v
                      /\ ev = ChildCloses pid pyOutput code
                      /\ children w !! pid = Some c
                      /\ sessions w !! childSession c = Some s
                      /\ isClosed s || timedOut s = true).
  { exists []. rewrite app_nil_r. split; [done | intros ? []]. }
  destruct ev as [header body|h|pid out code|ms]; cbn [step].
  - destruct (sessionKey header body) as [sid0|] eqn:Hk;
      [|by rewrite postLog_no_key].
    rewrite (postLog_key _ _ _ _ Hk).
    destruct (ingest _ _) as [s1|s1]; [|exact Hnil].
    cbv zeta. cbn [snd].
    set (w1 := putSession sid0 (setLastActivity (clock w) s1) w).
    assert (H3 : disk (setupSessionTimeout sid0
                         (processLogsAndAnalyze sid0 true w1))
                 = (disk w ++ [WriteAllLogs sid0
                                 (folderNameOf (setLastActivity (clock w) s1)
                                    (clock w))
                                 (logs s1)])%list).
    { destruct (setup_frame sid0 (processLogsAndAnalyze sid0 true w1))
        as (_ & _ & _ & -> & _).
      rewrite process_disk. unfold w1. cbn. by rewrite lookup_insert_eq. }
    destruct (isClosed s1).
    + rewrite finalize_disk, H3.
      destruct (sessions _ !! sid0) as [s|];
        [destruct (analyzed s)|];
        eexists; (split; [try rewrite <- app_assoc; reflexivity|]);
        intros f Hin; cbn in Hin; left;
        repeat (destruct Hin as [<-|Hin]; [done|]); done.
    + rewrite H3. eexists; split; [reflexivity|].
      intros f [<-|[]]. by left.
  - destruct (timers w !! h) as [t|]; [|exact Hnil].
    destruct (timerDue t <=? clock w); [|exact Hnil].
    unfold onTimeout. cbn [sessions say withTimers].
    change (disk (withSessionTimeouts ?f ?x)) with (disk x).
    destruct (sessions w !! timerSession t) as [s|]; [|exact Hnil].
    rewrite finalize_disk. cbn. rewrite lookup_insert_eq. cbn.
    destruct (analyzed s); [exact Hnil|].
    eexists; split; [reflexivity|].
    intros f [<-|[]]. by left.
  - destruct (children w !! pid) as [c|] eqn:Hc; [|exact Hnil].
    unfold onClose.
    destruct (jsonRegion out) as [region|]; [|exact Hnil].
    destruct (JSON_parse region) as [v0|]; [|exact Hnil].
    cbn [sessions say withChildren].
    destruct (sessions w !! childSession c) as [s|] eqn:Hs; [|exact Hnil].
    destruct (isClosed s || timedOut s) eqn:Hcl; [|exact Hnil].
    eexists; split; [reflexivity|].
    intros f [<-|[]]. right. exists pid, c, out, code, s, v0. auto.
  - exact Hnil.
Qed.

(** X9. A final-result file is only ever written for a session that is
    closed: in every world the server can be in, a final result on disk
    belongs to a stored session whose [isClosed] is true. *)
Theorem final_results_only_for_closed_sessions w sid v :
  reachable w ->
  In (WriteFinalResults sid v) (disk w) ->
  exists s, sessions w !! sid = Some s /\ isClosed s = true.
Proof.
  intros Hr. revert sid v. pattern w. revert w Hr.
  apply reachable_ind; cbv beta; [intros now script | intros w ev Hr IH].
  - intros sid v [].
  - intros sid v Hin.
    destruct (step_disk w ev) as (added & Hd & Hadded).
    rewrite Hd in Hin. apply in_app_or in Hin as [Hin|Hin].
    + destruct (IH sid v Hin) as (s & Hs & Hc).
      destruct (step_grows sid w ev s Hs) as (s' & Hs' & [_ C _ _ _]). eauto.
    + destruct (Hadded _ Hin)
        as [[]|(pid & c & out & code & s & v' & [= -> ->] & -> & _ & Hs & Hcl)].
      destruct (step_grows (childSession c) w (ChildCloses pid out code) s Hs)
        as (s' & Hs' & [_ C _ _ _]).
      exists s'. split; [done|]. apply C.
      destruct (reachable_flagsConsistent w Hr _ s Hs) as [_ HT].
      destruct (isClosed s); [done|]. cbn in Hcl. by destruct (HT Hcl).
Qed.

Lemma step_pyScript w ev : pyScriptExists (step w ev) = pyScriptExists w.
Proof.
  destruct ev as [header body|h|pid out code|ms]; cbn [step].
  - destruct (sessionKey header body) as [sid|] eqn:Hk;
      [|by rewrite postLog_no_key].
    rewrite (postLog_key _ _ _ _ Hk).
    destruct (ingest _ _) as [s1|s1]; [|done].
    cbv zeta. cbn [snd].
    set (w1 := putSession sid (setLastActivity (clock w) s1) w).
    assert (H3 : pyScriptExists (setupSessionTimeout sid
                                   (processLogsAndAnalyze sid true w1))
                 = pyScriptExists w).
    { destruct (setup_frame sid (processLogsAndAnalyze sid true w1))
        as (_ & _ & _ & _ & _ & _ & ->).
      by destruct (process_frame sid true w1) as (_ & _ & _ & _ & _ & ->). }
    destruct (isClosed s1); [|done].
    by destruct (finalize_frame sid (setupSessionTimeout sid
                   (processLogsAndAnalyze sid true w1))) as (_ & _ & _ & _ & ->).
  - destruct (timers w !! h) as [t|]; [|done].
    destruct (timerDue t <=? clock w); [|done].
    unfold onTimeout. cbn [sessions say withTimers].
    change (pyScriptExists (withSessionTimeouts ?f ?x)) with (pyScriptExists x).
    destruct (sessions w !! timerSession t) as [s|]; [|done].
    match goal with |- context [finalizeSession ?a ?x] =>
      destruct (finalize_frame a x) as (_ & _ & _ & _ & ->) end.
    done.
  - destruct (children w !! pid) as [c|]; [|done].
    by destruct (onClose_frame c out code (withChildren (delete pid) w))
      as (_ & _ & _ & _ & _ & _ & _ & ->).
  - done.
Qed.

Lemma process_children_without_script sid b w :
  pyScriptExists w = false ->
  children (processLogsAndAnalyze sid b w) = children w.
Proof.
  intros Hpy. destruct (process_children sid b w) as (-> & _).
  rewrite Hpy. by destruct (sessions w !! sid).
Qed.

Lemma finalize_children_without_script sid w :
  pyScriptExists w = false ->
  children (finalizeSession sid w) = children w.
Proof.
  intros Hpy. unfold finalizeSession.
  destruct (sessions w !! sid) as [s|]; [|done].
  destruct (analyzed s); [done|].
  by rewrite process_children_without_script.
Qed.

Lemma step_children_without_script w ev :
  pyScriptExists w = false -> children w = ∅ -> children (step w ev) = ∅.
Proof.
  intros Hpy Hch.
  destruct ev as [header body|h|pid out code|ms]; cbn [step].
  - destruct (sessionKey header body) as [sid|] eqn:Hk;
      [|by rewrite postLog_no_key].
    rewrite (postLog_key _ _ _ _ Hk).
    destruct (ingest _ _) as [s1|s1]; [|done].
    cbv zeta. cbn [snd].
    set (w1 := putSession sid (setLastActivity (clock w) s1) w).
    assert (H3 : children (setupSessionTimeout sid
                             (processLogsAndAnalyze sid true w1)) = ∅
                 /\ pyScriptExists (setupSessionTimeout sid
                                      (processLogsAndAnalyze sid true w1))
                    = false).
    { destruct (setup_frame sid (processLogsAndAnalyze sid true w1))
        as (_ & -> & _ & _ & _ & _ & ->).
      destruct (process_frame sid true w1) as (_ & _ & _ & _ & _ & ->).
      by rewrite process_children_without_script. }
    destruct H3 as (H3c & H3p).
    destruct (isClosed s1); [|done].
    by rewrite finalize_children_without_script.
  - destruct (timers w !! h) as [t|]; [|done].
    destruct (timerDue t <=? clock w); [|done].
    unfold onTimeout. cbn [sessions say withTimers].
    change (children (withSessionTimeouts ?f ?x)) with (children x).
    destruct (sessions w !! timerSession t) as [s|]; [|done].
    by rewrite finalize_children_without_script.
  - by rewrite Hch, lookup_empty.
  - done.
Qed.

(** X10. When the analyzer script is not installed no analyzer is ever
    launched and nothing but snapshots is ever written, so there is
    never a final result. *)
Theorem without_script_nothing_runs now evs :
  let w := run (initWorld now false) evs in
  children w = ∅
  /\ Forall isSnapshot (disk w).
Proof.
  cbv zeta. induction evs as [|ev evs IH] using rev_ind.
  - split; [done | constructor].
  - rewrite run_snoc. destruct IH as (Hch & Hd).
    assert (Hpy : pyScriptExists (run (initWorld now false) evs) = false).
    { clear. induction evs as [|ev evs IH] using rev_ind; [done|].
      by rewrite run_snoc, step_pyScript. }
    split; [by apply step_children_without_script|].
    destruct (step_disk (run (initWorld now false) evs) ev)
      as (added & -> & Hadded).
    apply Forall_app. split; [done|].
    apply Forall_forall. intros f Hin. apply list_elem_of_In in Hin.
    destruct (Hadded f Hin) as [?|(pid & c & _ & _ & _ & _ & _ & _ & Hc & _)];
      [done|].
    by rewrite Hch, lookup_empty in Hc.
Qed.

(** ** The pure string helpers *)

Lemma sapp_nil_r a : (a ++ EmptyString)%string = a.
Proof using Type.
  clear env.
  induction a as [|x a IH]; rewrite ?sapp_nil, ?sapp_cons; [done | by rewrite IH].
Qed.

Lemma occursIn_cons c x s : occursIn c (String x s) <-> x = c \/ occursIn c s.
Proof using Type. clear env. done. Qed.

Lemma lastIndexOf_last c a :
  lastIndexOf c (a ++ String c EmptyString) = strlen a.
Proof using Type.
  clear env.
  induction a as [|x a IH]; rewrite ?sapp_nil, ?sapp_cons.
  - cbn. by rewrite Ascii.eqb_refl.
  - cbn [lastIndexOf]. rewrite IH, strlen_cons.
    pose proof (strlen_nonneg a).
    destruct (0 <=? strlen a) eqn:E; lia.
Qed.

(** X11. Extracting the region is idempotent: the region handed to
    [JSON.parse] is its own region, so running the extraction on it
    again selects all of it. *)
Theorem jsonRegion_idempotent pyOutput region :
  jsonRegion pyOutput = Some region ->
  jsonRegion region = Some region.
Proof using Type.
  clear env. intros H.
  destruct (jsonRegion_some _ _ H) as (_ & middle & _ & _ & Hreg & _ & _).
  clear H. subst region.
  unfold jsonRegion.
  assert (H1 : indexOf "{" ("{" ++ middle ++ "}") = 0) by done.
  assert (H2 : lastIndexOf "}" ("{" ++ middle ++ "}") = 1 + strlen middle).
  { change ("{" ++ middle ++ "}")%string
      with (String "{" middle ++ String "}" EmptyString)%string.
    by rewrite lastIndexOf_last, strlen_cons. }
  rewrite H1, H2. pose proof (strlen_nonneg middle).
  destruct (0 <=? 1 + strlen middle) eqn:E1; [|lia].
  destruct (0 <? 1 + strlen middle) eqn:E2; [|lia].
  cbn [Z.leb andb]. f_equal.
  unfold jsSubstring, clampIndex.
  assert (HL : strlen ("{" ++ middle ++ "}") = 2 + strlen middle).
  { change ("{" ++ middle ++ "}")%string with (String "{" (middle ++ "}"))%string.
    rewrite strlen_cons, strlen_app. unfold strlen at 2. cbn. lia. }
  rewrite HL.
  replace (Z.min (Z.max 0 0) (2 + strlen middle)) with 0 by lia.
  replace (Z.min (Z.max (1 + strlen middle + 1) 0) (2 + strlen middle))
    with (2 + strlen middle) by lia.
  replace (Z.min 0 (2 + strlen middle)) with 0 by lia.
  replace (Z.max 0 (2 + strlen middle) - 0) with (2 + strlen middle) by lia.
  rewrite <- HL. unfold strlen. rewrite Nat2Z.id. cbn [Z.to_nat].
  rewrite <- (sapp_nil_r ("{" ++ middle ++ "}")) at 2.
  by rewrite substring_take.
Qed.

Lemma splitOn_nonempty sep s : splitOn sep s <> [].
Proof using Type.
  clear env. destruct s as [|a s]; [done|]. cbn [splitOn].
  destruct (Ascii.eqb a sep); [done|]. by destruct (splitOn sep s).
Qed.

Lemma splitOn_absent sep s : ~ occursIn sep s -> splitOn sep s = [s].
Proof using Type.
  clear env.
  induction s as [|a s IH]; [done|]. intros Hn. cbn [splitOn].
  destruct (Ascii.eqb a sep) eqn:E.
  - apply Ascii.eqb_eq in E. exfalso. apply Hn. by left.
  - rewrite IH; [done|]. intros Hin. apply Hn. by right.
Qed.

Lemma splitOn_field sep a b :
  ~ occursIn sep a ->
  splitOn sep (a ++ String sep b) = a :: splitOn sep b.
Proof using Type.
  clear env.
  induction a as [|x a IH]; rewrite ?sapp_nil, ?sapp_cons; intros Hn.
  - cbn [splitOn]. by rewrite Ascii.eqb_refl.
  - cbn [splitOn]. destruct (Ascii.eqb x sep) eqn:E.
    + apply Ascii.eqb_eq in E. exfalso. apply Hn. by left.
    + rewrite IH; [done|]. intros Hin. apply Hn. by right.
Qed.

Lemma splitOn_head sep a b :
  ~ occursIn sep a ->
  hd EmptyString (splitOn sep (a ++ b))
  = (a ++ hd EmptyString (splitOn sep b))%string.
Proof using Type.
  clear env.
  induction a as [|x a IH]; rewrite ?sapp_nil, ?sapp_cons; intros Hn; [done|].
  cbn [splitOn]. destruct (Ascii.eqb x sep) eqn:E.
  - apply Ascii.eqb_eq in E. exfalso. apply Hn. by left.
  - assert (Hn' : ~ occursIn sep a) by (intros Hin; apply Hn; by right).
    specialize (IH Hn'). destruct (splitOn sep (a ++ b)) as [|p ps].
    + cbn in IH. cbn. by rewrite <- IH.
    + cbn in IH. cbn. by rewrite IH.
Qed.

Lemma occursIn_app c a b : occursIn c (a ++ b) <-> occursIn c a \/ occursIn c b.
Proof using Type.
  clear env. unfold occursIn.
  induction a as [|x a IH]; rewrite ?sapp_nil, ?sapp_cons.
  - cbn. tauto.
  - cbn [list_ascii_of_string In]. rewrite IH. tauto.
Qed.

(** X12. On a timestamp [<date>T<hh>:<mm>:<ss><tail>] the helper returns
    [<hh>_<mm>_<ss>]: the date, the fraction and the zone are dropped.
    The date holds no 'T', the three fields hold none of the four
    separators, and the tail is empty or starts with one of them. *)
Theorem extractTimeFromISO_reads_the_time date hh mm ss tail now :
  ~ occursIn "T" date ->
  timeField hh -> timeField mm -> timeField ss ->
  timeTail tail ->
  extractTimeFromISO
    (JStr (date ++ "T" ++ hh ++ ":" ++ mm ++ ":" ++ ss ++ tail)) now
  = (hh ++ "_" ++ mm ++ "_" ++ ss)%string.
Proof.
  intros Hd Hh Hm Hs Ht. unfold extractTimeFromISO.
  change (date ++ "T" ++ hh ++ ":" ++ mm ++ ":" ++ ss ++ tail)%string
    with (date ++ String "T" (hh ++ String ":" (mm ++ String ":" (ss ++ tail))))%string.
  rewrite (splitOn_field "T" date _ Hd).
  set (time := (hh ++ String ":" (mm ++ String ":" ss))%string).
  assert (Htime : (hh ++ String ":" (mm ++ String ":" (ss ++ tail)))%string
                  = (time ++ tail)%string).
  { unfold time. by rewrite sapp_assoc, sapp_cons, sapp_assoc, sapp_cons. }
  rewrite Htime.
  assert (HnT : forall c, In c ["T"; "Z"]%char -> ~ occursIn c time).
  { intros c Hc. unfold time.
    rewrite occursIn_app, occursIn_cons, occursIn_app, occursIn_cons.
    intros [H|[H|[H|[H|H]]]].
    - apply (Hh c); [|done]. destruct Hc as [<-|[<-|[]]]; cbn; auto.
    - by destruct Hc as [<-|[<-|[]]].
    - apply (Hm c); [|done]. destruct Hc as [<-|[<-|[]]]; cbn; auto.
    - by destruct Hc as [<-|[<-|[]]].
    - apply (Hs c); [|done]. destruct Hc as [<-|[<-|[]]]; cbn; auto. }
  destruct (splitOn "T" (time ++ tail)) as [|afterT rest] eqn:E;
    [by apply splitOn_nonempty in E|].
  pose proof (splitOn_head "T" time tail (HnT _ (or_introl eq_refl))) as HT.
  rewrite E in HT. cbn [hd] in HT. subst afterT.
  rewrite (splitOn_head "Z" time _ (HnT _ (or_intror (or_introl eq_refl)))).
  set (q := hd EmptyString
              (splitOn "Z" (hd EmptyString (splitOn "T" tail)))).
  unfold time. rewrite sapp_assoc, sapp_cons.
  rewrite (splitOn_field ":" hh); [|apply Hh; cbn; auto].
  rewrite sapp_assoc, sapp_cons.
  rewrite (splitOn_field ":" mm); [|apply Hm; cbn; auto].
  pose proof (splitOn_head ":" ss q) as HS.
  destruct (splitOn ":" (ss ++ q)) as [|ssMillis rest'] eqn:E';
    [by apply splitOn_nonempty in E'|].
  cbn [hd] in HS. rewrite HS; [|apply Hs; cbn; auto].
  rewrite splitOn_head; [|apply Hs; cbn; auto].
  assert (Hq : hd EmptyString
                 (splitOn "." (hd EmptyString (splitOn ":" q))) = EmptyString).
  { unfold q. clear -Ht. destruct tail as [|c tail]; [done|].
    cbn in Ht. destruct Ht as [<-|[<-|[<-|[<-|[]]]]]; cbn.
    - done.
    - destruct (splitOn "T" tail); done.
    - destruct (splitOn "T" tail) as [|p ps]; cbn.
      + done.
      + destruct (splitOn "Z" p); done.
    - destruct (splitOn "T" tail) as [|p ps]; cbn.
      + done.
      + destruct (splitOn "Z" p) as [|p' ps']; cbn; [done|].
        destruct (splitOn ":" p') as [|p'' ps'']; done. }
  rewrite Hq, sapp_nil_r. done.
Qed.

(** X13. A start time that is no string, or a string without 'T', makes
    the helper fall back to the date stamp of the current time. *)
Theorem extractTimeFromISO_falls_back v now :
  (forall iso, v = JStr iso -> ~ occursIn "T" iso) ->
  extractTimeFromISO v now = isoStamp now.
Proof.
  intros H. destruct v as [| | |iso| |]; try done.
  unfold extractTimeFromISO. by rewrite (splitOn_absent "T" iso (H _ eq_refl)).
Qed.

(** ** The health endpoint *)

Lemma sessionSummary_lookup w id :
  sessionSummary w !! id
  = match sessions w !! id with
    | Some s =>
        if analyzed s || String.eqb id "__proto__" then None
        else Some (summarize w id s)
    | None => None
    end.
Proof using Type.
  clear env. unfold sessionSummary. rewrite map_lookup_imap.
  by destruct (sessions w !! id).
Qed.

(** X14. The health answer lists exactly the sessions that were never
    finalized, and a session that has left the list never comes back,
    whatever is posted under its name afterwards. *)
Theorem health_lists_sessions_until_finalized ts w id :
  reachable w ->
  (forall e,
      healthSessions (snd (health ts w)) !! id = Some e <->
      exists s, sessions w !! id = Some s
                /\ finalizations id w = 0%nat
                /\ e = summarize w id s)
  /\ (is_Some (sessions w !! id) ->
      healthSessions (snd (health ts w)) !! id = None ->
      forall ts' evs,
        healthSessions (snd (health ts' (run w evs))) !! id = None).
Proof.
  intros Hr. cbn [health snd healthSessions]. split.
  - intros e. rewrite sessionSummary_lookup, (reachable_finalizations w id Hr).
    unfold analyzedIn.
    destruct (sessions w !! id) as [s|] eqn:Hs.
    + assert (Hp : String.eqb id "__proto__" = false).
      { pose proof (reachable_session_keys w Hr id s Hs) as Hi.
        destruct (String.eqb id "__proto__") eqn:E; [|done].
        apply String.eqb_eq in E as ->. done. }
      rewrite Hp, orb_false_r. destruct (analyzed s); split.
      * done.
      * by intros (s' & [= <-] & ? & _).
      * intros [= <-]. eauto.
      * by intros (s' & [= <-] & _ & ->).
    + split; [done | by intros (s' & ? & _)].
  - intros [s Hs] Hnone ts' evs. rewrite sessionSummary_lookup in *.
    rewrite Hs in Hnone.
    assert (Hp : String.eqb id "__proto__" = false).
    { pose proof (reachable_session_keys w Hr id s Hs) as Hi.
      destruct (String.eqb id "__proto__") eqn:E; [|done].
      apply String.eqb_eq in E as ->. done. }
    rewrite Hp, orb_false_r in Hnone.
    destruct (analyzed s) eqn:Ha; [|done].
    destruct (run_grows evs id w s Hs) as (s' & -> & [_ _ _ G _]).
    by rewrite (G Ha).
Qed.





(** ** When a session is closed *)

Lemma isStr_stats_not_state_change o :
  isStr "stats" o = true -> isStr "state_change" o = false.
Proof using Type.
  clear env. destruct o as [[| | |st| |]|]; cbn; try done.
  intros H. apply String.eqb_eq in H. by subst st.
Qed.

Lemma ingestEntry_closed e s :
  isClosed (stateOf (ingestEntry e s)) = isClosed s || closesSession e.
Proof using Type.
  clear env. unfold ingestEntry, closesSession.
  destruct e as [| | | | |props]; try (cbn; by rewrite ?orb_false_r).
  rewrite stateOf_andThen.
  destruct (isStr "stats" (get "type" (JObj props))) eqn:Hst; cbn [andb].
  - rewrite (isStr_stats_not_state_change _ Hst). cbn [andb].
    rewrite orb_false_r.
    destruct (truthyU (get "rawStats" (JObj props))).
    + match goal with
      | |- context [scanStats ?o ?x] =>
          destruct (scanStats_same o x) as [_ C _ _ _];
          destruct (threw (scanStats o x)); cbn [stateOf]; by rewrite C
      end.
    + done.
  - cbn [threw stateOf].
    destruct (isStr "state_change" _ && _); cbn; by rewrite ?orb_true_r, ?orb_false_r.
Qed.

Lemma ingest_closed es : forall s,
  isClosed (stateOf (ingest es s))
  = isClosed s || existsb closesSession (pushed es).
Proof using Type.
  clear env.
  induction es as [|e es IH]; intros s; cbn [ingest pushed existsb stateOf].
  - by rewrite orb_false_r.
  - rewrite stateOf_andThen, ingestEntry_threw.
    destruct (entryThrows e); cbn [existsb].
    + by rewrite ingestEntry_closed, orb_false_r.
    + by rewrite IH, ingestEntry_closed, orb_assoc.
Qed.

(** X17. A session is closed exactly when a closing state change is
    among its logs or its inactivity timer has fired. *)
Theorem closed_iff_closing_entry_or_timeout w sid s :
  reachable w ->
  sessions w !! sid = Some s ->
  isClosed s = timedOut s || existsb closesSession (logs s).
Proof.
  intros Hr. revert sid s. pattern w. revert w Hr.
  apply reachable_ind; cbv beta; [intros now script | intros w ev Hr IH].
  - intros sid s. cbn. by rewrite lookup_empty.
  - intros sid s. rewrite step_session.
    destruct ev as [header body|h|pid out code|ms]; cbn [sessionAfter];
      try exact (IH sid s).
    + case_decide as Hk; [|exact (IH sid s)]. intros [= <-].
      assert (H0 : isClosed (sessionBeforePost sid w)
                   = timedOut (sessionBeforePost sid w)
                     || existsb closesSession (logs (sessionBeforePost sid w))).
      { unfold sessionBeforePost.
        destruct (sessions w !! sid) as [s0|] eqn:Hs; [by apply (IH sid s0) | done]. }
      pose proof (ingest_closed (entriesOf body) (sessionBeforePost sid w)) as C.
      destruct (ingest_fields (entriesOf body) (sessionBeforePost sid w))
        as (L & T & _).
      assert (H1 : isClosed (stateOf (ingest (entriesOf body)
                                        (sessionBeforePost sid w)))
                   = timedOut (stateOf (ingest (entriesOf body)
                                          (sessionBeforePost sid w)))
                     || existsb closesSession
                          (logs (stateOf (ingest (entriesOf body)
                                            (sessionBeforePost sid w))))).
      { rewrite C, L, T, H0, existsb_app. by rewrite orb_assoc. }
      destruct (ingest _ _) as [s1|s1]; cbn [stateOf sessionAfterPost] in *;
        [|done].
      by destruct (isClosed s1 && negb (analyzed s1)).
    + destruct (timers w !! h) as [t|]; [|exact (IH sid s)].
      destruct ((timerDue t <=? clock w) && bool_decide (timerSession t = sid));
        [|exact (IH sid s)].
      destruct (sessions w !! sid) as [s0|]; [|done].
      by intros [= <-].
Qed.

(** ** server.js *)

Lemma basic_no_timers w : Basic.reachable w -> timers w = ∅.
Proof.
  intros Hr. pattern w. revert w Hr.
  apply basic_reachable_ind; cbv beta; [done | intros w ev Hr IH].
  destruct ev as [header body|h|pid out code|ms]; cbn [Basic.step]; try done.
  - destruct (sessionKey header body) as [k|] eqn:Hk;
      [|by rewrite basic_postLog_no_key].
    rewrite (basic_postLog_key _ _ _ _ Hk).
    destruct (ingest _ _) as [s1|s1]; [|done].
    cbv zeta. cbn [snd]. destruct (isClosed s1); [|done].
    unfold Basic.finalizeSession.
    destruct (sessions _ !! k) as [s2|]; [|done].
    by destruct (analyzed s2).
  - destruct (children w !! pid); [|done].
    unfold Basic.onClose. by destruct (JSON_parse out).
Qed.

(** X18. In the first server a session is closed exactly when a closing
    state change is among its logs, and none is ever marked timed out:
    no timer is ever pending, so without such an entry a session stays
    open however long it is silent. *)
Theorem basic_closed_iff_closing_entry w sid s :
  Basic.reachable w ->
  sessions w !! sid = Some s ->
  isClosed s = existsb closesSession (logs s)
  /\ timedOut s = false
  /\ timers w = ∅.
Proof.
  intros Hr Hs. split; [|split]; [| |by apply basic_no_timers].
  - revert sid s Hs. pattern w. revert w Hr.
    apply basic_reachable_ind; cbv beta; [intros now script | intros w ev Hr IH].
    + intros sid s. cbn. by rewrite lookup_empty.
    + intros sid s. rewrite basic_step_session.
      destruct ev as [header body|h|pid out code|ms]; cbn [basicSessionAfter];
        try exact (IH sid s).
      case_decide as Hk; [|exact (IH sid s)]. intros [= <-].
      assert (H0 : isClosed (Basic.sessionBeforePost sid w)
                   = existsb closesSession
                       (logs (Basic.sessionBeforePost sid w))).
      { unfold Basic.sessionBeforePost.
        destruct (sessions w !! sid) as [s0|] eqn:Hs; [by apply (IH sid s0) | done]. }
      pose proof (ingest_closed (entriesOf body)
                    (Basic.sessionBeforePost sid w)) as C.
      destruct (ingest_fields (entriesOf body) (Basic.sessionBeforePost sid w))
        as (L & _).
      rewrite H0, <- existsb_app, <- L in C.
      destruct (ingest _ _) as [s1|s1];
        cbn [stateOf Basic.sessionAfterPost] in *; [|done].
      by destruct (isClosed s1 && negb (analyzed s1)).
  - revert sid s Hs. pattern w. revert w Hr.
    apply basic_reachable_ind; cbv beta; [intros now script | intros w ev Hr IH].
    + intros sid s. cbn. by rewrite lookup_empty.
    + intros sid s. rewrite basic_step_session.
      destruct ev as [header body|h|pid out code|ms]; cbn [basicSessionAfter];
        try exact (IH sid s).
      case_decide as Hk; [|exact (IH sid s)]. intros [= <-].
      assert (H0 : timedOut (Basic.sessionBeforePost sid w) = false).
      { unfold Basic.sessionBeforePost.
        destruct (sessions w !! sid) as [s0|] eqn:Hs; [by apply (IH sid s0) | done]. }
      destruct (ingest_fields (entriesOf body) (Basic.sessionBeforePost sid w))
        as (_ & T & _).
      rewrite H0 in T.
      destruct (ingest _ _) as [s1|s1];
        cbn [stateOf Basic.sessionAfterPost] in *; [|done].
      by destruct (isClosed s1 && negb (analyzed s1)).
Qed.

(** What a request with a session key does to the world of the first
    server, in one expression. *)
Lemma basic_post_world header body w k :
  sessionKey header body = Some k ->
  let o := ingest (entriesOf body) (Basic.sessionBeforePost k w) in
  let s1 := stateOf o in
  Basic.step w (PostLog header body)
  = if threw o then putSession k s1 w
    else
      let w2 := writeFile (WriteRawLogs k (isoStamp (clock w)) (entriesOf body))
                  (putSession k s1 w) in
      if isClosed s1 && negb (analyzed s1)
      then spawn (mkChild k false)
             (say (MsgFinalizing k)
                (writeFile
                   (WriteAllLogs k
                      (if truthy (earliestStatsStartTime s1)
                       then extractTimeFromISO (earliestStatsStartTime s1)
                              (clock w)
                       else isoStamp (clock w))
                      (logs s1))
                   (putSession k (setAnalyzed s1) w2)))
      else w2.
Proof.
  intros Hk. cbv zeta. cbn [Basic.step].
  rewrite (basic_postLog_key _ _ _ _ Hk).
  destruct (ingest _ _) as [s1|s1]; cbn [threw stateOf snd]; [|done].
  cbv zeta. destruct (isClosed s1); cbn [andb]; [|done].
  unfold Basic.finalizeSession.
  cbn [sessions writeFile putSession withSessions].
  rewrite lookup_insert_eq. by destruct (analyzed s1).
Qed.


Lemma snapshots_snoc sid d f :
  snapshots sid (d ++ [f])
  = (snapshots sid d ++ option_list (snapshotOf sid f))%list.
Proof using Type.
  clear env. unfold snapshots. rewrite omap_app. cbn.
  by destruct (snapshotOf sid f).
Qed.



Lemma inFlight_delete sid pid w :
  (inFlight sid (withChildren (delete pid) w) <= inFlight sid w)%nat.
Proof using Type.
  clear env. unfold inFlight. cbn [children withChildren].
  rewrite map_filter_delete, map_size_delete.
  destruct (filter _ (children w) !! pid); cbn [id]; lia.
Qed.

Lemma basic_reachable_snapshotsOK sid w :
  Basic.reachable w -> basicSnapshotsOK sid w.
Proof.
  intros Hr. pattern w. revert w Hr.
  apply basic_reachable_ind; cbv beta; [intros now script | intros w ev Hr IH].
  - split.
    + intros pid c. cbn. by rewrite lookup_empty.
    + unfold analyzedIn. cbn. by rewrite lookup_empty.
    + intros l [].
    + unfold inFlight. cbn. by rewrite map_filter_empty, map_size_empty.
  - destruct IH as [Hf Hc Hp Hi].
    destruct ev as [header body|h|pid out code|ms].
    + destruct (sessionKey header body) as [k|] eqn:Hk;
        [|cbn [Basic.step]; rewrite basic_postLog_no_key by done; by split].
      rewrite (basic_post_world _ _ _ _ Hk). cbv zeta.
      destruct (ingest_fields (entriesOf body) (Basic.sessionBeforePost k w))
        as (L & _ & A & _).
      set (s1 := stateOf (ingest (entriesOf body) (Basic.sessionBeforePost k w)))
        in *.
      assert (Hb : logs (Basic.sessionBeforePost k w) = sessionLogs k w
                   /\ analyzed (Basic.sessionBeforePost k w) = analyzedIn k w).
      { unfold Basic.sessionBeforePost, sessionLogs, analyzedIn.
        by destruct (sessions w !! k). }
      destruct Hb as (Hb1 & Hb2). rewrite Hb1 in L. rewrite Hb2 in A.
      assert (Hput : forall s2,
                 logs s2 = logs s1 -> analyzed s2 = analyzed s1 ->
                 basicSnapshotsOK sid (putSession k s2 w)).
      { intros s2 HL HA. split.
        - exact Hf.
        - change (disk (putSession k s2 w)) with (disk w).
          unfold analyzedIn. cbn [sessions putSession withSessions].
          destruct (decide (k = sid)) as [->|Hne].
          + rewrite lookup_insert_eq, HA, A. exact Hc.
          + rewrite lookup_insert_ne by done. exact Hc.
        - change (disk (putSession k s2 w)) with (disk w).
          intros l Hl. destruct (Hp l Hl) as (rest & Hrest).
          unfold sessionLogs. cbn [sessions putSession withSessions].
          destruct (decide (k = sid)) as [->|Hne].
          + rewrite lookup_insert_eq, HL, L, Hrest, <- app_assoc. eauto.
          + rewrite lookup_insert_ne by done. eauto.
        - exact Hi. }
      destruct (threw _); [by apply Hput|].
      assert (H2 : basicSnapshotsOK sid
                     (writeFile
                        (WriteRawLogs k (isoStamp (clock w)) (entriesOf body))
                        (putSession k s1 w))).
      { destruct (Hput s1 eq_refl eq_refl) as [Hf2 Hc2 Hp2 Hi2].
        split; cbn [disk writeFile] in *; rewrite ?snapshots_snoc;
          cbn [snapshotOf option_list]; rewrite ?app_nil_r; done. }
      destruct (isClosed s1 && negb (analyzed s1)) eqn:Hfin; [|exact H2].
      apply andb_true_iff in Hfin as [_ Hna]. apply negb_true_iff in Hna.
      rewrite Hna in A. symmetry in A.
      destruct (decide (k = sid)) as [->|Hne].
      * rewrite A in Hc.
        assert (Hnil : snapshots sid (disk w) = []).
        { by destruct (snapshots sid (disk w)). }
        split.
        -- intros pid c. cbn [children spawn say writeFile putSession
                              withSessions nextChild].
           intros [[<- _]|[_ Hin]]%lookup_insert_Some; [lia|].
           apply Hf in Hin. lia.
        -- cbn [disk spawn say writeFile putSession withSessions].
           rewrite !snapshots_snoc. cbn [snapshotOf option_list].
           rewrite String.eqb_refl, app_nil_r, Hnil. cbn.
           unfold analyzedIn. cbn. by rewrite lookup_insert_eq.
        -- cbn [disk spawn say writeFile putSession withSessions].
           rewrite !snapshots_snoc. cbn [snapshotOf option_list].
           rewrite String.eqb_refl, app_nil_r, Hnil. cbn.
           intros l [<-|[]]. exists []. unfold sessionLogs. cbn.
           by rewrite lookup_insert_eq, app_nil_r.
        -- rewrite inFlight_spawn.
           ++ rewrite decide_True by done.
              cbn [disk spawn say writeFile putSession withSessions].
              rewrite !snapshots_snoc. cbn [snapshotOf option_list].
              rewrite String.eqb_refl, app_nil_r, Hnil. cbn.
              rewrite Hnil in Hi. cbn in Hi.
              change (inFlight sid (say ?m ?x)) with (inFlight sid x).
              change (inFlight sid (writeFile ?m ?x)) with (inFlight sid x).
              change (inFlight sid (putSession ?m ?s ?x)) with (inFlight sid x).
              change (inFlight sid (writeFile ?m ?x)) with (inFlight sid x).
              change (inFlight sid (putSession ?m ?s ?x)) with (inFlight sid x).
              lia.
           ++ exact Hf.
      * destruct H2 as [Hf2 Hc2 Hp2 Hi2].
        assert (Hsnap : snapshots sid
                          (disk w ++
                           [WriteRawLogs k (isoStamp (clock w)) (entriesOf body)]
                           ++ [WriteAllLogs k
                                 (if truthy (earliestStatsStartTime s1)
                                  then extractTimeFromISO
                                         (earliestStatsStartTime s1) (clock w)
                                  else isoStamp (clock w)) (logs s1)])
                        = snapshots sid (disk w)).
        { rewrite app_assoc, !snapshots_snoc. cbn [snapshotOf option_list].
          assert (String.eqb k sid = false) as -> by (by apply String.eqb_neq).
          by rewrite !app_nil_r. }
        split.
        -- intros pid c. cbn [children spawn say writeFile putSession
                              withSessions nextChild].
           intros [[<- _]|[_ Hin]]%lookup_insert_Some; [lia|].
           apply Hf in Hin. lia.
        -- cbn [disk spawn say writeFile putSession withSessions].
           rewrite <- app_assoc, Hsnap.
           unfold analyzedIn. cbn [sessions spawn say writeFile putSession
                                   withSessions].
           rewrite !lookup_insert_ne by done. exact Hc.
        -- cbn [disk spawn say writeFile putSession withSessions].
           rewrite <- app_assoc, Hsnap.
           unfold sessionLogs. cbn [sessions spawn say writeFile putSession
                                    withSessions].
           rewrite !lookup_insert_ne by done. exact Hp.
        -- rewrite inFlight_spawn by exact Hf.
           rewrite decide_False by done.
           cbn [disk spawn say writeFile putSession withSessions].
           rewrite <- app_assoc, Hsnap. exact Hi.
    + by split.
    + cbn [Basic.step]. destruct (children w !! pid) as [c|] eqn:Hc'; [|by split].
      assert (Hw : forall x,
                   disk x = disk w -> sessions x = sessions w ->
                   children x = delete pid (children w) ->
                   nextChild x = nextChild w ->
                   basicSnapshotsOK sid x).
      { intros x Hd Hs Hch Hn.
        split.
        - intros p c0. rewrite Hch, Hn. intros Hin.
          apply lookup_delete_Some in Hin as [_ Hin]. by apply Hf in Hin.
        - unfold analyzedIn. rewrite Hd, Hs. exact Hc.
        - unfold sessionLogs. rewrite Hd, Hs. exact Hp.
        - unfold inFlight. rewrite Hd, Hch.
          pose proof (inFlight_delete sid pid w) as Hle.
          unfold inFlight in Hle, Hi. cbn [children withChildren] in Hle. lia. }
      unfold Basic.onClose.
      destruct (JSON_parse out); by apply Hw.
    + by split.
Qed.

(** X20. The first server writes the combined logs of a session once,
    when the session is finalized, and launches one analyzer for them:
    there is one file exactly for an analyzed session, it holds a prefix
    of the logs in memory (entries that arrive later are stored but
    never written), and at most one analyzer of the session is running. *)
Theorem basic_one_snapshot_per_session w sid :
  Basic.reachable w ->
  length (snapshots sid (disk w)) = (if analyzedIn sid w then 1 else 0)%nat
  /\ (forall l,
        In l (snapshots sid (disk w)) ->
        exists rest, sessionLogs sid w = (l ++ rest)%list)
  /\ (inFlight sid w <= 1)%nat.
Proof.
  intros Hr. destruct (basic_reachable_snapshotsOK sid w Hr) as [_ Hc Hp Hi].
  split; [done|]. split; [done|].
  rewrite Hc in Hi. destruct (analyzedIn sid w); lia.
Qed.

(** ** Snapshots and the logs in memory *)

(** Every snapshot a turn writes for a session holds the logs the
    session has after the turn. *)
Lemma step_snapshots sid w ev :
  exists n,
    snapshots sid (disk (step w ev))
    = (snapshots sid (disk w) ++ repeat (sessionLogs sid (step w ev)) n)%list.
Proof.
  assert (Hnil : forall x, disk x = disk w ->
            exists n, snapshots sid (disk x)
                      = (snapshots sid (disk w)
                         ++ repeat (sessionLogs sid x) n)%list).
  { intros x ->. exists 0%nat. by rewrite app_nil_r. }
  unfold sessionLogs. rewrite step_session. 
  destruct ev as [header body|h|pid out code|ms]; cbn [step sessionAfter].
  - destruct (sessionKey header body) as [k|] eqn:Hk.
    2:{ rewrite postLog_no_key by done. case_decide; [done|].
        exists 0%nat. by rewrite app_nil_r. }
    rewrite (postLog_key _ _ _ _ Hk).
    destruct (ingest _ _) as [s1|s1] eqn:Hing; cbn [sessionAfterPost].
    2:{ exists 0%nat. by rewrite app_nil_r. }
    cbv zeta. cbn [snd].
    set (w1 := putSession k (setLastActivity (clock w) s1) w).
    assert (H3 : disk (setupSessionTimeout k (processLogsAndAnalyze k true w1))
                 = (disk w ++ [WriteAllLogs k
                                 (folderNameOf (setLastActivity (clock w) s1)
                                    (clock w))
                                 (logs s1)])%list
                 /\ sessions (setupSessionTimeout k
                                (processLogsAndAnalyze k true w1)) !! k
                    = Some (setLastActivity (clock w) s1)).
    { destruct (setup_frame k (processLogsAndAnalyze k true w1))
        as (-> & _ & _ & -> & _).
      destruct (process_frame k true w1) as (-> & _).
      rewrite process_disk. unfold w1. cbn. by rewrite lookup_insert_eq. }
    destruct H3 as (H3d & H3s).
    assert (Hlogs : forall b : bool,
              logs (if b then setAnalyzed (setLastActivity (clock w) s1)
                    else setLastActivity (clock w) s1) = logs s1).
    { by intros []. }
    case_decide as Hd.
    + injection Hd as ->. rewrite Hing. cbn [sessionAfterPost].
      cbv beta iota. rewrite Hlogs.
      destruct (isClosed s1); cbn [andb].
      * rewrite finalize_disk, H3s, H3d. cbn [analyzed setLastActivity logs].
        destruct (analyzed s1); cbn [negb].
        -- exists 1%nat. rewrite snapshots_snoc. cbn.
           by rewrite String.eqb_refl.
        -- exists 2%nat. rewrite !snapshots_snoc. cbn.
           rewrite String.eqb_refl. cbn. by rewrite <- app_assoc.
      * exists 1%nat. rewrite H3d, snapshots_snoc. cbn.
        by rewrite String.eqb_refl.
    + assert (He : String.eqb k sid = false).
      { apply String.eqb_neq. congruence. }
      exists 0%nat. rewrite app_nil_r.
      destruct (isClosed s1).
      * rewrite finalize_disk, H3s, H3d.
        destruct (analyzed _); rewrite !snapshots_snoc; cbn;
          rewrite He; cbn; by rewrite ?app_nil_r.
      * rewrite H3d, snapshots_snoc. cbn. rewrite He. cbn.
        by rewrite app_nil_r.
  - destruct (timers w !! h) as [t|] eqn:Ht;
      [|exists 0%nat; by rewrite app_nil_r].
    destruct (timerDue t <=? clock w); cbn [andb];
      [|exists 0%nat; by rewrite app_nil_r].
    unfold onTimeout. cbn [sessions say withTimers].
    change (disk (withSessionTimeouts ?f ?x)) with (disk x).
    destruct (sessions w !! timerSession t) as [s|] eqn:Hs.
    2:{ exists 0%nat. by rewrite app_nil_r. }
    rewrite finalize_disk. cbn [sessions putSession withSessions say withTimers].
    rewrite lookup_insert_eq.
    cbn [analyzed setClosed setTimedOut logs disk say putSession withSessions
         withTimers].
    case_bool_decide as Hd.
    + subst sid. rewrite Hs. cbn [fmap option_fmap option_map].
      cbv beta iota. cbn [logs setAnalyzed setClosed setTimedOut].
      destruct (analyzed s).
      * exists 0%nat. by rewrite app_nil_r.
      * exists 1%nat. rewrite snapshots_snoc. cbn [snapshotOf option_list].
        by rewrite String.eqb_refl.
    + assert (He : String.eqb (timerSession t) sid = false).
      { by apply String.eqb_neq. }
      exists 0%nat. rewrite app_nil_r.
      destruct (analyzed s); [done|].
      rewrite snapshots_snoc. cbn [snapshotOf option_list]. rewrite He.
      by rewrite app_nil_r.
  - exists 0%nat. rewrite app_nil_r.
    destruct (children w !! pid) as [c|] eqn:Hc; [|done].
    unfold onClose.
    destruct (jsonRegion out) as [region|]; [|done].
    destruct (JSON_parse region) as [v0|]; [|done].
    cbn [sessions say withChildren].
    destruct (sessions w !! childSession c) as [s|] eqn:Hs; [|done].
    destruct (isClosed s || timedOut s) eqn:Hcl; [|done].
    cbn [disk say writeFile]. rewrite snapshots_snoc.
    cbn [snapshotOf option_list]. by rewrite app_nil_r.
  - exists 0%nat. by rewrite app_nil_r.
Qed.

(** X21. Every snapshot on disk holds a prefix of the logs the server
    has in memory for the session: a snapshot never holds an entry the
    session does not have, and the entries keep their order. *)
Theorem snapshots_are_prefixes_of_the_logs w sid l :
  reachable w ->
  In l (snapshots sid (disk w)) ->
  exists rest, sessionLogs sid w = (l ++ rest)%list.
Proof.
  intros Hr. revert l. pattern w. revert w Hr.
  apply reachable_ind; cbv beta; [intros now script | intros w ev Hr IH].
  - intros l [].
  - intros l Hin.
    destruct (step_snapshots sid w ev) as (n & Hn).
    rewrite Hn in Hin. apply in_app_or in Hin as [Hin|Hin].
    + destruct (IH l Hin) as (rest & Hrest).
      rewrite step_logs, Hrest, <- app_assoc. eauto.
    + apply repeat_spec in Hin as ->. exists []. by rewrite app_nil_r.
Qed.

(** * The userscript and the server *)

(** ** The queue of the userscript *)

Lemma client_sendLogs_fields st :
  Client.sessionId (Client.sendLogs st) = Client.sessionId st
  /\ Client.CONFIG (Client.sendLogs st) = Client.CONFIG st
  /\ Client.browser (Client.sendLogs st) = Client.browser st
  /\ Client.pendingLogs (Client.sendLogs st) = []
  /\ Client.posted (Client.sendLogs st)
     = match Client.pendingLogs st with
       | [] => Client.posted st
       | _ :: _ =>
           (Client.posted st
            ++ [Client.mkRequest (Client.sessionId st) (Client.pendingLogs st)])%list
       end.
Proof.
  unfold Client.sendLogs. by destruct (Client.pendingLogs st) eqn:E.
Qed.

Lemma client_step_constants st ev :
  Client.sessionId (Client.step st ev) = Client.sessionId st
  /\ Client.CONFIG (Client.step st ev) = Client.CONFIG st
  /\ Client.browser (Client.step st ev) = Client.browser st.
Proof.
  destruct ev as [data| |req ok]; cbn [Client.step].
  - unfold Client.logData. destruct (_ <=? _); [|done].
    destruct (client_sendLogs_fields
                (Client.withPending
                   (fun q => (q ++ [JObj (Client.withMetadata st data)])%list) st))
      as (-> & -> & -> & _). done.
  - destruct (client_sendLogs_fields st) as (-> & -> & -> & _). done.
  - unfold Client.settle. destruct (Client.awaiting st !! req); [|done].
    by destruct ok.
Qed.

Lemma client_run_snoc st evs ev :
  Client.run st (evs ++ [ev]) = Client.step (Client.run st evs) ev.
Proof. unfold Client.run. by rewrite fold_left_app. Qed.

Lemma client_run_constants st evs :
  Client.sessionId (Client.run st evs) = Client.sessionId st
  /\ Client.CONFIG (Client.run st evs) = Client.CONFIG st
  /\ Client.browser (Client.run st evs) = Client.browser st.
Proof.
  induction evs as [|ev evs IH] using rev_ind; [done|].
  rewrite client_run_snoc.
  destruct (client_step_constants (Client.run st evs) ev) as (-> & -> & ->).
  exact IH.
Qed.

(** What a turn adds to the requests issued: nothing, or one request
    under the session of the script that is not empty. *)
Lemma client_step_posted st ev :
  Client.posted (Client.step st ev) = Client.posted st
  \/ exists e es,
       Client.posted (Client.step st ev)
       = (Client.posted st
          ++ [Client.mkRequest (Client.sessionId st) (e :: es)])%list.
Proof.
  assert (Hsend : forall st0,
            Client.posted (Client.sendLogs st0) = Client.posted st0
            \/ exists e es,
                 Client.posted (Client.sendLogs st0)
                 = (Client.posted st0
                    ++ [Client.mkRequest (Client.sessionId st0) (e :: es)])%list).
  { intros st0. unfold Client.sendLogs.
    destruct (Client.pendingLogs st0) as [|e es]; [by left|].
    right. by exists e, es. }
  destruct ev as [data| |req ok]; cbn [Client.step].
  - unfold Client.logData. destruct (_ <=? _); [|by left].
    exact (Hsend (Client.withPending _ st)).
  - apply Hsend.
  - left. unfold Client.settle. destruct (Client.awaiting st !! req); [|done].
    by destruct ok.
Qed.

Lemma client_posted_nonempty sid cfg br evs r :
  In r (Client.posted (Client.run (Client.initialState sid cfg br) evs)) ->
  Client.requestSession r = sid
  /\ exists e es, Client.requestLogs r = e :: es.
Proof.
  induction evs as [|ev evs IH] using rev_ind; [intros []|].
  rewrite client_run_snoc.
  destruct (client_step_posted
              (Client.run (Client.initialState sid cfg br) evs) ev)
    as [->|(e & es & ->)]; [exact IH|].
  intros [Hin|[<-|[]]]%in_app_or; [by apply IH|].
  cbn [Client.requestSession Client.requestLogs].
  destruct (client_run_constants (Client.initialState sid cfg br) evs)
    as (-> & _).
  split; [done|]. by exists e, es.
Qed.

(** X22. The script never posts an empty batch, and every batch goes out
    under the session id of the script: the server never answers one
    of its requests with 400. *)
Theorem client_never_posts_an_empty_batch sid cfg br evs r :
  In r (Client.posted (Client.run (Client.initialState sid cfg br) evs)) ->
  Client.requestSession r = sid
  /\ Client.requestLogs r <> []
  /\ response (Some (Client.requestSession r)) (JArr (Client.requestLogs r))
     <> Status 400 "No logs received".
Proof.
  intros Hin.
  destruct (client_posted_nonempty sid cfg br evs r Hin) as (Hs & e & es & He).
  split; [done|]. rewrite He. split; [done|].
  unfold response. by destruct (accepted _ _).
Qed.

(** ** The session id of the script *)

Lemma sessionKey_of_header sid e es :
  sid <> EmptyString ->
  inherited sid = false ->
  sessionKey (Some sid) (JArr (e :: es)) = Some sid.
Proof.
  intros Hne Hi. unfold sessionKey, requestSessionId.
  cbn [fmap option_fmap option_map truthyU truthy default from_option id].
  assert (String.eqb sid EmptyString = false) as ->.
  { by apply String.eqb_neq. }
  cbn [negb toString]. by rewrite Hi.
Qed.

Lemma occursIn_not_inherited c s :
  occursIn c s ->
  Forall (fun name => ~ occursIn c name) objectPrototypeNames ->
  inherited s = false.
Proof.
  intros Hin Hall. unfold inherited.
  destruct (existsb _ _) eqn:E; [|done].
  apply existsb_exists in E as (name & Hname & Heq).
  apply String.eqb_eq in Heq as <-.
  rewrite Forall_forall in Hall. exfalso.
  apply (Hall s); [by apply list_elem_of_In | done].
Qed.

Lemma no_dash_in_prototype_names :
  Forall (fun name => ~ occursIn "-" name) objectPrototypeNames.
Proof.
  unfold objectPrototypeNames, occursIn.
  repeat constructor;
    cbn; intros H; repeat (destruct H as [H|H]; [discriminate H|]); exact H.
Qed.

(** X23. Whatever the random suffixes, the host name and the time, the
    session id either version of the script generates is a key the
    server accepts: every non-empty batch posted under it is filed
    under that very id, whatever [sessionId] its entries carry. *)
Theorem client_session_id_is_the_session_key e es :
  (forall r1 r2,
      sessionKey (Some (Client.V1.generateSessionId r1 r2)) (JArr (e :: es))
      = Some (Client.V1.generateSessionId r1 r2))
  /\ (forall hostname fullYear month date hours minutes seconds,
        sessionKey
          (Some (Client.V3.generateSessionId hostname fullYear month date
                   hours minutes seconds))
          (JArr (e :: es))
        = Some (Client.V3.generateSessionId hostname fullYear month date
                  hours minutes seconds)).
Proof.
  split.
  - intros r1 r2. apply sessionKey_of_header.
    + unfold Client.V1.generateSessionId. by rewrite sapp_cons.
    + unfold Client.V1.generateSessionId, inherited, objectPrototypeNames.
      rewrite sapp_cons. reflexivity.
  - intros hostname fullYear month date hours minutes seconds.
    assert (Hdash : occursIn "-"
                      (Client.V3.generateSessionId hostname fullYear month date
                         hours minutes seconds)).
    { unfold Client.V3.generateSessionId. cbv zeta.
      rewrite !occursIn_app. do 5 right. left. by left. }
    apply sessionKey_of_header.
    + intros H. rewrite H in Hdash. destruct Hdash.
    + apply (occursIn_not_inherited "-"); [done|].
      apply no_dash_in_prototype_names.
Qed.

(** ** The size of the queue *)

Lemma jsSlice_newest {A : Type} (n : Z) (l : list A) :
  1 <= n -> n <= Z.of_nat (length l) ->
  exists dropped,
    l = (dropped ++ Client.jsSlice (- n) l)%list
    /\ Z.of_nat (length (Client.jsSlice (- n) l)) = n
    /\ Z.of_nat (length dropped) = Z.of_nat (length l) - n.
Proof.
  intros Hn Hl. unfold Client.jsSlice.
  destruct (- n <? 0) eqn:E; [|lia].
  replace (Z.max (Z.of_nat (length l) + - n) 0)
    with (Z.of_nat (length l) - n) by lia.
  exists (take (Z.to_nat (Z.of_nat (length l) - n)) l).
  split; [by rewrite take_drop|].
  rewrite length_drop, length_take. lia.
Qed.

Lemma client_step_bounded st ev :
  1 <= Client.maxLogsBeforeSend (Client.CONFIG st) ->
  Z.of_nat (length (Client.pendingLogs st))
  <= 2 * Client.maxLogsBeforeSend (Client.CONFIG st) ->
  Z.of_nat (length (Client.pendingLogs (Client.step st ev)))
  <= 2 * Client.maxLogsBeforeSend (Client.CONFIG st).
Proof.
  intros Hmax Hlen.
  destruct ev as [data| |req ok]; cbn [Client.step].
  - unfold Client.logData.
    destruct (_ <=? _) eqn:E.
    + destruct (client_sendLogs_fields
                  (Client.withPending
                     (fun q => (q ++ [JObj (Client.withMetadata st data)])%list)
                     st)) as (_ & _ & _ & -> & _).
      cbn. lia.
    + apply Z.leb_gt in E. cbn in E. cbn. lia.
  - destruct (client_sendLogs_fields st) as (_ & _ & _ & -> & _). cbn. lia.
  - unfold Client.settle.
    destruct (Client.awaiting st !! req) as [logsToSend|]; [|done].
    destruct ok; [done|]. cbn [Client.withPending Client.pendingLogs].
    destruct (_ <? _) eqn:E.
    + apply Z.ltb_lt in E.
      destruct (jsSlice_newest (Client.maxLogsBeforeSend (Client.CONFIG st))
                  (logsToSend ++ Client.pendingLogs st)) as (_ & _ & -> & _);
        lia.
    + apply Z.ltb_ge in E. lia.
Qed.

(** X24. With a limit of at least one entry the queue never holds more
    than twice [maxLogsBeforeSend] entries, whatever the network does. *)
Theorem client_queue_is_bounded sid cfg br evs :
  1 <= Client.maxLogsBeforeSend cfg ->
  Z.of_nat
    (length (Client.pendingLogs
               (Client.run (Client.initialState sid cfg br) evs)))
  <= 2 * Client.maxLogsBeforeSend cfg.
Proof.
  intros Hmax. induction evs as [|ev evs IH] using rev_ind; [cbn; lia|].
  rewrite client_run_snoc.
  destruct (client_run_constants (Client.initialState sid cfg br) evs)
    as (_ & Hc & _).
  cbn [Client.CONFIG Client.initialState] in Hc.
  pose proof (client_step_bounded
                (Client.run (Client.initialState sid cfg br) evs) ev) as H.
  rewrite Hc in H. by apply H.
Qed.


(** ** What reaches the server *)

Lemma client_step_conserves st ev :
  Client.isFailure ev = false ->
  (concat (map Client.requestLogs (Client.posted (Client.step st ev)))
   ++ Client.pendingLogs (Client.step st ev))%list
  = (concat (map Client.requestLogs (Client.posted st))
     ++ Client.pendingLogs st
     ++ match ev with
        | Client.LogData data => [JObj (Client.withMetadata st data)]
        | _ => []
        end)%list.
Proof.
  assert (Hsend : forall st0,
            (concat (map Client.requestLogs (Client.posted (Client.sendLogs st0)))
             ++ Client.pendingLogs (Client.sendLogs st0))%list
            = (concat (map Client.requestLogs (Client.posted st0))
               ++ Client.pendingLogs st0)%list).
  { intros st0. unfold Client.sendLogs.
    destruct (Client.pendingLogs st0) as [|e es] eqn:E; [by rewrite E|].
    cbn [Client.posted Client.pendingLogs].
    rewrite map_app, concat_app. cbn. by rewrite !app_nil_r. }
  intros Hok. destruct ev as [data| |req ok]; cbn [Client.step].
  - unfold Client.logData. destruct (_ <=? _).
    + rewrite Hsend. done.
    + done.
  - rewrite Hsend. by rewrite app_nil_r.
  - destruct ok; [|discriminate]. rewrite app_nil_r.
    unfold Client.settle. by destruct (Client.awaiting st !! req).
Qed.

Lemma client_run_conserves evs : forall st,
  existsb Client.isFailure evs = false ->
  (concat (map Client.requestLogs (Client.posted (Client.run st evs)))
   ++ Client.pendingLogs (Client.run st evs))%list
  = (concat (map Client.requestLogs (Client.posted st))
     ++ Client.pendingLogs st ++ Client.logged st evs)%list.
Proof.
  induction evs as [|ev evs IH]; intros st Hok.
  - cbn. by rewrite app_nil_r.
  - cbn [existsb] in Hok. apply orb_false_iff in Hok as [Hev Hevs].
    change (Client.run st (ev :: evs)) with (Client.run (Client.step st ev) evs).
    rewrite (IH _ Hevs). cbn [Client.logged].
    rewrite !app_assoc. f_equal.
    rewrite <- !app_assoc. by apply client_step_conserves.
Qed.

(** X26. As long as no request fails, the script neither loses nor
    repeats nor reorders an entry: the batches posted so far, followed
    by the queue, are the entries logged, in the order they were
    logged. *)
Theorem client_posts_every_entry_once_in_order sid cfg br evs :
  existsb Client.isFailure evs = false ->
  let st := Client.run (Client.initialState sid cfg br) evs in
  (concat (map Client.requestLogs (Client.posted st))
   ++ Client.pendingLogs st)%list
  = Client.logged (Client.initialState sid cfg br) evs.
Proof.
  intros Hok st. unfold st. by rewrite client_run_conserves.
Qed.

Lemma assoc_setProp k k' v props :
  assoc k (Client.setProp k' v props)
  = if String.eqb k k' then Some v else assoc k props.
Proof.
  induction props as [|[k0 v0] props IH]; cbn [Client.setProp assoc].
  - by destruct (String.eqb k k').
  - destruct (String.eqb k' k0) eqn:E; cbn [assoc].
    + apply String.eqb_eq in E as <-. by destruct (String.eqb k k').
    + rewrite IH. destruct (String.eqb k k0) eqn:E2; [|done].
      apply String.eqb_eq in E2 as <-.
      rewrite String.eqb_sym in E. by rewrite E.
Qed.

Lemma withMetadata_get st data k :
  ~ In k ["userAgent"; "devicePixelRatio"; "screenWidth"; "screenHeight";
          "userId"] ->
  get k (JObj (Client.withMetadata st data)) = get k (JObj data).
Proof.
  intros Hk. cbn [get]. unfold Client.withMetadata. cbv zeta.
  assert (Hne : forall k', In k' ["userAgent"; "devicePixelRatio";
                                  "screenWidth"; "screenHeight"; "userId"] ->
                String.eqb k k' = false).
  { intros k' Hin. apply String.eqb_neq. intros ->. done. }
  destruct (truthy _); rewrite !assoc_setProp, !Hne; cbn; auto 10.
Qed.

(** X27. The metadata [logData] writes into an entry changes nothing of
    what the server reads from it: its [sessionId], whether it closes
    the session, the start times it carries and whether the ingestion
    loop throws on it are those of the entry the hook built. *)
Theorem client_metadata_keeps_what_the_server_reads st data :
  let entry := JObj (Client.withMetadata st data) in
  firstEntrySessionId entry = firstEntrySessionId (JObj data)
  /\ closesSession entry = closesSession (JObj data)
  /\ startTimesOfEntry entry = startTimesOfEntry (JObj data)
  /\ entryThrows entry = entryThrows (JObj data)
  /\ get "userAgent" entry = Some (Client.userAgent (Client.browser st)).
Proof.
  cbv zeta.
  assert (Hget : forall k,
            In k ["sessionId"; "type"; "iceConnectionState"; "rawStats"] ->
            get k (JObj (Client.withMetadata st data)) = get k (JObj data)).
  { intros k Hk. apply withMetadata_get.
    cbn in Hk. cbn. intros H.
    repeat (destruct Hk as [<-|Hk]; [intuition discriminate|]). done. }
  assert (H1 := Hget "sessionId" ltac:(cbn; auto)).
  assert (H2 := Hget "type" ltac:(cbn; auto)).
  assert (H3 := Hget "iceConnectionState" ltac:(cbn; auto)).
  assert (H4 := Hget "rawStats" ltac:(cbn; auto 10)).
  split; [|split; [|split; [|split]]].
  - unfold firstEntrySessionId. cbn [truthy]. exact H1.
  - unfold closesSession. by rewrite H2, H3.
  - unfold startTimesOfEntry. by rewrite H2, H4.
  - unfold entryThrows, ingestEntry. rewrite !threw_andThen, H2, H4.
    f_equal.
    + destruct (isStr "stats" _ && _); [|done]. apply scanStats_threw.
    + rewrite H3.
      destruct (isStr "state_change" (get "type" (JObj data)) && _); done.
  - cbn [get]. unfold Client.withMetadata. cbv zeta.
    destruct (truthy _); rewrite !assoc_setProp; reflexivity.
Qed.

(** X28. End to end: when no request fails, the requests of the script
    reach the server in the order they were issued and the server
    throws on none of the entries, then the logs the server holds for
    the session of the script, followed by the queue of the script, are
    the entries the hooks logged, in order. *)
Theorem logged_entries_reach_the_server_in_order sid cfg br evs w :
  sid <> EmptyString ->
  inherited sid = false ->
  existsb Client.isFailure evs = false ->
  existsb entryThrows (Client.logged (Client.initialState sid cfg br) evs)
  = false ->
  let st := Client.run (Client.initialState sid cfg br) evs in
  (sessionLogs sid (run w (map toPost (Client.posted st)))
   ++ Client.pendingLogs st)%list
  = (sessionLogs sid w
     ++ Client.logged (Client.initialState sid cfg br) evs)%list.
Proof.
  intros Hne Hi Hok Hthrow st.
  pose proof (client_run_conserves evs (Client.initialState sid cfg br) Hok)
    as Hcons.
  cbn [Client.posted Client.pendingLogs Client.initialState map concat app]
    in Hcons.
  fold st in Hcons. rewrite <- Hcons in *.
  rewrite run_logs, <- app_assoc. f_equal. f_equal.
  rewrite existsb_app in Hthrow. apply orb_false_iff in Hthrow as [Hthrow _].
  assert (Hposted : forall r, In r (Client.posted st) ->
            Client.requestSession r = sid
            /\ exists e es, Client.requestLogs r = e :: es).
  { intros r. apply client_posted_nonempty. }
  clear Hcons. induction (Client.posted st) as [|r rs IH]; [done|].
  cbn [map concat] in *.
  rewrite existsb_app in Hthrow. apply orb_false_iff in Hthrow as [Hr Hrs].
  rewrite IH; [|done | intros r' Hr'; apply Hposted; by right].
  f_equal.
  destruct (Hposted r (or_introl eq_refl)) as (Hs & e & es & He).
  unfold toPost. cbn [pushedUnder]. rewrite Hs, He.
  rewrite (sessionKey_of_header sid e es Hne Hi), decide_True by done.
  cbn [entriesOf]. rewrite <- He. by apply existsb_throws_pushed.
Qed.

End FurtherProperties.


(** * The model on concrete runs *)

(** A parser and a date stamp to run the model with. *)
Definition demoParse (s : string) : option JSON :=
  if String.eqb s "{}" then Some (JObj []) else None.

Definition demoStamp (now : Z) : string := "2025-02-26T05-46-26-093Z".

#[global] Instance demoEnv : Env :=
  {| JSON_parse := demoParse; isoStamp := demoStamp |}.

(** Scenario A of the specification: one batch that closes session s1,
    sent to a server that has just started. *)
Definition closingEntry : JSON :=
  JObj [("type", JStr "state_change");
        ("iceConnectionState", JStr "failed");
        ("sessionId", JStr "s1")].

Definition closingBatch : JSON := JArr [closingEntry].

Definition afterClosingBatch : World :=
  run (initWorld 0 true) [PostLog None closingBatch].

Definition closedSession : Session :=
  {| logs := [closingEntry]; isClosed := true; timedOut := false;
     firstStatsTimestamp := JNull; earliestStatsStartTime := JNull;
     analyzed := true; lastActivityTime := 0 |}.


(** Scenario B, with a first stat object whose [startTime] is the number
    0: a stats entry for s2 with two stat objects. *)
Definition statsEntry : JSON :=
  JObj [("type", JStr "stats");
        ("rawStats",
         JObj [("a", JObj [("startTime", JNum "0")]);
               ("b", JObj [("startTime", JStr "2025-02-26T05:46:26.093Z")])])].

Definition statsBatch : JSON := JArr [statsEntry].


Example scenario_A :
  fst (postLog None closingBatch (initWorld 0 true))
  = Status 200 "Logs received"
  /\ sessions afterClosingBatch !! "s1" = Some closedSession
  /\ finalizations "s1" afterClosingBatch = 1%nat
  /\ console afterClosingBatch
     = [MsgProcessing "s1" true; MsgRunning "s1"; MsgFinalizing "s1";
        MsgProcessing "s1" false; MsgRunning "s1"].
Proof. vm_compute. auto. Qed.

Example extractTimeFromISO_examples :
  extractTimeFromISO (JStr "2025-02-26T05:46:26.093Z") 0 = "05_46_26"
  /\ extractTimeFromISO (JStr "no time here") 0 = demoStamp 0
  /\ extractTimeFromISO (JStr "xT05:46") 0 = demoStamp 0
  /\ extractTimeFromISO (JNum "5") 0 = demoStamp 0.
Proof. vm_compute. auto. Qed.

(** The same batch sent to the first server.js: the raw body and the
    combined logs are written, one analyzer is launched. *)
Example basic_scenario_A :
  let w := Basic.run (initWorld 0 true) [PostLog None closingBatch] in
  finalizations "s1" w = 1%nat
  /\ inFlight "s1" w = 1%nat
  /\ disk w = [WriteRawLogs "s1" (demoStamp 0) [closingEntry];
               WriteAllLogs "s1" (demoStamp 0) [closingEntry]].
Proof. vm_compute. auto. Qed.

Example toString_examples :
  toString (JArr [JNum "1"; JNull; JArr [JStr "a"; JBool true]]) = Some "1,,a,true"
  /\ toString (JObj [("toString", JNum "1")]) = None
  /\ toString (JObj [("sessionId", JStr "x")]) = Some "[object Object]".
Proof. vm_compute. auto. Qed.

Example prototype_name_throws :
  postLog (Some "constructor") closingBatch (initWorld 0 true)
  = (Uncaught, initWorld 0 true).
Proof. reflexivity. Qed.

Example null_entry_throws_after_push :
  let w := run (initWorld 0 true) [PostLog (Some "s3") (JArr [JNull])] in
  fst (postLog (Some "s3") (JArr [JNull]) (initWorld 0 true))
  = Uncaught
  /\ sessionLogs "s3" w = [JNull].
Proof. vm_compute. auto. Qed.

Example jsonRegion_examples :
  jsonRegion "log line {a: {b: 1}} done" = Some "{a: {b: 1}}"
  /\ jsonRegion "} nothing {" = None
  /\ jsonRegion "no braces" = None
  /\ jsonRegion "{}" = Some "{}".
Proof. vm_compute. auto. Qed.

(** ** The theorems at concrete runs *)

Lemma finalization_runs_at_most_once_witness :
  reachable afterClosingBatch
  /\ (finalizations "s1" afterClosingBatch <= 1)%nat
  /\ finalizeSession "s1" afterClosingBatch
     = afterClosingBatch.
Proof.
  assert (Hr : reachable afterClosingBatch).
  { exists 0, true, [PostLog None closingBatch]. reflexivity. }
  split; [exact Hr|].
  destruct (finalization_runs_at_most_once afterClosingBatch "s1" Hr)
    as (H1 & _ & H3).
  split; [exact H1|].
  destruct (H3 ltac:(vm_compute; reflexivity) []) as (_ & H & _).
  exact H.
Defined.


Lemma closingBatch_allAccepted :
  allAccepted "s1" [PostLog None closingBatch].
Proof.
  intros header body [[= <- <-]|[]] _. vm_compute. reflexivity.
Defined.

Lemma logs_are_batches_in_arrival_order_witness :
  allAccepted "s1" [PostLog None closingBatch]
  /\ sessionLogs "s1" afterClosingBatch = [closingEntry].
Proof.
  split; [exact closingBatch_allAccepted|].
  exact (proj1 (logs_are_batches_in_arrival_order 0 true "s1"
                  [PostLog None closingBatch] closingBatch_allAccepted)).
Defined.




Lemma rejected_batch_changes_nothing_witness :
  (forall xs, JArr [] = JArr xs -> xs = [])
  /\ postLog (Some "s1") (JArr []) afterClosingBatch
     = (Status 400 "No logs received", afterClosingBatch)
  /\ postLog None (JObj [("sessionId", JStr "s1")])
       afterClosingBatch
     = (Status 400 "No logs received", afterClosingBatch).
Proof.
  assert (H1 : forall xs, JArr [] = JArr xs -> xs = []).
  { intros xs [= <-]. reflexivity. }
  split; [exact H1|]. split.
  - exact (proj1 (rejected_batch_changes_nothing (Some "s1") (JArr [])
                    afterClosingBatch H1)).
  - refine (proj1 (rejected_batch_changes_nothing None
                     (JObj [("sessionId", JStr "s1")]) afterClosingBatch _)).
    intros xs H. discriminate H.
Defined.

Lemma falsy_startTime_is_never_recorded_witness :
  get "startTime" (JObj [("startTime", JNum "0")]) = Some (JNum "0")
  /\ truthy (JNum "0") = false
  /\ scanStat (JObj [("startTime", JNum "0")]) (newSession 0)
     = Done (newSession 0).
Proof.
  split; [reflexivity|]. split; [reflexivity|].
  exact (proj1 (falsy_startTime_is_never_recorded
                  (JObj [("startTime", JNum "0")]) (JNum "0") (newSession 0)
                  eq_refl eq_refl)).
Defined.



(** ** Where the code departs from the specification *)



(** C3: the child of the non-final pass of scenario A (pid 0, launched by
    the handler with [newLogsOnly = true]) exits with output that parses;
    the session was closed by then, and the callback writes the
    final-result file.  *)
Theorem nonfinal_pass_writes_final_results :
  children afterClosingBatch !! 0%nat = Some (mkChild "s1" true)
  /\ disk (step afterClosingBatch (ChildCloses 0 "ok {} done" (Some 0)))
     = (disk afterClosingBatch ++ [WriteFinalResults "s1" (JObj [])])%list.
Proof. vm_compute. auto. Qed.

(** ** The further properties at concrete runs *)

Lemma sessions_persist_and_flags_only_rise_witness :
  sessions afterClosingBatch !! "s1" = Some closedSession
  /\ exists s',
       sessions (run afterClosingBatch [Elapse 10000; TimerFires 0]) !! "s1"
       = Some s'
       /\ (isClosed closedSession = true -> isClosed s' = true)
       /\ (timedOut closedSession = true -> timedOut s' = true)
       /\ (analyzed closedSession = true -> analyzed s' = true).
Proof.
  assert (Hs : sessions afterClosingBatch !! "s1" = Some closedSession).
  { vm_compute. reflexivity. }
  split; [exact Hs|].
  exact (sessions_persist_and_flags_only_rise "s1" afterClosingBatch
           closedSession [Elapse 10000; TimerFires 0%nat] Hs).
Defined.

Lemma session_flags_are_ordered_witness :
  reachable afterClosingBatch
  /\ sessions afterClosingBatch !! "s1" = Some closedSession
  /\ (analyzed closedSession = true -> isClosed closedSession = true).
Proof.
  assert (Hr : reachable afterClosingBatch).
  { exists 0, true, [PostLog None closingBatch]. reflexivity. }
  assert (Hs : sessions afterClosingBatch !! "s1" = Some closedSession).
  { vm_compute. reflexivity. }
  split; [exact Hr|]. split; [exact Hs|].
  exact (proj1 (session_flags_are_ordered afterClosingBatch "s1"
                  closedSession Hr Hs)).
Defined.


Lemma sessions_are_isolated_witness :
  reachable afterClosingBatch
  /\ eventSession afterClosingBatch (PostLog (Some "s2") statsBatch) <> Some "s1"
  /\ sessions (step afterClosingBatch (PostLog (Some "s2") statsBatch)) !! "s1"
     = sessions afterClosingBatch !! "s1".
Proof.
  assert (Hr : reachable afterClosingBatch).
  { exists 0, true, [PostLog None closingBatch]. reflexivity. }
  assert (He : eventSession afterClosingBatch (PostLog (Some "s2") statsBatch)
               <> Some "s1").
  { vm_compute. discriminate. }
  split; [exact Hr|]. split; [exact He|].
  exact (proj1 (sessions_are_isolated afterClosingBatch
                  (PostLog (Some "s2") statsBatch) "s1" Hr He)).
Defined.

Lemma throwing_request_keeps_partial_writes_witness :
  sessionKey (Some "s3") (JArr [JNull]) = Some "s3"
  /\ accepted (Some "s3") (JArr [JNull]) = false
  /\ fst (postLog (Some "s3") (JArr [JNull]) (initWorld 0 true)) = Uncaught.
Proof.
  assert (Hk : sessionKey (Some "s3") (JArr [JNull]) = Some "s3").
  { vm_compute. reflexivity. }
  assert (Ha : accepted (Some "s3") (JArr [JNull]) = false).
  { vm_compute. reflexivity. }
  split; [exact Hk|]. split; [exact Ha|].
  exact (proj1 (throwing_request_keeps_partial_writes (Some "s3") (JArr [JNull])
                  (initWorld 0 true) "s3" Hk Ha)).
Defined.

Lemma prototype_names_hold_no_session_witness :
  reachable afterClosingBatch
  /\ In "constructor" objectPrototypeNames
  /\ sessions afterClosingBatch !! "constructor" = None.
Proof.
  assert (Hr : reachable afterClosingBatch).
  { exists 0, true, [PostLog None closingBatch]. reflexivity. }
  assert (Hn : In "constructor" objectPrototypeNames).
  { left. reflexivity. }
  split; [exact Hr|]. split; [exact Hn|].
  exact (proj1 (prototype_names_hold_no_session afterClosingBatch
                  "constructor" Hr Hn)).
Defined.


(** The analyzer launched for the closing batch exits and prints an
    empty object. *)
Definition afterAnalysis : World :=
  run (initWorld 0 true) [PostLog None closingBatch; ChildCloses 0 "{}" None].

Lemma final_results_only_for_closed_sessions_witness :
  reachable afterAnalysis
  /\ In (WriteFinalResults "s1" (JObj [])) (disk afterAnalysis)
  /\ exists s, sessions afterAnalysis !! "s1" = Some s /\ isClosed s = true.
Proof.
  assert (Hr : reachable afterAnalysis).
  { exists 0, true, [PostLog None closingBatch; ChildCloses 0%nat "{}" None].
    reflexivity. }
  assert (Hin : In (WriteFinalResults "s1" (JObj [])) (disk afterAnalysis)).
  { vm_compute. right. right. left. reflexivity. }
  split; [exact Hr|]. split; [exact Hin|].
  exact (final_results_only_for_closed_sessions afterAnalysis "s1" (JObj [])
           Hr Hin).
Defined.

Lemma jsonRegion_idempotent_witness :
  jsonRegion "log line {a: {b: 1}} done" = Some "{a: {b: 1}}"
  /\ jsonRegion "{a: {b: 1}}" = Some "{a: {b: 1}}".
Proof.
  assert (H : jsonRegion "log line {a: {b: 1}} done" = Some "{a: {b: 1}}").
  { vm_compute. reflexivity. }
  split; [exact H|].
  exact (jsonRegion_idempotent "log line {a: {b: 1}} done" "{a: {b: 1}}" H).
Defined.

Local Ltac absent :=
  let H := fresh in
  unfold occursIn; cbn; intros H;
  repeat (destruct H as [H|H]; [discriminate H|]); exact H.

Local Ltac fieldOK :=
  let c := fresh in
  let Hc := fresh in
  intros c Hc; cbn in Hc;
  repeat (destruct Hc as [<-|Hc]; [absent|]); destruct Hc.

Lemma extractTimeFromISO_reads_the_time_witness :
  ~ occursIn "T" "2025-02-26"
  /\ timeField "05" /\ timeField "46" /\ timeField "26"
  /\ timeTail ".093Z"
  /\ extractTimeFromISO
       (JStr ("2025-02-26" ++ "T" ++ "05" ++ ":" ++ "46" ++ ":" ++ "26"
              ++ ".093Z")) 0
     = ("05" ++ "_" ++ "46" ++ "_" ++ "26")%string.
Proof.
  assert (Hd : ~ occursIn "T" "2025-02-26") by absent.
  assert (Hh : timeField "05") by fieldOK.
  assert (Hm : timeField "46") by fieldOK.
  assert (Hs : timeField "26") by fieldOK.
  assert (Ht : timeTail ".093Z").
  { cbn. right. right. right. left. reflexivity. }
  split; [exact Hd|]. split; [exact Hh|]. split; [exact Hm|].
  split; [exact Hs|]. split; [exact Ht|].
  exact (extractTimeFromISO_reads_the_time "2025-02-26" "05" "46" "26" ".093Z"
           0 Hd Hh Hm Hs Ht).
Defined.

Lemma extractTimeFromISO_falls_back_witness :
  (forall iso, JNum "5" = JStr iso -> ~ occursIn "T" iso)
  /\ extractTimeFromISO (JNum "5") 0 = isoStamp 0.
Proof.
  assert (H : forall iso, JNum "5" = JStr iso -> ~ occursIn "T" iso).
  { intros iso Heq. discriminate Heq. }
  split; [exact H|].
  exact (extractTimeFromISO_falls_back (JNum "5") 0 H).
Defined.

Lemma health_lists_sessions_until_finalized_witness :
  reachable afterClosingBatch
  /\ (is_Some (sessions afterClosingBatch !! "s1") ->
      healthSessions (snd (health "t0" afterClosingBatch)) !! "s1" = None ->
      forall ts' evs,
        healthSessions (snd (health ts' (run afterClosingBatch evs))) !! "s1"
        = None).
Proof.
  assert (Hr : reachable afterClosingBatch).
  { exists 0, true, [PostLog None closingBatch]. reflexivity. }
  split; [exact Hr|].
  exact (proj2 (health_lists_sessions_until_finalized "t0" afterClosingBatch
                  "s1" Hr)).
Defined.



Lemma closed_iff_closing_entry_or_timeout_witness :
  reachable afterClosingBatch
  /\ sessions afterClosingBatch !! "s1" = Some closedSession
  /\ isClosed closedSession
     = timedOut closedSession || existsb closesSession (logs closedSession).
Proof.
  assert (Hr : reachable afterClosingBatch).
  { exists 0, true, [PostLog None closingBatch]. reflexivity. }
  assert (Hs : sessions afterClosingBatch !! "s1" = Some closedSession).
  { vm_compute. reflexivity. }
  split; [exact Hr|]. split; [exact Hs|].
  exact (closed_iff_closing_entry_or_timeout afterClosingBatch "s1"
           closedSession Hr Hs).
Defined.

(** The closing batch sent to the first server. *)
Definition basicAfterClosingBatch : World :=
  Basic.run (initWorld 0 true) [PostLog None closingBatch].

Lemma basic_closed_iff_closing_entry_witness :
  Basic.reachable basicAfterClosingBatch
  /\ sessions basicAfterClosingBatch !! "s1" = Some closedSession
  /\ isClosed closedSession = existsb closesSession (logs closedSession).
Proof.
  assert (Hr : Basic.reachable basicAfterClosingBatch).
  { exists 0, true, [PostLog None closingBatch]. reflexivity. }
  assert (Hs : sessions basicAfterClosingBatch !! "s1" = Some closedSession).
  { vm_compute. reflexivity. }
  split; [exact Hr|]. split; [exact Hs|].
  exact (proj1 (basic_closed_iff_closing_entry basicAfterClosingBatch "s1"
                  closedSession Hr Hs)).
Defined.

Lemma basic_one_snapshot_per_session_witness :
  Basic.reachable basicAfterClosingBatch
  /\ length (snapshots "s1" (disk basicAfterClosingBatch))
     = (if analyzedIn "s1" basicAfterClosingBatch then 1 else 0)%nat.
Proof.
  assert (Hr : Basic.reachable basicAfterClosingBatch).
  { exists 0, true, [PostLog None closingBatch]. reflexivity. }
  split; [exact Hr|].
  exact (proj1 (basic_one_snapshot_per_session basicAfterClosingBatch "s1" Hr)).
Defined.

Lemma snapshots_are_prefixes_of_the_logs_witness :
  reachable afterClosingBatch
  /\ In [closingEntry] (snapshots "s1" (disk afterClosingBatch))
  /\ exists rest,
       sessionLogs "s1" afterClosingBatch = ([closingEntry] ++ rest)%list.
Proof.
  assert (Hr : reachable afterClosingBatch).
  { exists 0, true, [PostLog None closingBatch]. reflexivity. }
  assert (Hin : In [closingEntry] (snapshots "s1" (disk afterClosingBatch))).
  { vm_compute. left. reflexivity. }
  split; [exact Hr|]. split; [exact Hin|].
  exact (snapshots_are_prefixes_of_the_logs afterClosingBatch "s1"
           [closingEntry] Hr Hin).
Defined.

(** A page whose script logs the closing entry and sends it. *)
Definition demoConfig : Client.Config :=
  {| Client.maxLogsBeforeSend := 1000; Client.userId := JNull |}.

Definition demoBrowser : Client.Browser :=
  {| Client.userAgent := JStr "agent"; Client.devicePixelRatio := JNum "1";
     Client.screenWidth := JNum "800"; Client.screenHeight := JNum "600" |}.

Definition demoPage : Client.State :=
  Client.initialState "s1" demoConfig demoBrowser.

Definition demoTurns : list Client.Event :=
  [Client.LogData [("type", JStr "state_change");
                   ("iceConnectionState", JStr "failed");
                   ("sessionId", JStr "s1")];
   Client.SendLogs;
   Client.FetchSettles 0 true].

Definition demoEntry : JSON :=
  JObj [("type", JStr "state_change");
        ("iceConnectionState", JStr "failed");
        ("sessionId", JStr "s1");
        ("userAgent", JStr "agent");
        ("devicePixelRatio", JNum "1");
        ("screenWidth", JNum "800");
        ("screenHeight", JNum "600")].

Lemma client_never_posts_an_empty_batch_witness :
  In (Client.mkRequest "s1" [demoEntry])
     (Client.posted (Client.run demoPage demoTurns))
  /\ Client.requestLogs (Client.mkRequest "s1" [demoEntry]) <> [].
Proof.
  assert (Hin : In (Client.mkRequest "s1" [demoEntry])
                   (Client.posted (Client.run demoPage demoTurns))).
  { vm_compute. left. reflexivity. }
  split; [exact Hin|].
  exact (proj1 (proj2 (client_never_posts_an_empty_batch "s1" demoConfig
                         demoBrowser demoTurns
                         (Client.mkRequest "s1" [demoEntry]) Hin))).
Defined.

Lemma client_queue_is_bounded_witness :
  1 <= Client.maxLogsBeforeSend demoConfig
  /\ Z.of_nat (length (Client.pendingLogs (Client.run demoPage demoTurns)))
     <= 2 * Client.maxLogsBeforeSend demoConfig.
Proof.
  assert (H : 1 <= Client.maxLogsBeforeSend demoConfig).
  { cbn. lia. }
  split; [exact H|].
  exact (client_queue_is_bounded "s1" demoConfig demoBrowser demoTurns H).
Defined.



Lemma client_posts_every_entry_once_in_order_witness :
  existsb Client.isFailure demoTurns = false
  /\ (concat (map Client.requestLogs
                (Client.posted (Client.run demoPage demoTurns)))
      ++ Client.pendingLogs (Client.run demoPage demoTurns))%list
     = Client.logged demoPage demoTurns.
Proof.
  assert (H : existsb Client.isFailure demoTurns = false).
  { vm_compute. reflexivity. }
  split; [exact H|].
  exact (client_posts_every_entry_once_in_order "s1" demoConfig demoBrowser
           demoTurns H).
Defined.

Lemma logged_entries_reach_the_server_in_order_witness :
  "s1" <> EmptyString
  /\ inherited "s1" = false
  /\ existsb Client.isFailure demoTurns = false
  /\ existsb entryThrows (Client.logged demoPage demoTurns) = false
  /\ (sessionLogs "s1"
        (run (initWorld 0 true)
           (map toPost (Client.posted (Client.run demoPage demoTurns))))
      ++ Client.pendingLogs (Client.run demoPage demoTurns))%list
     = (sessionLogs "s1" (initWorld 0 true)
        ++ Client.logged demoPage demoTurns)%list.
Proof.
  assert (H1 : "s1" <> EmptyString) by discriminate.
  assert (H2 : inherited "s1" = false).
  { vm_compute. reflexivity. }
  assert (H3 : existsb Client.isFailure demoTurns = false).
  { vm_compute. reflexivity. }
  assert (H4 : existsb entryThrows (Client.logged demoPage demoTurns) = false).
  { vm_compute. reflexivity. }
  split; [exact H1|]. split; [exact H2|]. split; [exact H3|].
  split; [exact H4|].
  exact (logged_entries_reach_the_server_in_order "s1" demoConfig demoBrowser
           demoTurns (initWorld 0 true) H1 H2 H3 H4).
Defined.
